(** * Trailing annualised returns: date alignment and period computation

    A shallow embedding of [process_database.py]:
    [find_closest_trading_day] (the date aligner),
    [calculate_returns_optimized] (the per-period calculator) and [main]
    (the batch runner), followed by the properties of the written
    specification that concern them and by further properties of the code.

    Conventions of the embedding.
    - A pandas [Timestamp] / numpy [datetime64[ns]] is an integer count of
      nanoseconds since 1970-01-01 ([Z]); [NaT] is outside the model.
    - A position in a column is a [nat]; [start_index] is the row number
      that [enumerate] hands to the aligner.
    - A numeric cell after [pd.to_numeric(..., errors='coerce')] is an
      [option Q]: [None] is [NaN], [Some q] a finite number.  Arithmetic on
      cells is exact; binary rounding of the host floats is not modelled.
      The digits of a cell are therefore those of the host only where the
      value is away from a rounding boundary of the two-decimal format and
      from the overflow and the precision of the floats; statements that
      hold for every cell speak of its shape, not of its digits.
    - [None] as the result of a fallible step stands for a raised
      exception.
    - The column names of a table may repeat; the host then takes the
      [except] branch for the columns concerned ([process_named_column])
      and keeps one result column per name ([assign]).
    - Rows with equal dates: the order [sort_values] leaves them in is not
      fixed by the host; here they keep their original order.
    - Dates are those of [datetime64[ns]] (years 1677 to 2262), for which
      the year is written with four digits. *)

From Stdlib Require Import String Ascii DecimalString.
From Stdlib Require Import ZArith QArith Bool Arith Lia.
From Stdlib Require Import List Sorted Permutation.
Import ListNotations.

(** ** DateAligner *)

Abbreviation Timestamp := Z.

(** [np.where(mask)[0]]: the positions at which [mask] holds, ascending. *)
Fixpoint where_from (k : nat) (mask : list bool) : list nat :=
  match mask with
  | [] => []
  | b :: m => if b then k :: where_from (S k) m else where_from (S k) m
  end.

Definition np_where (mask : list bool) : list nat := where_from 0 mask.

Definition find_closest_trading_day
    (dates_array : list Timestamp) (target_date : Timestamp)
    (start_index : nat) : option nat :=
  let available_dates := skipn start_index dates_array in
  if Nat.eqb (length available_dates) 0 then None
  else
    let target_date_num := target_date in
    if Z.gtb target_date_num (last available_dates 0%Z) then None
    else
      let exact_matches :=
        np_where (map (fun d => Z.eqb d target_date_num) available_dates) in
      if Nat.ltb 0 (length exact_matches)
      then Some (start_index + hd 0%nat exact_matches)%nat
      else
        let past_dates_idx :=
          np_where (map (fun d => Z.ltb d target_date_num) available_dates) in
        if Nat.ltb 0 (length past_dates_idx)
        then Some (start_index + last past_dates_idx 0%nat)%nat
        else None.

(** The five ways through [find_closest_trading_day], as a relation
    between its arguments and its answer. *)
Inductive locate_cases (dates : list Timestamp) (t : Timestamp) (b : nat)
  : option nat -> Prop :=
  | Locate_empty :
      skipn b dates = [] -> locate_cases dates t b None
  | Locate_beyond :
      skipn b dates <> [] -> (last (skipn b dates) 0 < t)%Z ->
      locate_cases dates t b None
  | Locate_exact n :
      (t <= last (skipn b dates) 0)%Z ->
      nth_error dates (b + n) = Some t ->
      (forall n', (n' < n)%nat -> nth_error dates (b + n') <> Some t) ->
      locate_cases dates t b (Some (b + n)%nat)
  | Locate_before n d :
      (t <= last (skipn b dates) 0)%Z ->
      ~ In t (skipn b dates) ->
      nth_error dates (b + n) = Some d -> (d < t)%Z ->
      (forall n' d', (n < n')%nat -> nth_error dates (b + n') = Some d' ->
                     ~ (d' < t)%Z) ->
      locate_cases dates t b (Some (b + n)%nat)
  | Locate_none_before :
      skipn b dates <> [] -> (t <= last (skipn b dates) 0)%Z ->
      ~ In t (skipn b dates) ->
      (forall x, In x (skipn b dates) -> ~ (x < t)%Z) ->
      locate_cases dates t b None.

(** ** Calendar arithmetic of the host library

    [strftime], [Timedelta.days] and [DateOffset(years=n)] work on the
    proleptic Gregorian calendar.  Days are counted from 1970-01-01. *)

Definition NS_PER_DAY : Z := 86400 * 1000000000.

Definition date_part (t : Timestamp) : Z := (t / NS_PER_DAY)%Z.
Definition time_part (t : Timestamp) : Z := (t mod NS_PER_DAY)%Z.

Record civil : Type := mkCivil { c_year : Z; c_month : Z; c_day : Z }.

Definition is_leap (y : Z) : bool :=
  ((y mod 4 =? 0) && (negb (y mod 100 =? 0) || (y mod 400 =? 0)))%Z.

Definition days_in_month (y m : Z) : Z :=
  if (m =? 2)%Z then (if is_leap y then 29 else 28)%Z
  else if ((m =? 4) || (m =? 6) || (m =? 9) || (m =? 11))%Z then 30%Z
  else 31%Z.

Definition civil_from_days (z : Z) : civil :=
  let z := (z + 719468)%Z in
  let era := (z / 146097)%Z in
  let doe := (z mod 146097)%Z in
  let yoe := ((doe - doe / 1460 + doe / 36524 - doe / 146096) / 365)%Z in
  let y := (yoe + era * 400)%Z in
  let doy := (doe - (365 * yoe + yoe / 4 - yoe / 100))%Z in
  let mp := ((5 * doy + 2) / 153)%Z in
  let d := (doy - (153 * mp + 2) / 5 + 1)%Z in
  let m := (if (mp <? 10)%Z then mp + 3 else mp - 9)%Z in
  mkCivil (if (m <=? 2)%Z then y + 1 else y)%Z m d.

Definition days_from_civil (c : civil) : Z :=
  let y := (if (c_month c <=? 2)%Z then c_year c - 1 else c_year c)%Z in
  let era := (y / 400)%Z in
  let yoe := (y mod 400)%Z in
  let mp := (if (c_month c >? 2)%Z then c_month c - 3 else c_month c + 9)%Z in
  let doy := ((153 * mp + 2) / 5 + c_day c - 1)%Z in
  let doe := (yoe * 365 + yoe / 4 - yoe / 100 + doy)%Z in
  (era * 146097 + doe - 719468)%Z.

(** [ts + pd.DateOffset(years=n)]: the year is shifted, the day of the
    month is clamped to the length of the month in the new year, and the
    time of day is kept. *)
Definition DateOffset_years (years : Z) (t : Timestamp) : Timestamp :=
  let c := civil_from_days (date_part t) in
  let y := (c_year c + years)%Z in
  let d := Z.min (c_day c) (days_in_month y (c_month c)) in
  (days_from_civil (mkCivil y (c_month c) d) * NS_PER_DAY + time_part t)%Z.

(** [(b - a).days] of a [Timedelta]: whole days, rounded down. *)
Definition timedelta_days (b a : Timestamp) : Z := ((b - a) / NS_PER_DAY)%Z.

Definition string_of_Z (z : Z) : string :=
  NilZero.string_of_int (Z.to_int z).

Definition pad2 (z : Z) : string :=
  if (z <? 10)%Z then ("0" ++ string_of_Z z)%string else string_of_Z z.

(** [ts.strftime('%m/%d/%Y')]. *)
Definition strftime_mdY (t : Timestamp) : string :=
  let c := civil_from_days (date_part t) in
  (pad2 (c_month c) ++ "/" ++ pad2 (c_day c) ++ "/" ++ string_of_Z (c_year c))%string.

(** Midnight of a calendar day, for writing inputs down. *)
Definition ymd (y m d : Z) : Timestamp :=
  (days_from_civil (mkCivil y m d) * NS_PER_DAY)%Z.

Definition ymd_hms (y m d hh mm ss : Z) : Timestamp :=
  (ymd y m d + ((hh * 60 + mm) * 60 + ss) * 1000000000)%Z.

(** ** Numeric cells

    [f"{((base ** ex) - 1) * 100:.2f}%"], computed exactly.  With
    [base = p/q] and [ex = a/b], the integer [m = floor (20000 * base^ex)]
    is the greatest [m] with [m^b * q^a <= 20000^b * p^a]; it is built bit
    by bit.  The value in hundredths of a percent, rounded to nearest, is
    then [floor ((m - 19999) / 2)]. *)

Fixpoint root_bits (ok : Z -> bool) (n : nat) (acc : Z) : Z :=
  match n with
  | O => acc
  | S n' =>
      let cand := (acc + 2 ^ Z.of_nat n')%Z in
      root_bits ok n' (if ok cand then cand else acc)
  end.

Definition scaled_pow_floor (scale : Z) (base ex : Q) : Z :=
  let p := Qnum base in
  let q := Zpos (Qden base) in
  let a := Qnum ex in
  let b := Zpos (Qden ex) in
  let lhs_factor := (q ^ a)%Z in
  let rhs := (scale ^ b * p ^ a)%Z in
  let ok m := (m ^ b * lhs_factor <=? rhs)%Z in
  let nbits :=
    (Z.log2 scale + 1 + (Z.log2 (Z.max 1 p) + 1) * (a / b + 1))%Z in
  root_bits ok (Z.to_nat nbits) 0%Z.

Definition format_2f (negative : bool) (hundredths : Z) : string :=
  let k := Z.abs hundredths in
  ((if negative then "-" else "") ++ string_of_Z (k / 100) ++ "."
     ++ pad2 (k mod 100)%Z)%string.

(** A negative base under a fractional exponent is [nan] in numpy; the
    exponent here is [365.25 / actual_days], never a whole number.  The
    power is taken exactly and rounded to the nearest hundredth: these are
    the digits the host prints unless its float lies on a rounding
    boundary or has overflowed to [inf]. *)
Definition format_pct_pow (base ex : Q) : string :=
  if Qle_bool 0 base then
    let base := Qred base in
    let ex := Qred ex in
    let m := scaled_pow_floor 20000 base ex in
    let hundredths := ((m - 19999) / 2)%Z in
    (format_2f (negb (Qle_bool 1 base)) hundredths ++ "%")%string
  else "nan%"%string.

(** ** The shape of a cell

    What [f"{x:.2f}%"] prints, whatever the float [x]: a numeral with at
    least one digit before the point and two after it, with a minus sign
    or without, or [nan], or [inf]; then the percent sign. *)

Definition is_digit (c : ascii) : bool :=
  Nat.leb 48 (nat_of_ascii c) && Nat.leb (nat_of_ascii c) 57.

Fixpoint all_digits (s : string) : bool :=
  match s with
  | EmptyString => true
  | String c s' => is_digit c && all_digits s'
  end.

(** A point and two digits. *)
Definition is_point_2 (s : string) : bool :=
  match s with
  | String "." (String a (String b EmptyString)) => is_digit a && is_digit b
  | _ => false
  end.

(** One digit or more, and then what [k] accepts. *)
Fixpoint digits_then (k : string -> bool) (s : string) : bool :=
  match s with
  | EmptyString => false
  | String c s' => is_digit c && (k s' || digits_then k s')
  end.

Definition numeral_2f (s : string) : bool :=
  match s with
  | EmptyString => false
  | String c s' =>
      if Ascii.eqb c "-" then digits_then is_point_2 s'
      else digits_then is_point_2 s
  end.

Definition percentage_body (s : string) : bool :=
  String.eqb s "nan" || String.eqb s "inf" || numeral_2f s.

Definition is_percentage (cell : string) : Prop :=
  exists body, cell = (body ++ "%")%string /\ percentage_body body = true.

(** ** Certificates for powers

    Bounds on powers of whole numbers, kept to [PREC] bits: the pair
    [(m, e)] stands for [m * 2^e].  They serve to decide the comparisons of
    [scaled_pow_floor] without writing the powers out. *)

Definition fnum : Type := (Z * Z)%type.

Definition fval (x : fnum) : Z := (fst x * 2 ^ snd x)%Z.

Definition fwf (x : fnum) : Prop := (0 <= fst x /\ 0 <= snd x)%Z.

Definition PREC : Z := 128.

Definition round_down (x : fnum) : fnum :=
  let s := (Z.log2 (fst x) - PREC)%Z in
  if (0 <? s)%Z then (fst x / 2 ^ s, snd x + s)%Z else x.

Definition round_up (x : fnum) : fnum :=
  let s := (Z.log2 (fst x) - PREC)%Z in
  if (0 <? s)%Z then (fst x / 2 ^ s + 1, snd x + s)%Z else x.

Definition fmul (round : fnum -> fnum) (x y : fnum) : fnum :=
  round (fst x * fst y, snd x + snd y)%Z.

Fixpoint pow_bound (round : fnum -> fnum) (x : fnum) (n : positive) : fnum :=
  match n with
  | xH => x
  | xO n' => let h := pow_bound round x n' in fmul round h h
  | xI n' => let h := pow_bound round x n' in fmul round x (fmul round h h)
  end.

Definition fle (x y : fnum) : bool :=
  let e := Z.min (snd x) (snd y) in
  (fst x * 2 ^ (snd x - e) <=? fst y * 2 ^ (snd y - e))%Z.

Definition flt (x y : fnum) : bool :=
  let e := Z.min (snd x) (snd y) in
  (fst x * 2 ^ (snd x - e) <? fst y * 2 ^ (snd y - e))%Z.

(** [x^n * y^k <= u^n * v^k], decided on the bounds. *)
Definition cert_le (x : Z) (n : positive) (y : Z) (k : positive) (u v : Z)
    : bool :=
  fle (fmul round_up (pow_bound round_up (x, 0%Z) n)
                     (pow_bound round_up (y, 0%Z) k))
      (fmul round_down (pow_bound round_down (u, 0%Z) n)
                       (pow_bound round_down (v, 0%Z) k)).

(** [x^n * y^k < u^n * v^k], decided on the bounds. *)
Definition cert_lt (x : Z) (n : positive) (y : Z) (k : positive) (u v : Z)
    : bool :=
  flt (fmul round_up (pow_bound round_up (x, 0%Z) n)
                     (pow_bound round_up (y, 0%Z) k))
      (fmul round_down (pow_bound round_down (u, 0%Z) n)
                       (pow_bound round_down (v, 0%Z) k)).

(** ** Columns, lookups and the small error monad of the [try] block *)

Definition bind {A B : Type} (m : option A) (k : A -> option B) : option B :=
  match m with
  | Some x => k x
  | None => None
  end.

Notation "x <- m ;; k" := (bind m (fun x => k))
  (at level 61, m at next level, right associativity).

Fixpoint mapM {A B : Type} (f : A -> option B) (l : list A) : option (list B) :=
  match l with
  | [] => Some []
  | x :: l' => y <- f x ;; ys <- mapM f l' ;; Some (y :: ys)
  end.

Definition enumerate {A : Type} (l : list A) : list (nat * A) :=
  combine (seq 0 (length l)) l.

(** [s.iloc[i]]; out of range raises [IndexError]. *)
Definition iloc {A : Type} (s : list A) (i : nat) : option A := nth_error s i.

(** Lines 95-117: one entry of [returns]. *)
Definition return_cell (dates : list Timestamp) (series : list (option Q))
    (years : Z) (i : nat) (to_idx : option nat) : option string :=
  match to_idx with
  | Some j =>
      start_val <- iloc series i ;;
      end_val <- iloc series j ;;
      match start_val, end_val with
      | Some s, Some e =>
          if negb (Qeq_bool s 0) then
            let total_return := e / s - 1 in
            date_to <- iloc dates j ;;
            date_from <- iloc dates i ;;
            let actual_days := timedelta_days date_to date_from in
            if (actual_days >? 0)%Z then
              let actual_years := inject_Z actual_days / 365.25 in
              if Qle_bool (inject_Z years * 0.5) actual_years then
                Some (format_pct_pow (1 + total_return) (1 / actual_years))
              else Some ""%string
            else Some ""%string
          else Some ""%string
      | _, _ => Some ""%string
      end
  | None => Some ""%string
  end.

(** Lines 93-117: the body of the [try] block once [series] is known. *)
Definition try_returns (dates : list Timestamp) (to_indices : list (option nat))
    (years : Z) (series : list (option Q)) : option (list string) :=
  mapM (fun it => return_cell dates series years (fst it) (snd it))
       (enumerate to_indices).

(** ** Data frames

    A frame is columnar: the [Date] column and the other columns, each a
    name and its cells, all of the same height.  Cells of the other columns
    are held as the text [astype(str)] gives. *)

Record Frame (D : Type) : Type := mkFrame {
  Date : list D;
  columns : list (string * list string)
}.

Arguments mkFrame {D} _ _.
Arguments Date {D} _.
Arguments columns {D} _.

Definition well_formed {D : Type} (df : Frame D) : Prop :=
  Forall (fun c => length (snd c) = length (Date df)) (columns df).

(** The [Date] column as the caller holds it: text still to be parsed, or
    a datetime already. *)
Inductive date_cell : Type :=
  | DateText (s : string)
  | DateStamp (t : Timestamp).

Definition ResultFrame : Type := list (string * list string).

Inductive message : Type :=
  | WarnShortSpan (years : Z)
  | ColumnError (column : string) (years : Z)
  | RemovedRows (n : nat) (years : Z).

(** [sort_values('Date')]: the permutation that sorts the dates, ties in
    their original order, then [take] on every column. *)
Fixpoint insert_sorted (key : nat -> Z) (i : nat) (l : list nat) : list nat :=
  match l with
  | [] => [i]
  | j :: l' =>
      if (key i <=? key j)%Z then i :: l else j :: insert_sorted key i l'
  end.

Definition argsort (ds : list Timestamp) : list nat :=
  fold_right (insert_sorted (fun i => nth i ds 0%Z)) [] (seq 0 (length ds)).

Definition take {A : Type} (default : A) (order : list nat) (col : list A) : list A :=
  map (fun i => nth i col default) order.

Definition list_min (l : list Z) : option Z :=
  match l with
  | [] => None
  | x :: l' => Some (fold_left Z.min l' x)
  end.

Definition list_max (l : list Z) : option Z :=
  match l with
  | [] => None
  | x :: l' => Some (fold_left Z.max l' x)
  end.

(** [.str.replace(',', '')]. *)
Fixpoint remove_commas (s : string) : string :=
  match s with
  | EmptyString => EmptyString
  | String c s' =>
      if Ascii.eqb c ","%char then remove_commas s' else String c (remove_commas s')
  end.

(** [result_df[valid_rows]] on one column. *)
Fixpoint select_rows {A : Type} (mask : list bool) (col : list A) : list A :=
  match mask, col with
  | b :: mask', x :: col' =>
      if b then x :: select_rows mask' col' else select_rows mask' col'
  | _, _ => []
  end.

Definition count_true (mask : list bool) : nat :=
  length (filter (fun b => b) mask).

(** Lines 68-71. *)
Definition compute_to_indices (dates_array : list Timestamp) (years : Z)
    : list (option nat) :=
  let target_dates := map (DateOffset_years years) dates_array in
  map (fun it => find_closest_trading_day dates_array (snd it) (fst it))
      (enumerate target_dates).

(** Lines 74-79. *)
Definition compute_to_dates (dates : list Timestamp)
    (to_indices : list (option nat)) : list string :=
  map (fun idx =>
         match idx with
         | Some j => strftime_mdY (nth j dates 0%Z)
         | None => ""%string
         end) to_indices.

Definition to_label (years : Z) : string :=
  ("To (" ++ string_of_Z years ++ "Yr)")%string.

Definition column_label (column : string) (years : Z) : string :=
  (" " ++ column ++ " (" ++ string_of_Z years ++ "Yr)")%string.

(** Lines 47-50: the [Date] column once sorted. *)
Definition sorted_dates (parsed : list Timestamp) : list Timestamp :=
  take 0%Z (argsort parsed) parsed.

(** Which rows have an end row: the rows line 129 keeps. *)
Definition matched_mask (to_indices : list (option nat)) : list bool :=
  map (fun idx => match idx with Some _ => true | None => false end) to_indices.

(** Line 47 on the other columns. *)
Definition sort_columns (order : list nat) (cols : list (string * list string))
    : list (string * list string) :=
  map (fun c => (fst c, take ""%string order (snd c))) cols.

(** [result_df[label] = cells]: a column of that name is replaced where
    it stands; a new name is appended on the right. *)
Fixpoint assign (label : string) (cells : list string) (df : ResultFrame)
    : ResultFrame :=
  match df with
  | [] => [(label, cells)]
  | c :: rest =>
      if String.eqb (fst c) label then (label, cells) :: rest
      else c :: assign label cells rest
  end.

(** The assignments of lines 119 and 123, one column after the other. *)
Definition assign_all (vs : ResultFrame) (df : ResultFrame) : ResultFrame :=
  fold_left (fun df v => assign (fst v) (snd v) df) vs df.

(** How many columns of the table bear a name. *)
Definition name_count (name : string) (cols : list (string * list string))
    : nat :=
  length (filter (fun c => String.eqb (fst c) name) cols).

(** Lines 53-58: the warning about a span shorter than the period.  On an
    empty table the span is not a number and nothing is printed. *)
Definition span_warning (dates_array : list Timestamp) (years : Z)
    : list message :=
  match list_min dates_array, list_max dates_array with
  | Some earliest_date, Some latest_date =>
      let min_possible_period :=
        inject_Z (timedelta_days latest_date earliest_date) / 365.25 in
      if Qle_bool (inject_Z years) min_possible_period then []
      else [WarnShortSpan years]
  | _, _ => []
  end.

(** ** The batch runner ([main], lines 149-175)

    Reading the table and writing the report are outside the model; what
    is modelled is what [main] does between the two. *)

(** A cell of the report: [None] is the [NaN] that [pd.concat(axis=1)]
    puts where a shorter frame has no row. *)
Definition ReportFrame : Type := list (string * list (option string)).

Definition height (cols : list (string * list string)) : nat :=
  fold_right (fun c h => Nat.max (length (snd c)) h) 0%nat cols.

(** Line 167: the frames side by side, rows aligned on their position. *)
Definition concat_axis1 (frames : list ResultFrame) : ReportFrame :=
  let cols := concat frames in
  let h := height cols in
  map (fun c =>
         (fst c, map Some (snd c) ++ repeat None (h - length (snd c))))
      cols.

(** Line 170: a column whose name has been seen before is dropped. *)
Fixpoint drop_duplicated {A : Type} (seen : list string)
    (cols : list (string * A)) : list (string * A) :=
  match cols with
  | [] => []
  | c :: rest =>
      if existsb (String.eqb (fst c)) seen then drop_duplicated seen rest
      else c :: drop_duplicated (fst c :: seen) rest
  end.

(** Line 173. *)
Definition header_row (ncols : nat) : list string :=
  "Annualized Return"%string :: repeat ""%string (ncols - 1).

(** Lines 173-175: the header row on top of every column.  [None]: the
    header has more cells than there are columns, and the constructor of
    the header frame raises. *)
Definition with_header (cols : ReportFrame) : option ReportFrame :=
  let header := header_row (length cols) in
  if Nat.eqb (length header) (length cols) then
    Some (map (fun hc => (fst (snd hc), Some (fst hc) :: snd (snd hc)))
              (combine header cols))
  else None.

Definition periods : list Z := [1; 3; 5; 7; 10]%Z.

Inductive outcome : Type :=
  | EmptyInput
  | Failed
  | Saved (report : ReportFrame).

Section Host.

(** pandas' own parsers, one cell at a time: [pd.to_datetime] on a text
    cell ([None]: it raises) and [pd.to_numeric(..., errors='coerce')]
    ([None]: [NaN]). *)
Variable parse_datetime : string -> option Timestamp.
Variable to_numeric : string -> option Q.

Definition to_datetime_cell (c : date_cell) : option Timestamp :=
  match c with
  | DateText s => parse_datetime s
  | DateStamp t => Some t
  end.

Definition to_datetime (col : list date_cell) : option (list Timestamp) :=
  mapM to_datetime_cell col.

(** Line 90. *)
Definition coerce_series (cells : list string) : list (option Q) :=
  map (fun c => to_numeric (remove_commas c)) cells.

(** Lines 88-123 for one column: its cells in the result, and what is
    printed. *)
Definition process_column (dates : list Timestamp)
    (to_indices : list (option nat)) (years : Z)
    (col : string * list string) : list string * list message :=
  match try_returns dates to_indices years (coerce_series (snd col)) with
  | Some returns => (returns, [])
  | None =>
      (repeat ""%string (length dates), [ColumnError (fst col) years])
  end.

(** Lines 84-123 for one column of the table [cols].  [process_column]
    is the [try] block on a column whose name no other column bears.
    When the name is borne by more than one column, [df[column]] is a
    frame and not a series: line 90 raises, and the [except] branch
    answers with empty cells and a message. *)
Definition process_named_column (cols : list (string * list string))
    (dates : list Timestamp) (to_indices : list (option nat)) (years : Z)
    (col : string * list string) : list string * list message :=
  if Nat.ltb 1 (name_count (fst col) cols) then
    (repeat ""%string (length dates), [ColumnError (fst col) years])
  else process_column dates to_indices years col.

(** Lines 47-131: everything after the [Date] column has been parsed.
    [parsed] is that column in the caller's row order. *)
Definition period_result (parsed : list Timestamp)
    (cols : list (string * list string)) (years : Z)
    : list message * ResultFrame :=
  let order := argsort parsed in
  let dates_array := take 0%Z order parsed in
  let sorted_columns := sort_columns order cols in
  let warning := span_warning dates_array years in
  let from := map strftime_mdY dates_array in
  let to_indices := compute_to_indices dates_array years in
  let to_dates := compute_to_dates dates_array to_indices in
  let processed :=
    map (fun c =>
           (fst c,
            process_named_column sorted_columns dates_array to_indices
              years c))
        sorted_columns in
  let result_df :=
    assign_all
      (map (fun cp => (column_label (fst cp) years, fst (snd cp))) processed)
      [("From"%string, from); (to_label years, to_dates)] in
  let errors := concat (map (fun cp => snd (snd cp)) processed) in
  let valid_rows := map (fun s => negb (String.eqb s ""%string)) to_dates in
  if forallb (fun b => b) valid_rows then
    (warning ++ errors, result_df)
  else
    (warning ++ errors
       ++ [RemovedRows (length from - count_true valid_rows) years],
     map (fun c => (fst c, select_rows valid_rows (snd c))) result_df).

(** [calculate_returns_optimized(df, years)].  The answer holds the frame
    the caller's [df] has become (line 46 assigns its [Date] column in
    place; line 47 rebinds the local name only), the messages printed,
    and the frame returned.  [None]: [pd.to_datetime] raised. *)
Definition calculate_returns_optimized (df : Frame date_cell) (years : Z)
    : option (Frame date_cell * list message * ResultFrame) :=
  parsed <- to_datetime (Date df) ;;
  let r := period_result parsed (columns df) years in
  Some (mkFrame (map DateStamp parsed) (columns df), fst r, snd r).

(** Lines 154-161 of [main]: every period is computed on a copy of the
    table, so the table itself is handed on untouched. *)
Definition run_periods (df : Frame date_cell) (periods : list Z)
    : Frame date_cell * option (list ResultFrame) :=
  (df,
   mapM (fun years =>
           r <- calculate_returns_optimized df years ;; Some (snd r))
        periods).

(** [main] from the table it has read to the report it hands to the
    writer.  [Failed]: an exception reached the handler of line 186. *)
Definition main (df : Frame date_cell) : outcome :=
  if Nat.eqb (length (Date df)) 0 then EmptyInput
  else
    match snd (run_periods df periods) with
    | None => Failed
    | Some all_results =>
        match with_header (drop_duplicated [] (concat_axis1 all_results)) with
        | Some final_result_df => Saved final_result_df
        | None => Failed
        end
    end.

End Host.

(** ** Inputs used in the examples *)

(** A reader of plain unsigned decimal numerals, standing in for the
    numeric parser on such cells. *)
Definition decimal_literal (s : string) : option Q :=
  match NilZero.uint_of_string s with
  | Some u => Some (inject_Z (Z.of_uint u))
  | None => None
  end.

Definition no_text_dates (s : string) : option Timestamp := None.

Definition scenario_A_dates : list Timestamp :=
  [ymd 2020 1 1; ymd 2021 1 1; ymd 2022 1 1].

Definition scenario_A_column : string * list string :=
  ("S", ["100"; "110"; "121"])%string.

Definition scenario_A : Frame date_cell :=
  mkFrame (map DateStamp scenario_A_dates) [scenario_A_column].

(** Scenario A with a second column that holds no number at all. *)
Definition notes_column : string * list string :=
  ("Note", ["n/a"; "-"; "1,2x"])%string.

Definition scenario_A_with_notes : Frame date_cell :=
  mkFrame (map DateStamp scenario_A_dates) [scenario_A_column; notes_column].

(** The dates of scenario A, still as text in the first row, and no other
    column. *)
Definition text_dates_only : Frame date_cell :=
  mkFrame [DateText "2020-01-01"; DateStamp (ymd 2021 1 1);
           DateStamp (ymd 2022 1 1)] [].

(** A reader for that one text cell. *)
Definition iso_new_year_2020 (s : string) : option Timestamp :=
  if String.eqb s "2020-01-01" then Some (ymd 2020 1 1) else None.

(** The same frame with the return cells the written scenario A gives. *)
Definition scenario_A_as_specified : ResultFrame :=
  [("From", ["01/01/2020"; "01/01/2021"]);
   ("To (1Yr)", ["01/01/2021"; "01/01/2022"]);
   (" S (1Yr)", ["10.00%"; "10.00%"])]%string.

(** Four observations around a leap day, with times of day. *)
Definition leap_day_stamps : list Timestamp :=
  [ymd_hms 2020 2 28 23 0 0; ymd_hms 2020 2 29 1 0 0;
   ymd_hms 2021 2 28 1 0 0; ymd_hms 2021 2 28 23 0 0].

(** ** Calendar dates, for reasoning about the year shift *)

(** A date of the calendar: a month and a day that exist. *)
Definition valid_civil (c : civil) : Prop :=
  (1 <= c_month c <= 12)%Z /\
  (1 <= c_day c <= days_in_month (c_year c) (c_month c))%Z.

(** Calendar order. *)
Definition civil_lt (c c' : civil) : Prop :=
  (c_year c < c_year c')%Z \/
  (c_year c = c_year c' /\
   ((c_month c < c_month c')%Z \/
    (c_month c = c_month c' /\ (c_day c < c_day c')%Z))).

(** The calendar date [DateOffset(years=n)] lands on. *)
Definition shift_years (years : Z) (c : civil) : civil :=
  let y := (c_year c + years)%Z in
  mkCivil y (c_month c) (Z.min (c_day c) (days_in_month y (c_month c))).



(** The names of a list without those in [seen] and without repeats, in
    the order in which they first appear. *)
Fixpoint distinct_names (seen names : list string) : list string :=
  match names with
  | [] => []
  | n :: rest =>
      if existsb (String.eqb n) seen then distinct_names seen rest
      else n :: distinct_names (n :: seen) rest
  end.

(** A quotient below zero that is neither lost beside 1 nor out of
    range in the floating-point arithmetic of the host: between [-10^15]
    and [-10^-15]. *)
Definition plainly_negative (r : Q) : Prop :=
  - inject_Z 1000000000000000 <= r /\ r <= - (1 # 1000000000000000).

(** ** More inputs used in the examples *)

(** A reader of decimal numerals with an optional minus sign. *)
Definition signed_literal (s : string) : option Q :=
  match s with
  | String "-" s' => option_map Qopp (decimal_literal s')
  | _ => decimal_literal s
  end.

(** Scenario A with the value lost, unchanged, or turned negative after
    the first year. *)
Definition wiped_out_column : string * list string :=
  ("S", ["100"; "0"; "121"])%string.

Definition flat_column : string * list string :=
  ("S", ["100"; "100"; "121"])%string.

Definition sign_change_column : string * list string :=
  ("S", ["100"; "-50"; "121"])%string.

(** Four yearly observations. *)
Definition four_new_years : list Timestamp :=
  [ymd 2020 1 1; ymd 2021 1 1; ymd 2022 1 1; ymd 2023 1 1].

(** Two observations around a leap day, with times of day, and one three
    years later. *)
Definition leap_day_and_three_years_on : list Timestamp :=
  [ymd_hms 2020 2 28 23 0 0; ymd_hms 2020 2 29 1 0 0;
   ymd_hms 2023 2 28 12 0 0].

(** The dates of scenario A and no other column, and the report [main]
    makes of them. *)
Definition dates_only_table : Frame date_cell :=
  mkFrame (map DateStamp scenario_A_dates) [].

Definition dates_only_report : ReportFrame :=
  [("From", [Some "Annualized Return"; Some "01/01/2020"; Some "01/01/2021"]);
   ("To (1Yr)", [Some ""; Some "01/01/2021"; Some "01/01/2022"]);
   ("To (3Yr)", [Some ""; None; None]);
   ("To (5Yr)", [Some ""; None; None]);
   ("To (7Yr)", [Some ""; None; None]);
   ("To (10Yr)", [Some ""; None; None])]%string.

(** * Properties *)

(** ** Positions selected by a mask *)

Lemma where_from_spec (mask : list bool) :
  forall k i,
    In i (where_from k mask) <->
    exists n, i = (k + n)%nat /\ nth_error mask n = Some true.
Proof.
  induction mask as [|b m IH]; intros k i; simpl.
  - split; [tauto | intros [n [_ H]]; destruct n; discriminate].
  - destruct b; simpl; rewrite IH; split.
    + intros [<- | [n [-> H]]].
      * exists 0%nat. split; [lia | reflexivity].
      * exists (S n). split; [lia | exact H].
    + intros [[|n] [-> H]]; [left; lia | right].
      exists n. split; [lia | exact H].
    + intros [n [-> H]]. exists (S n). split; [lia | exact H].
    + intros [[|n] [-> H]]; [discriminate |].
      exists n. split; [lia | exact H].
Qed.

Lemma where_from_nil (mask : list bool) :
  forall k, where_from k mask = [] <-> forall n, nth_error mask n <> Some true.
Proof.
  intros k. split.
  - intros E n H.
    assert (In (k + n)%nat (where_from k mask)) as Hin
      by (apply where_from_spec; eauto).
    rewrite E in Hin. exact Hin.
  - intros H. destruct (where_from k mask) as [|x r] eqn:E; [reflexivity |].
    assert (In x (where_from k mask)) as Hin by (rewrite E; left; reflexivity).
    apply where_from_spec in Hin. destruct Hin as [n [_ Hn]].
    elim (H n Hn).
Qed.

Lemma where_from_hd (mask : list bool) :
  forall k x rest,
    where_from k mask = x :: rest ->
    exists n, x = (k + n)%nat /\ nth_error mask n = Some true /\
              forall n', (n' < n)%nat -> nth_error mask n' = Some false.
Proof.
  induction mask as [|b m IH]; intros k x rest E; simpl in E.
  - discriminate.
  - destruct b.
    + injection E as <- _. exists 0%nat. repeat split; [lia | lia].
    + apply IH in E. destruct E as [n [-> [Hn Hlt]]].
      exists (S n). repeat split; [lia | exact Hn |].
      intros [|n'] Hn'; [reflexivity | apply Hlt; lia].
Qed.

Lemma where_from_last (mask : list bool) :
  forall k,
    where_from k mask <> [] ->
    exists n, last (where_from k mask) 0%nat = (k + n)%nat /\
              nth_error mask n = Some true /\
              forall n', (n < n')%nat -> nth_error mask n' <> Some true.
Proof.
  induction mask as [|b m IH]; intros k Hne; simpl in *.
  - congruence.
  - destruct (where_from (S k) m) as [|y r] eqn:E.
    + destruct b; [| congruence].
      exists 0%nat. repeat split; [simpl; lia |].
      intros [|n'] Hn'; [lia |]. simpl.
      apply (proj1 (where_from_nil m (S k)) E).
    + destruct (IH (S k)) as [n [Hl [Hn Hgt]]]; [rewrite E; discriminate |].
      rewrite E in Hl.
      exists (S n). repeat split.
      * destruct b;
          [change (last (k :: y :: r) 0%nat) with (last (y :: r) 0%nat) |];
          rewrite Hl; lia.
      * exact Hn.
      * intros [|n'] Hn'; [lia |]. simpl. apply Hgt. lia.
Qed.

(** ** Sorted columns *)

Lemma sorted_le_strong (l : list Z) : Sorted Z.le l -> StronglySorted Z.le l.
Proof.
  apply Sorted_StronglySorted. intros x y z. apply Z.le_trans.
Qed.

Lemma strongly_sorted_nth (l : list Z) :
  StronglySorted Z.le l ->
  forall i j a b,
    (i <= j)%nat -> nth_error l i = Some a -> nth_error l j = Some b ->
    (a <= b)%Z.
Proof.
  induction 1 as [|x l Hs IH Hall]; intros i j a b Hij Hi Hj.
  - destruct i; discriminate.
  - destruct i as [|i], j as [|j]; simpl in *.
    + injection Hi as <-. injection Hj as <-. lia.
    + injection Hi as <-. apply nth_error_In in Hj.
      rewrite Forall_forall in Hall. apply Hall. exact Hj.
    + lia.
    + eapply IH; [| eassumption | eassumption]. lia.
Qed.

Lemma sorted_nth (l : list Z) :
  Sorted Z.le l ->
  forall i j a b,
    (i <= j)%nat -> nth_error l i = Some a -> nth_error l j = Some b ->
    (a <= b)%Z.
Proof. intros H. apply strongly_sorted_nth, sorted_le_strong, H. Qed.

Lemma last_nth_error {A : Type} (l : list A) (d : A) :
  l <> [] -> nth_error l (length l - 1) = Some (last l d).
Proof.
  induction l as [|x l IH]; intros Hne; [congruence |].
  destruct l as [|y l]; [reflexivity |].
  change (last (x :: y :: l) d) with (last (y :: l) d).
  rewrite <- IH by discriminate.
  replace (length (x :: y :: l) - 1)%nat with (S (length l)) by (simpl; lia).
  replace (length (y :: l) - 1)%nat with (length l) by (simpl; lia).
  reflexivity.
Qed.

(** ** The aligner, case by case *)

Lemma mask_nth (f : Z -> bool) (l : list Z) (n : nat) (v : bool) :
  nth_error (map f l) n = Some v <->
  exists d, nth_error l n = Some d /\ f d = v.
Proof.
  rewrite nth_error_map. destruct (nth_error l n) as [d|]; simpl; split.
  - intros [= <-]. eauto.
  - intros [d' [[= <-] <-]]. reflexivity.
  - discriminate.
  - intros [d' [H _]]. discriminate.
Qed.

Lemma find_closest_trading_day_cases dates t b :
  locate_cases dates t b (find_closest_trading_day dates t b).
Proof.
  unfold find_closest_trading_day, np_where.
  set (A := skipn b dates).
  assert (HA : forall n, nth_error A n = nth_error dates (b + n))
    by (intros n; apply nth_error_skipn).
  destruct (Nat.eqb_spec (length A) 0) as [Hlen | Hlen].
  { apply Locate_empty. apply length_zero_iff_nil. exact Hlen. }
  assert (Hne : A <> []) by (intros E; rewrite E in Hlen; apply Hlen; reflexivity).
  rewrite Z.gtb_ltb.
  destruct (Z.ltb_spec (last A 0%Z) t) as [Hlast | Hlast].
  { apply Locate_beyond; assumption. }
  destruct (where_from 0 (map (fun d => (d =? t)%Z) A)) as [|x rest] eqn:Ex.
  - simpl.
    assert (Hnot : ~ In t A).
    { intros Hin. apply In_nth_error in Hin. destruct Hin as [n Hn].
      apply (proj1 (where_from_nil _ 0) Ex n).
      apply mask_nth. exists t. split; [exact Hn | apply Z.eqb_refl]. }
    destruct (where_from 0 (map (fun d => (d <? t)%Z) A)) as [|y r] eqn:Ep.
    + simpl. apply Locate_none_before; try assumption.
      intros d Hin Hlt. apply In_nth_error in Hin. destruct Hin as [n Hn].
      apply (proj1 (where_from_nil _ 0) Ep n).
      apply mask_nth. exists d. split; [exact Hn | apply Z.ltb_lt, Hlt].
    + replace (0 <? length (y :: r))%nat with true by reflexivity.
      destruct (where_from_last (map (fun d => (d <? t)%Z) A) 0)
        as [n [Hl [Hn Hgt]]]; [rewrite Ep; discriminate |].
      rewrite Ep in Hl. rewrite Hl. simpl.
      apply mask_nth in Hn. destruct Hn as [d [Hd Hdt]].
      apply Z.ltb_lt in Hdt.
      apply Locate_before with (d := d); try assumption.
      * rewrite <- HA. exact Hd.
      * intros n' d' Hn' Hd' Hlt. apply (Hgt n' Hn').
        apply mask_nth. exists d'. split; [rewrite HA; exact Hd' |].
        apply Z.ltb_lt, Hlt.
  - replace (0 <? length (x :: rest))%nat with true by reflexivity.
    apply where_from_hd in Ex. destruct Ex as [n [-> [Hn Hlt]]].
    simpl. apply mask_nth in Hn. destruct Hn as [d [Hd Hdt]].
    apply Z.eqb_eq in Hdt. subst d.
    apply Locate_exact; try assumption.
    + rewrite <- HA. exact Hd.
    + intros n' Hn' Hd'. specialize (Hlt n' Hn').
      apply mask_nth in Hlt. destruct Hlt as [d [Hd2 Hf]].
      rewrite HA in Hd2. rewrite Hd' in Hd2. injection Hd2 as <-.
      rewrite Z.eqb_refl in Hf. discriminate.
Qed.

Lemma sorted_le_last (dates : list Timestamp) (b : nat) (x : Timestamp) :
  Sorted Z.le dates -> In x (skipn b dates) ->
  (x <= last (skipn b dates) 0)%Z.
Proof.
  intros Hs Hin.
  assert (Hne : skipn b dates <> []) by (intros E; rewrite E in Hin; exact Hin).
  apply In_nth_error in Hin. destruct Hin as [n Hn].
  pose proof (last_nth_error (skipn b dates) 0%Z Hne) as Hl.
  assert (n < length (skipn b dates))%nat as Hlt
    by (apply nth_error_Some; congruence).
  rewrite nth_error_skipn in Hn, Hl.
  eapply (sorted_nth dates Hs); [| exact Hn | exact Hl]. lia.
Qed.

Lemma find_closest_in_range dates t b r :
  find_closest_trading_day dates t b = Some r ->
  (b <= r < length dates)%nat.
Proof.
  intros E. pose proof (find_closest_trading_day_cases dates t b) as H.
  rewrite E in H.
  assert (forall n d, r = (b + n)%nat -> nth_error dates (b + n) = Some d ->
                      (b <= r < length dates)%nat) as Hk.
  { intros n d -> Hn. split; [lia | apply nth_error_Some; congruence]. }
  inversion H as [| | n _ Hn _ | n d _ _ Hn _ _ |]; eapply Hk; eauto.
Qed.

(** C1 (alignment exactness).  On a sorted date column, a target that
    occurs in the slice [dates[b:]] is located at its first occurrence in
    the slice, an index at or after [b]. *)
Theorem locate_exact_first_occurrence
    (dates : list Timestamp) (t : Timestamp) (b : nat) :
  Sorted Z.le dates ->
  In t (skipn b dates) ->
  exists r,
    find_closest_trading_day dates t b = Some r /\
    (b <= r)%nat /\
    nth_error dates r = Some t /\
    forall k, (b <= k < r)%nat -> nth_error dates k <> Some t.
Proof.
  intros Hs Hin.
  pose proof (sorted_le_last dates b t Hs Hin) as Hlast.
  pose proof (find_closest_trading_day_cases dates t b) as H.
  inversion H as [E | _ Hb | n _ Hn Hfirst | n d _ Hnot | _ _ Hnot _].
  - rewrite E in Hin. elim Hin.
  - lia.
  - exists (b + n)%nat. repeat split; [lia | exact Hn |].
    intros k Hk. replace k with (b + (k - b))%nat by lia.
    apply Hfirst. lia.
  - elim (Hnot Hin).
  - elim (Hnot Hin).
Qed.

Lemma locate_exact_first_occurrence_witness :
  Sorted Z.le [1; 2; 2; 5]%Z /\
  In 2%Z (skipn 1 [1; 2; 2; 5]%Z) /\
  exists r,
    find_closest_trading_day [1; 2; 2; 5]%Z 2%Z 1 = Some r /\
    (1 <= r)%nat /\
    nth_error [1; 2; 2; 5]%Z r = Some 2%Z /\
    forall k, (1 <= k < r)%nat -> nth_error [1; 2; 2; 5]%Z k <> Some 2%Z.
Proof.
  assert (Hs : Sorted Z.le [1; 2; 2; 5]%Z) by (repeat constructor; lia).
  assert (Hin : In 2%Z (skipn 1 [1; 2; 2; 5]%Z)) by (simpl; tauto).
  split; [exact Hs | split; [exact Hin |]].
  apply (locate_exact_first_occurrence _ _ 1%nat Hs Hin).
Defined.

(** C2 (alignment monotonicity).  On a sorted date column and for a
    target that does not occur in the slice [dates[b:]]: the aligner
    answers unmatched exactly when the slice is empty, or the target lies
    strictly beyond the last date of the slice, or no date of the slice is
    strictly before the target; otherwise it answers the index of the
    greatest date of the slice strictly before the target.  The date it
    answers is never after the target. *)
Theorem locate_absent_greatest_before
    (dates : list Timestamp) (t : Timestamp) (b : nat) :
  Sorted Z.le dates ->
  ~ In t (skipn b dates) ->
  (find_closest_trading_day dates t b = None <->
     skipn b dates = [] \/
     (skipn b dates <> [] /\ (last (skipn b dates) 0 < t)%Z) \/
     (forall x, In x (skipn b dates) -> ~ (x < t)%Z)) /\
  (forall r,
     find_closest_trading_day dates t b = Some r ->
     exists d,
       (b <= r)%nat /\ nth_error dates r = Some d /\ (d < t)%Z /\
       forall k dk,
         (b <= k)%nat -> nth_error dates k = Some dk -> (dk < t)%Z ->
         (k <= r)%nat /\ (dk <= d)%Z).
Proof.
  intros Hs Hnot.
  pose proof (find_closest_trading_day_cases dates t b) as H.
  inversion H as [E | Hne Hb | n _ Hn _ | n d Hle _ Hn Hd Hafter
                  | Hne Hle _ Hnone]; split.
  - tauto.
  - discriminate.
  - tauto.
  - discriminate.
  - elim Hnot. rewrite <- nth_error_skipn in Hn.
    eapply nth_error_In, Hn.
  - elim Hnot. rewrite <- nth_error_skipn in Hn.
    eapply nth_error_In, Hn.
  - split; [discriminate |].
    assert (Hin : In d (skipn b dates))
      by (rewrite <- nth_error_skipn in Hn; eapply nth_error_In, Hn).
    intros [E | [[_ Hb] | Hnone]].
    + rewrite E in Hin. elim Hin.
    + lia.
    + elim (Hnone d Hin Hd).
  - intros r [= <-]. exists d. repeat split; [lia | exact Hn | exact Hd | |].
    + destruct (Nat.le_gt_cases k (b + n)) as [Hk | Hk]; [exact Hk |].
      exfalso. apply (Hafter (k - b)%nat dk); [lia | | assumption].
      replace (b + (k - b))%nat with k by lia. assumption.
    + destruct (Nat.le_gt_cases k (b + n)) as [Hk | Hk].
      * eapply (sorted_nth dates Hs); eassumption.
      * exfalso. apply (Hafter (k - b)%nat dk); [lia | | assumption].
        replace (b + (k - b))%nat with k by lia. assumption.
  - tauto.
  - discriminate.
Qed.

Lemma locate_absent_greatest_before_witness :
  Sorted Z.le [1; 3; 3; 8]%Z /\
  ~ In 5%Z (skipn 1 [1; 3; 3; 8]%Z) /\
  (find_closest_trading_day [1; 3; 3; 8]%Z 5%Z 1 = None <->
     skipn 1 [1; 3; 3; 8]%Z = [] \/
     (skipn 1 [1; 3; 3; 8]%Z <> [] /\
      (last (skipn 1 [1; 3; 3; 8]%Z) 0 < 5)%Z) \/
     (forall x, In x (skipn 1 [1; 3; 3; 8]%Z) -> ~ (x < 5)%Z)) /\
  (forall r,
     find_closest_trading_day [1; 3; 3; 8]%Z 5%Z 1 = Some r ->
     exists d,
       (1 <= r)%nat /\ nth_error [1; 3; 3; 8]%Z r = Some d /\ (d < 5)%Z /\
       forall k dk,
         (1 <= k)%nat -> nth_error [1; 3; 3; 8]%Z k = Some dk -> (dk < 5)%Z ->
         (k <= r)%nat /\ (dk <= d)%Z).
Proof.
  assert (Hs : Sorted Z.le [1; 3; 3; 8]%Z) by (repeat constructor; lia).
  assert (Hn : ~ In 5%Z (skipn 1 [1; 3; 3; 8]%Z)) by (simpl; lia).
  split; [exact Hs | split; [exact Hn |]].
  apply (locate_absent_greatest_before _ _ 1%nat Hs Hn).
Defined.

(** C8 (lower-bound respect).  Whatever the column, the target and the
    lower bound, an index answered by the aligner lies at or after the
    lower bound (and inside the column), and an empty slice is answered
    unmatched. *)
Theorem locate_respects_lower_bound
    (dates : list Timestamp) (t : Timestamp) (b : nat) :
  (forall r, find_closest_trading_day dates t b = Some r ->
             (b <= r < length dates)%nat) /\
  (skipn b dates = [] -> find_closest_trading_day dates t b = None).
Proof.
  split.
  - intros r. apply find_closest_in_range.
  - intros E. unfold find_closest_trading_day. rewrite E. reflexivity.
Qed.

(** ** End indices across rows *)

Lemma nth_error_combine_seq {A : Type} (l : list A) :
  forall k i,
    nth_error (combine (seq k (length l)) l) i =
    option_map (fun x => ((k + i)%nat, x)) (nth_error l i).
Proof.
  induction l as [|x l IH]; intros k i; simpl.
  - destruct i; reflexivity.
  - destruct i as [|i]; simpl.
    + rewrite Nat.add_0_r. reflexivity.
    + rewrite IH. replace (S k + i)%nat with (k + S i)%nat by lia.
      reflexivity.
Qed.

Lemma nth_error_enumerate {A : Type} (l : list A) (i : nat) :
  nth_error (enumerate l) i = option_map (fun x => (i, x)) (nth_error l i).
Proof. unfold enumerate. apply nth_error_combine_seq. Qed.

Lemma length_enumerate {A : Type} (l : list A) : length (enumerate l) = length l.
Proof.
  unfold enumerate. rewrite length_combine, length_seq. apply Nat.min_id.
Qed.

Lemma nth_error_compute_to_indices dates years i :
  nth_error (compute_to_indices dates years) i =
  option_map (fun d => find_closest_trading_day dates (DateOffset_years years d) i)
             (nth_error dates i).
Proof.
  unfold compute_to_indices.
  rewrite nth_error_map, nth_error_enumerate, nth_error_map.
  destruct (nth_error dates i); reflexivity.
Qed.

Lemma length_compute_to_indices dates years :
  length (compute_to_indices dates years) = length dates.
Proof.
  unfold compute_to_indices.
  rewrite length_map, length_enumerate, length_map. reflexivity.
Qed.

Lemma locate_monotone dates t t' b b' j j' :
  Sorted Z.le dates ->
  (b <= b')%nat -> (t <= t')%Z ->
  find_closest_trading_day dates t b = Some j ->
  find_closest_trading_day dates t' b' = Some j' ->
  (j <= j')%nat.
Proof.
  intros Hs Hb Ht E E'.
  pose proof (find_closest_in_range _ _ _ _ E) as Hr.
  pose proof (find_closest_in_range _ _ _ _ E') as Hr'.
  destruct (Nat.le_gt_cases j j') as [Hle | Hgt]; [exact Hle | exfalso].
  pose proof (find_closest_trading_day_cases dates t b) as H.
  pose proof (find_closest_trading_day_cases dates t' b') as H'.
  rewrite E in H. rewrite E' in H'.
  inversion H as [| | n _ Hn Hfirst | n d _ Hnot Hn Hd Hafter |];
  inversion H' as [| | n' _ Hn' Hfirst' | n' d' _ Hnot' Hn' Hd' Hafter' |];
  subst j j'.
  - assert (t' <= t)%Z as Hge
      by (eapply (sorted_nth dates Hs); [| exact Hn' | exact Hn]; lia).
    assert (t' = t) by lia. subst t'.
    apply (Hfirst (b' + n' - b)%nat); [lia |].
    replace (b + (b' + n' - b))%nat with (b' + n')%nat by lia. exact Hn'.
  - destruct (Z.eq_dec t t') as [-> | Hneq].
    + apply Hnot'.
      assert (nth_error (skipn b' dates) (b + n - b') = Some t') as Hin.
      { rewrite nth_error_skipn.
        replace (b' + (b + n - b'))%nat with (b + n)%nat by lia.
        exact Hn. }
      eapply nth_error_In, Hin.
    + apply (Hafter' (b + n - b')%nat t); [lia | | lia].
      replace (b' + (b + n - b'))%nat with (b + n)%nat by lia. exact Hn.
  - assert (t' <= d)%Z as Hge
      by (eapply (sorted_nth dates Hs); [| exact Hn' | exact Hn]; lia).
    lia.
  - apply (Hafter' (b + n - b')%nat d); [lia | | lia].
    replace (b' + (b + n - b'))%nat with (b + n)%nat by lia. exact Hn.
Qed.

(** C10 (monotone end indices), as amended.  On a sorted date column, for
    two rows [i < i'] whose year-shifted targets are in order, the matched
    end index of the later row is not before that of the earlier row. *)
Theorem end_indices_monotone
    (dates : list Timestamp) (years : Z) (i i' j j' : nat) (d d' : Timestamp) :
  Sorted Z.le dates ->
  (i < i')%nat ->
  nth_error dates i = Some d ->
  nth_error dates i' = Some d' ->
  (DateOffset_years years d <= DateOffset_years years d')%Z ->
  nth_error (compute_to_indices dates years) i = Some (Some j) ->
  nth_error (compute_to_indices dates years) i' = Some (Some j') ->
  (j <= j')%nat.
Proof.
  intros Hs Hlt Hd Hd' Ht Hj Hj'.
  rewrite nth_error_compute_to_indices in Hj, Hj'.
  rewrite Hd in Hj. rewrite Hd' in Hj'. simpl in Hj, Hj'.
  injection Hj as Hj. injection Hj' as Hj'.
  eapply (locate_monotone dates); [exact Hs | | exact Ht | exact Hj | exact Hj'].
  lia.
Qed.

Lemma end_indices_monotone_witness :
  Sorted Z.le [ymd 2020 1 1; ymd 2021 1 1; ymd 2022 1 1] /\
  (0 < 1)%nat /\
  nth_error [ymd 2020 1 1; ymd 2021 1 1; ymd 2022 1 1] 0 = Some (ymd 2020 1 1) /\
  nth_error [ymd 2020 1 1; ymd 2021 1 1; ymd 2022 1 1] 1 = Some (ymd 2021 1 1) /\
  (DateOffset_years 1 (ymd 2020 1 1) <= DateOffset_years 1 (ymd 2021 1 1))%Z /\
  nth_error (compute_to_indices [ymd 2020 1 1; ymd 2021 1 1; ymd 2022 1 1] 1) 0
    = Some (Some 1%nat) /\
  nth_error (compute_to_indices [ymd 2020 1 1; ymd 2021 1 1; ymd 2022 1 1] 1) 1
    = Some (Some 2%nat) /\
  (1 <= 2)%nat.
Proof.
  assert (Hs : Sorted Z.le [ymd 2020 1 1; ymd 2021 1 1; ymd 2022 1 1])
    by (repeat constructor; vm_compute; discriminate).
  assert (Ht : (DateOffset_years 1 (ymd 2020 1 1)
                <= DateOffset_years 1 (ymd 2021 1 1))%Z)
    by (vm_compute; discriminate).
  repeat (split; [first [exact Hs | exact Ht | lia | reflexivity] |]).
  exact (end_indices_monotone
           [ymd 2020 1 1; ymd 2021 1 1; ymd 2022 1 1] 1 0 1 1 2
           (ymd 2020 1 1) (ymd 2021 1 1)
           Hs (Nat.lt_0_1) eq_refl eq_refl Ht eq_refl eq_refl).
Defined.

(** C10 as first stated fails: with times of day, the year shift sends
    2020-02-28 23:00 and 2020-02-29 01:00 to one calendar day in reverse
    order, and the later row is matched to the earlier end row. *)
Lemma end_indices_not_monotone :
  ~ (forall (dates : list Timestamp) (years : Z) (i i' j j' : nat),
       Sorted Z.le dates ->
       (i < i')%nat ->
       nth_error (compute_to_indices dates years) i = Some (Some j) ->
       nth_error (compute_to_indices dates years) i' = Some (Some j') ->
       (j <= j')%nat).
Proof.
  intros H.
  assert (Hs : Sorted Z.le leap_day_stamps)
    by (repeat constructor; vm_compute; discriminate).
  specialize (H leap_day_stamps 1%Z 0%nat 1%nat 3%nat 2%nat Hs Nat.lt_0_1
                eq_refl eq_refl).
  lia.
Qed.

(** ** The [try] block of one column *)

Lemma mapM_nth_error {A B : Type} (f : A -> option B) (l : list A) :
  forall ys,
    mapM f l = Some ys ->
    length ys = length l /\
    forall i x, nth_error l i = Some x ->
                exists y, f x = Some y /\ nth_error ys i = Some y.
Proof.
  induction l as [|a l IH]; intros ys E; simpl in E.
  - injection E as <-. split; [reflexivity |]. intros [|i] x H; discriminate.
  - destruct (f a) as [y|] eqn:Ea; simpl in E; [| discriminate].
    destruct (mapM f l) as [ys'|] eqn:El; simpl in E; [| discriminate].
    injection E as <-. destruct (IH ys' eq_refl) as [Hlen Hnth].
    split; [simpl; congruence |].
    intros [|i] x H; simpl in *.
    + injection H as <-. eauto.
    + apply Hnth, H.
Qed.

Lemma mapM_total {A B : Type} (f : A -> option B) (l : list A) :
  (forall x, In x l -> f x <> None) -> exists ys, mapM f l = Some ys.
Proof.
  induction l as [|a l IH]; intros H; simpl.
  - eauto.
  - destruct (f a) as [y|] eqn:Ea; [| elim (H a (or_introl eq_refl) Ea)].
    destruct IH as [ys Hys]; [intros x Hx; apply H; right; exact Hx |].
    rewrite Hys. simpl. eauto.
Qed.

Lemma try_returns_nth dates to_indices years series returns :
  try_returns dates to_indices years series = Some returns ->
  length returns = length to_indices /\
  forall i to_idx,
    nth_error to_indices i = Some to_idx ->
    exists c, return_cell dates series years i to_idx = Some c /\
              nth_error returns i = Some c.
Proof.
  unfold try_returns. intros E.
  apply mapM_nth_error in E. destruct E as [Hlen Hnth].
  rewrite length_enumerate in Hlen. split; [exact Hlen |].
  intros i to_idx Hi.
  destruct (Hnth i (i, to_idx)) as [c Hc].
  - rewrite nth_error_enumerate, Hi. reflexivity.
  - exists c. exact Hc.
Qed.

Lemma return_cell_total dates series years i to_idx :
  length series = length dates ->
  (i < length dates)%nat ->
  (forall j, to_idx = Some j -> (j < length dates)%nat) ->
  return_cell dates series years i to_idx <> None.
Proof.
  intros Hlen Hi Hj. unfold return_cell, iloc.
  destruct to_idx as [j|]; [| discriminate].
  specialize (Hj j eq_refl).
  destruct (nth_error series i) as [sv|] eqn:Esi;
    [| apply nth_error_None in Esi; lia].
  destruct (nth_error series j) as [ev|] eqn:Esj;
    [| apply nth_error_None in Esj; lia].
  destruct (nth_error dates j) as [dj|] eqn:Edj;
    [| apply nth_error_None in Edj; lia].
  destruct (nth_error dates i) as [di|] eqn:Edi;
    [| apply nth_error_None in Edi; lia].
  simpl. destruct sv as [s|], ev as [e|]; try discriminate.
  destruct (negb (Qeq_bool s 0)); [| discriminate]. simpl.
  destruct (timedelta_days dj di >? 0)%Z; [| discriminate].
  match goal with |- context [Qle_bool ?a ?b] => destruct (Qle_bool a b) end;
    discriminate.
Qed.

Lemma try_returns_total dates years series :
  length series = length dates ->
  exists returns,
    try_returns dates (compute_to_indices dates years) years series
    = Some returns.
Proof.
  intros Hlen. unfold try_returns. apply mapM_total.
  intros [i to_idx] Hin. simpl.
  apply In_nth_error in Hin. destruct Hin as [k Hk].
  rewrite nth_error_enumerate in Hk.
  destruct (nth_error (compute_to_indices dates years) k) as [v|] eqn:Ek;
    [| discriminate].
  simpl in Hk. injection Hk as <- <-.
  assert (k < length dates)%nat as Hklt.
  { rewrite <- (length_compute_to_indices dates years).
    apply nth_error_Some. congruence. }
  apply return_cell_total; [exact Hlen | exact Hklt |].
  intros j ->. rewrite nth_error_compute_to_indices in Ek.
  destruct (nth_error dates k) as [d|]; [| discriminate].
  simpl in Ek. injection Ek as Ek.
  apply find_closest_in_range in Ek. lia.
Qed.

Lemma length_coerce_series to_numeric cells :
  length (coerce_series to_numeric cells) = length cells.
Proof. unfold coerce_series. apply length_map. Qed.


Lemma append_percent_nonempty (body : string) :
  (body ++ "%")%string <> ""%string.
Proof. destruct body; discriminate. Qed.

(** *** The shape of a formatted cell *)

Lemma is_digit_not_minus (c : ascii) :
  is_digit c = true -> Ascii.eqb c "-" = false.
Proof.
  intros H. destruct (Ascii.eqb_spec c "-"%char) as [-> | _];
    [discriminate H | reflexivity].
Qed.

Lemma string_of_uint_digits (d : Decimal.uint) :
  all_digits (NilEmpty.string_of_uint d) = true.
Proof. induction d; simpl; try reflexivity; exact IHd. Qed.

Lemma string_of_Z_digits (z : Z) :
  (0 <= z)%Z ->
  exists c ds,
    string_of_Z z = String c ds /\ is_digit c = true /\ all_digits ds = true.
Proof.
  intros Hz. unfold string_of_Z.
  assert (exists d, Z.to_int z = Decimal.Pos d) as [d ->]
    by (destruct z; simpl; [eauto | eauto | lia]).
  unfold NilZero.string_of_int, NilZero.string_of_uint.
  pose proof (string_of_uint_digits d) as Hd.
  destruct d; simpl in *;
    (eexists; eexists; split; [reflexivity |];
         split; [reflexivity | exact Hd]).
Qed.

Lemma pad2_two_digits (r : Z) :
  (0 <= r < 100)%Z -> is_point_2 ("." ++ pad2 r) = true.
Proof.
  intros Hr.
  assert (forallb (fun n => is_point_2 ("." ++ pad2 (Z.of_nat n)))
                  (seq 0 100) = true) as Hall by (vm_compute; reflexivity).
  rewrite forallb_forall in Hall.
  rewrite <- (Z2Nat.id r) by lia. apply Hall. apply in_seq. lia.
Qed.

Lemma digits_then_append (k : string -> bool) (rest : string) :
  k rest = true ->
  forall ds c,
    is_digit c = true -> all_digits ds = true ->
    digits_then k (String c ds ++ rest) = true.
Proof.
  intros Hk. induction ds as [|d ds IH]; intros c Hc Hds; simpl.
  - rewrite Hc, Hk. reflexivity.
  - simpl in Hds. apply andb_prop in Hds. destruct Hds as [Hd Hds].
    rewrite Hc. specialize (IH d Hd Hds). simpl in IH. rewrite IH.
    apply orb_true_r.
Qed.

Lemma format_2f_shape (negative : bool) (hundredths : Z) :
  numeral_2f (format_2f negative hundredths) = true.
Proof.
  unfold format_2f.
  set (k := Z.abs hundredths).
  assert (0 <= k)%Z as Hk by apply Z.abs_nonneg.
  destruct (string_of_Z_digits (k / 100)) as [c [ds [E [Hc Hds]]]];
    [apply Z.div_pos; lia |].
  pose proof (pad2_two_digits (k mod 100)
                (Z.mod_pos_bound k 100 ltac:(lia))) as Hp.
  rewrite E.
  pose proof (digits_then_append is_point_2 _ Hp ds c Hc Hds) as Hd.
  destruct negative; simpl.
  - exact Hd.
  - rewrite (is_digit_not_minus c Hc). exact Hd.
Qed.

Lemma format_pct_pow_shape base ex : is_percentage (format_pct_pow base ex).
Proof.
  unfold format_pct_pow, is_percentage. destruct (Qle_bool 0 base).
  - eexists. split; [reflexivity |].
    unfold percentage_body. rewrite format_2f_shape.
    apply orb_true_r.
  - exists "nan"%string. split; reflexivity.
Qed.

Lemma is_percentage_nonempty cell : is_percentage cell -> cell <> ""%string.
Proof.
  intros [body [-> _]]. apply append_percent_nonempty.
Qed.

Lemma return_cell_guard dates series years i j c :
  return_cell dates series years i (Some j) = Some c ->
  nth_error series i = Some None \/
  nth_error series j = Some None \/
  (exists s, nth_error series i = Some (Some s) /\ s == 0) \/
  (timedelta_days (nth j dates 0%Z) (nth i dates 0%Z) <= 0)%Z ->
  c = ""%string.
Proof.
  unfold return_cell, iloc. intros E H.
  destruct (nth_error series i) as [sv|] eqn:Esi; simpl in E; [| discriminate].
  destruct (nth_error series j) as [ev|] eqn:Esj; simpl in E; [| discriminate].
  destruct sv as [s|]; [| congruence].
  destruct ev as [e|]; [| congruence].
  destruct (Qeq_bool s 0) eqn:Ez; simpl in E; [congruence |].
  destruct (nth_error dates j) as [dj|] eqn:Edj; simpl in E; [| discriminate].
  destruct (nth_error dates i) as [di|] eqn:Edi; simpl in E; [| discriminate].
  destruct H as [H | [H | [[s' [H Hz]] | H]]]; try discriminate.
  - injection H as <-. apply Qeq_bool_neq in Ez. elim (Ez Hz).
  - rewrite (nth_error_nth _ _ 0%Z Edj), (nth_error_nth _ _ 0%Z Edi) in H.
    destruct (Z.gtb_spec (timedelta_days dj di) 0); [lia | congruence].
Qed.

(** C5 (empty cells).  For a row [i] matched to the end row [j]: when the
    start value is missing, or the end value is missing, or the start
    value is 0, or the elapsed days from row [i] to row [j] are not
    positive, the cell of that row in the column is empty. *)
Theorem missing_or_invalid_cell_is_empty
    (to_numeric : string -> option Q) (dates : list Timestamp)
    (to_indices : list (option nat)) (years : Z)
    (col : string * list string) (i j : nat) :
  length to_indices = length dates ->
  nth_error to_indices i = Some (Some j) ->
  nth_error (coerce_series to_numeric (snd col)) i = Some None \/
  nth_error (coerce_series to_numeric (snd col)) j = Some None \/
  (exists s, nth_error (coerce_series to_numeric (snd col)) i = Some (Some s)
             /\ s == 0) \/
  (timedelta_days (nth j dates 0%Z) (nth i dates 0%Z) <= 0)%Z ->
  nth_error (fst (process_column to_numeric dates to_indices years col)) i
  = Some ""%string.
Proof.
  intros Hlen Hi H. unfold process_column.
  destruct (try_returns dates to_indices years
              (coerce_series to_numeric (snd col))) as [returns|] eqn:E; simpl.
  - apply try_returns_nth in E. destruct E as [_ Hnth].
    destruct (Hnth i (Some j) Hi) as [c [Hc Hr]].
    rewrite Hr. f_equal. eapply return_cell_guard; eassumption.
  - apply nth_error_repeat. rewrite <- Hlen.
    apply nth_error_Some. congruence.
Qed.

Lemma missing_or_invalid_cell_is_empty_witness :
  length [Some 1%nat; None] = length [ymd 2020 1 1; ymd 2021 1 1] /\
  nth_error [Some 1%nat; None] 0 = Some (Some 1%nat) /\
  (nth_error (coerce_series decimal_literal (snd ("S", ["0"; "100"])%string)) 0
     = Some None \/
   nth_error (coerce_series decimal_literal (snd ("S", ["0"; "100"])%string)) 1
     = Some None \/
   (exists s,
      nth_error (coerce_series decimal_literal (snd ("S", ["0"; "100"])%string)) 0
        = Some (Some s) /\ s == 0) \/
   (timedelta_days (nth 1 [ymd 2020 1 1; ymd 2021 1 1] 0%Z)
                   (nth 0 [ymd 2020 1 1; ymd 2021 1 1] 0%Z) <= 0)%Z) /\
  nth_error
    (fst (process_column decimal_literal [ymd 2020 1 1; ymd 2021 1 1]
            [Some 1%nat; None] 1 ("S", ["0"; "100"])%string)) 0
  = Some ""%string.
Proof.
  assert (H : nth_error (coerce_series decimal_literal
                           (snd ("S", ["0"; "100"])%string)) 0 = Some None \/
              nth_error (coerce_series decimal_literal
                           (snd ("S", ["0"; "100"])%string)) 1 = Some None \/
              (exists s,
                 nth_error (coerce_series decimal_literal
                              (snd ("S", ["0"; "100"])%string)) 0
                   = Some (Some s) /\ s == 0) \/
              (timedelta_days (nth 1 [ymd 2020 1 1; ymd 2021 1 1] 0%Z)
                              (nth 0 [ymd 2020 1 1; ymd 2021 1 1] 0%Z) <= 0)%Z).
  { right. right. left. exists 0. split; reflexivity. }
  split; [reflexivity | split; [reflexivity | split; [exact H |]]].
  exact (missing_or_invalid_cell_is_empty decimal_literal
           [ymd 2020 1 1; ymd 2021 1 1] [Some 1%nat; None] 1
           ("S", ["0"; "100"])%string 0 1 eq_refl eq_refl H).
Defined.

(** C4 (minimum-window guard).  For a matched row with both endpoint
    values present, a start value other than 0 and positive elapsed days,
    the cell is empty exactly when [actual_days / 365.25] is strictly below
    [years * 0.5]; at or above it the cell is a formatted percentage: a
    numeral with two decimals (or [nan], or [inf]) followed by a percent
    sign. *)
Theorem minimum_window_guard
    (to_numeric : string -> option Q) (dates : list Timestamp) (years : Z)
    (col : string * list string) (i j : nat) (s e : Q) :
  length (snd col) = length dates ->
  nth_error (compute_to_indices dates years) i = Some (Some j) ->
  nth_error (coerce_series to_numeric (snd col)) i = Some (Some s) ->
  nth_error (coerce_series to_numeric (snd col)) j = Some (Some e) ->
  ~ s == 0 ->
  (0 < timedelta_days (nth j dates 0%Z) (nth i dates 0%Z))%Z ->
  let actual_years :=
    inject_Z (timedelta_days (nth j dates 0%Z) (nth i dates 0%Z)) / 365.25 in
  exists cell,
    nth_error
      (fst (process_column to_numeric dates (compute_to_indices dates years)
              years col)) i = Some cell /\
    (cell = ""%string <-> actual_years < inject_Z years * 0.5) /\
    (inject_Z years * 0.5 <= actual_years -> is_percentage cell).
Proof.
  intros Hlen Hi Hs He Hnz Hdays actual_years. unfold process_column.
  destruct (try_returns_total dates years (coerce_series to_numeric (snd col)))
    as [returns E]; [rewrite length_coerce_series; exact Hlen |].
  rewrite E. simpl.
  apply try_returns_nth in E. destruct E as [_ Hnth].
  destruct (Hnth i (Some j) Hi) as [c [Hc Hr]].
  exists c. split; [exact Hr |].
  unfold return_cell, iloc in Hc. rewrite Hs, He in Hc. simpl in Hc.
  destruct (Qeq_bool s 0) eqn:Ez; [apply Qeq_bool_eq in Ez; elim (Hnz Ez) |].
  simpl in Hc.
  destruct (nth_error dates j) as [dj|] eqn:Edj; simpl in Hc; [| discriminate].
  destruct (nth_error dates i) as [di|] eqn:Edi; simpl in Hc; [| discriminate].
  subst actual_years.
  rewrite (nth_error_nth _ _ 0%Z Edj), (nth_error_nth _ _ 0%Z Edi) in *.
  destruct (Z.gtb_spec (timedelta_days dj di) 0) as [_ | Hle]; [| lia].
  destruct (Qle_bool (inject_Z years * 0.5)
                     (inject_Z (timedelta_days dj di) / 365.25)) eqn:Eg;
    injection Hc as <-.
  - apply Qle_bool_iff in Eg.
    pose proof (format_pct_pow_shape (1 + (e / s - 1))
                  (1 / (inject_Z (timedelta_days dj di) / 365.25))) as Hshape.
    split; [| intros _; exact Hshape].
    split.
    + intros Habs. elim (is_percentage_nonempty _ Hshape Habs).
    + intros Hlt. elim (Qlt_not_le _ _ Hlt Eg).
  - assert (inject_Z (timedelta_days dj di) / 365.25 < inject_Z years * 0.5)
      as Hlt.
    { apply Qnot_le_lt. intros Hge. apply Qle_bool_iff in Hge. congruence. }
    split; [tauto |].
    intros Hge. elim (Qlt_not_le _ _ Hlt Hge).
Qed.

Lemma minimum_window_guard_witness :
  length (snd scenario_A_column) = length scenario_A_dates /\
  nth_error (compute_to_indices scenario_A_dates 1) 0 = Some (Some 1%nat) /\
  nth_error (coerce_series decimal_literal (snd scenario_A_column)) 0
    = Some (Some (inject_Z 100)) /\
  nth_error (coerce_series decimal_literal (snd scenario_A_column)) 1
    = Some (Some (inject_Z 110)) /\
  ~ inject_Z 100 == 0 /\
  (0 < timedelta_days (nth 1 scenario_A_dates 0%Z)
                      (nth 0 scenario_A_dates 0%Z))%Z /\
  exists cell,
    nth_error
      (fst (process_column decimal_literal scenario_A_dates
              (compute_to_indices scenario_A_dates 1) 1 scenario_A_column)) 0
      = Some cell /\
    (cell = ""%string <->
     inject_Z (timedelta_days (nth 1 scenario_A_dates 0%Z)
                              (nth 0 scenario_A_dates 0%Z)) / 365.25
     < inject_Z 1 * 0.5) /\
    (inject_Z 1 * 0.5 <=
     inject_Z (timedelta_days (nth 1 scenario_A_dates 0%Z)
                              (nth 0 scenario_A_dates 0%Z)) / 365.25 ->
     is_percentage cell).
Proof.
  assert (Hnz : ~ inject_Z 100 == 0) by (intros H; discriminate H).
  assert (Hd : (0 < timedelta_days (nth 1 scenario_A_dates 0%Z)
                                   (nth 0 scenario_A_dates 0%Z))%Z)
    by (vm_compute; reflexivity).
  repeat (split; [first [reflexivity | exact Hnz | exact Hd] |]).
  exact (minimum_window_guard decimal_literal scenario_A_dates 1
           scenario_A_column 0 1 (inject_Z 100) (inject_Z 110)
           eq_refl eq_refl eq_refl eq_refl Hnz Hd).
Defined.

(** ** The period computation and the host parsers *)

Lemma to_datetime_stamps parse_datetime (ts : list Timestamp) :
  to_datetime parse_datetime (map DateStamp ts) = Some ts.
Proof.
  unfold to_datetime. induction ts as [|t ts IH]; simpl; [reflexivity |].
  rewrite IH. reflexivity.
Qed.

Lemma period_result_ext (f g : string -> option Q) parsed cols years :
  (forall c, In c (sort_columns (argsort parsed) cols) ->
             coerce_series f (snd c) = coerce_series g (snd c)) ->
  period_result f parsed cols years = period_result g parsed cols years.
Proof.
  intros H. unfold period_result. cbv zeta.
  set (dates := take 0%Z (argsort parsed) parsed).
  set (ti := compute_to_indices dates years).
  set (scols := sort_columns (argsort parsed) cols) in *.
  assert (map (fun c => (fst c, process_named_column f scols dates ti years c))
              scols
          = map (fun c => (fst c, process_named_column g scols dates ti years c))
                scols) as E.
  { apply map_ext_in. intros c Hc.
    unfold process_named_column, process_column.
    rewrite (H c Hc). reflexivity. }
  rewrite E. reflexivity.
Qed.

(** ** Sorting *)

Lemma insert_sorted_In key i l x :
  In x (insert_sorted key i l) <-> x = i \/ In x l.
Proof.
  induction l as [|j l IH]; simpl.
  - intuition.
  - destruct (key i <=? key j)%Z; simpl; [intuition |].
    rewrite IH. intuition.
Qed.

Lemma insert_sorted_length key i l :
  length (insert_sorted key i l) = S (length l).
Proof.
  induction l as [|j l IH]; simpl; [reflexivity |].
  destruct (key i <=? key j)%Z; simpl; [reflexivity | rewrite IH; reflexivity].
Qed.

Lemma insert_sorted_Sorted (key : nat -> Z) i l :
  Sorted (fun a b => (key a <= key b)%Z) l ->
  Sorted (fun a b => (key a <= key b)%Z) (insert_sorted key i l).
Proof.
  induction 1 as [|j l Hs IH Hhd]; simpl.
  - repeat constructor.
  - destruct (Z.leb_spec (key i) (key j)) as [Hle | Hgt].
    + constructor; [constructor; assumption | constructor; exact Hle].
    + constructor; [exact IH |].
      destruct l as [|k l]; simpl.
      * constructor. lia.
      * destruct (key i <=? key k)%Z; constructor; [lia |].
        inversion Hhd. assumption.
Qed.

Lemma fold_insert_sorted_length key l :
  length (fold_right (insert_sorted key) [] l) = length l.
Proof.
  induction l as [|i l IH]; simpl; [reflexivity |].
  rewrite insert_sorted_length, IH. reflexivity.
Qed.

Lemma argsort_length ds : length (argsort ds) = length ds.
Proof.
  unfold argsort. rewrite fold_insert_sorted_length. apply length_seq.
Qed.

Lemma fold_insert_sorted_In key l x :
  In x (fold_right (insert_sorted key) [] l) <-> In x l.
Proof.
  induction l as [|i l IH]; simpl; [tauto |].
  rewrite insert_sorted_In, IH. intuition.
Qed.

Lemma argsort_In ds i : In i (argsort ds) -> (i < length ds)%nat.
Proof.
  unfold argsort. rewrite fold_insert_sorted_In, in_seq. lia.
Qed.

Lemma fold_insert_sorted_Sorted key l :
  Sorted (fun a b => (key a <= key b)%Z) (fold_right (insert_sorted key) [] l).
Proof.
  induction l as [|i l IH]; simpl; [constructor |].
  apply insert_sorted_Sorted, IH.
Qed.

Lemma Sorted_map_key (key : nat -> Z) l :
  Sorted (fun a b => (key a <= key b)%Z) l -> Sorted Z.le (map key l).
Proof.
  induction 1 as [|i l Hs IH Hhd]; simpl; constructor; [exact IH |].
  destruct Hhd; simpl; constructor. assumption.
Qed.

Lemma sorted_dates_Sorted parsed : Sorted Z.le (sorted_dates parsed).
Proof.
  unfold sorted_dates, take, argsort.
  apply Sorted_map_key with (key := fun i => nth i parsed 0%Z).
  apply fold_insert_sorted_Sorted.
Qed.

Lemma length_take {A : Type} (d : A) order col :
  length (take d order col) = length order.
Proof. unfold take. apply length_map. Qed.

Lemma length_sorted_dates parsed :
  length (sorted_dates parsed) = length parsed.
Proof. unfold sorted_dates. rewrite length_take. apply argsort_length. Qed.

(** ** Row selection *)

Lemma select_rows_length {A : Type} (mask : list bool) :
  forall col : list A,
    length col = length mask ->
    length (select_rows mask col) = count_true mask.
Proof.
  unfold count_true.
  induction mask as [|b mask IH]; intros [|x col] H; simpl in *;
    try reflexivity; try discriminate.
  destruct b; simpl; rewrite IH by congruence; reflexivity.
Qed.

Lemma select_rows_map {A B : Type} (f : A -> B) (mask : list bool) :
  forall col, select_rows mask (map f col) = map f (select_rows mask col).
Proof.
  induction mask as [|b mask IH]; intros [|x col]; simpl; try reflexivity.
  destruct b; simpl; rewrite IH; reflexivity.
Qed.

Lemma select_rows_In {A : Type} (mask : list bool) :
  forall (col : list A) x, In x (select_rows mask col) -> In x col.
Proof.
  induction mask as [|b mask IH]; intros [|y col] x H; simpl in *;
    try contradiction.
  destruct b; simpl in H; [destruct H as [-> | H]; [left; reflexivity |] |];
    right; apply IH; exact H.
Qed.

Lemma select_rows_Sorted (mask : list bool) :
  forall col, Sorted Z.le col -> Sorted Z.le (select_rows mask col).
Proof.
  intros col Hs. apply sorted_le_strong in Hs.
  apply StronglySorted_Sorted. revert mask.
  induction Hs as [|x col Hs IH Hall]; intros [|b mask]; simpl;
    try constructor.
  destruct b; [constructor; [apply IH |] | apply IH].
  rewrite Forall_forall in *. intros y Hy. apply Hall.
  eapply select_rows_In, Hy.
Qed.

Lemma select_rows_all {A : Type} (mask : list bool) :
  forall col : list A,
    length col = length mask ->
    forallb (fun b => b) mask = true ->
    select_rows mask col = col.
Proof.
  induction mask as [|b mask IH]; intros [|x col] H Hall; simpl in *;
    try reflexivity; try discriminate.
  destruct b; simpl in Hall; [| discriminate].
  rewrite IH; [reflexivity | congruence | exact Hall].
Qed.

Lemma select_rows_own_mask {A : Type} (p : A -> bool) (col : list A) :
  Forall (fun x => p x = true) (select_rows (map p col) col).
Proof.
  induction col as [|x col IH]; simpl; [constructor |].
  destruct (p x) eqn:E; [constructor; assumption | exact IH].
Qed.

Lemma count_true_all (mask : list bool) :
  forallb (fun b => b) mask = true -> count_true mask = length mask.
Proof.
  unfold count_true. induction mask as [|b mask IH]; simpl; [reflexivity |].
  destruct b; simpl; [intros H; rewrite IH by exact H; reflexivity |].
  discriminate.
Qed.

Lemma count_true_le (mask : list bool) : (count_true mask <= length mask)%nat.
Proof.
  unfold count_true. induction mask as [|b mask IH]; simpl; [lia |].
  destruct b; simpl; lia.
Qed.

Lemma count_true_lt (mask : list bool) :
  forallb (fun b => b) mask = false -> (count_true mask < length mask)%nat.
Proof.
  unfold count_true. induction mask as [|b mask IH]; simpl; [discriminate |].
  destruct b; simpl; intros H.
  - apply IH in H. lia.
  - pose proof (count_true_le mask) as Hle. unfold count_true in Hle. lia.
Qed.

(** ** The shape of a period result *)

Lemma strftime_mdY_nonempty t : strftime_mdY t <> ""%string.
Proof.
  unfold strftime_mdY.
  destruct (pad2 (c_month (civil_from_days (date_part t)))); discriminate.
Qed.

Lemma valid_rows_mask dates to_indices :
  map (fun s => negb (String.eqb s ""%string)) (compute_to_dates dates to_indices)
  = matched_mask to_indices.
Proof.
  unfold compute_to_dates, matched_mask. rewrite map_map.
  apply map_ext. intros [j|]; [| reflexivity].
  destruct (String.eqb_spec (strftime_mdY (nth j dates 0%Z)) ""%string) as [E|];
    [elim (strftime_mdY_nonempty _ E) | reflexivity].
Qed.

Lemma length_matched_mask to_indices :
  length (matched_mask to_indices) = length to_indices.
Proof. unfold matched_mask. apply length_map. Qed.

Lemma length_compute_to_dates dates to_indices :
  length (compute_to_dates dates to_indices) = length to_indices.
Proof. unfold compute_to_dates. apply length_map. Qed.

Lemma process_column_length to_numeric dates to_indices years col :
  length to_indices = length dates ->
  length (fst (process_column to_numeric dates to_indices years col))
  = length dates.
Proof.
  intros Hlen. unfold process_column.
  destruct (try_returns dates to_indices years
              (coerce_series to_numeric (snd col))) as [returns|] eqn:E; simpl.
  - apply try_returns_nth in E. destruct E as [E _]. congruence.
  - apply repeat_length.
Qed.

Lemma process_named_column_length to_numeric cols dates to_indices years col :
  length to_indices = length dates ->
  length (fst (process_named_column to_numeric cols dates to_indices years col))
  = length dates.
Proof.
  intros Hlen. unfold process_named_column.
  destruct (Nat.ltb 1 (name_count (fst col) cols));
    [apply repeat_length | apply process_column_length, Hlen].
Qed.

(** *** Assigning result columns *)

Lemma assign_In label cells df c :
  In c (assign label cells df) -> c = (label, cells) \/ In c df.
Proof.
  induction df as [|d df IH]; simpl.
  - intros [<- | []]. left. reflexivity.
  - destruct (String.eqb (fst d) label); simpl.
    + intros [<- | H]; [left; reflexivity | right; right; exact H].
    + intros [<- | H]; [right; left; reflexivity |].
      destruct (IH H) as [E | E]; [left; exact E | right; right; exact E].
Qed.

Lemma assign_fresh label cells df :
  ~ In label (map fst df) -> assign label cells df = df ++ [(label, cells)].
Proof.
  induction df as [|d df IH]; simpl; intros H; [reflexivity |].
  destruct (String.eqb_spec (fst d) label) as [E | E]; [elim H; left; exact E |].
  rewrite IH; [reflexivity |]. intros Hin. apply H. right. exact Hin.
Qed.

Lemma assign_all_In vs :
  forall df c, In c (assign_all vs df) -> In c vs \/ In c df.
Proof.
  unfold assign_all.
  induction vs as [|v vs IH]; intros df c H; simpl in H; [right; exact H |].
  destruct (IH _ _ H) as [E | E]; [left; right; exact E |].
  apply assign_In in E. destruct E as [-> | E]; [| right; exact E].
  left. left. destruct v; reflexivity.
Qed.

Lemma assign_all_skip vs :
  forall c df,
    (forall v, In v vs -> fst v <> fst c) ->
    assign_all vs (c :: df) = c :: assign_all vs df.
Proof.
  unfold assign_all.
  induction vs as [|v vs IH]; intros c df H; simpl; [reflexivity |].
  destruct (String.eqb_spec (fst c) (fst v)) as [E | E].
  - elim (H v (or_introl eq_refl)). symmetry. exact E.
  - apply IH. intros v' Hv'. apply H. right. exact Hv'.
Qed.

Lemma assign_all_distinct vs :
  forall df,
    NoDup (map fst vs) ->
    (forall v, In v vs -> ~ In (fst v) (map fst df)) ->
    assign_all vs df = df ++ vs.
Proof.
  unfold assign_all.
  induction vs as [|v vs IH]; intros df Hnd H; simpl;
    [rewrite app_nil_r; reflexivity |].
  inversion Hnd as [|? ? Hnot Hnd']; subst.
  rewrite assign_fresh by (apply H; left; reflexivity).
  rewrite IH; [| exact Hnd' |].
  - rewrite <- app_assoc. destruct v; reflexivity.
  - intros v' Hv'. rewrite map_app, in_app_iff. simpl.
    intros [Hin | [E | []]].
    + apply (H v' (or_intror Hv')). exact Hin.
    + apply Hnot. rewrite E. apply in_map, Hv'.
Qed.

Lemma list_ascii_of_string_append (a b : string) :
  list_ascii_of_string (a ++ b)
  = list_ascii_of_string a ++ list_ascii_of_string b.
Proof.
  induction a as [|c a IH]; simpl; [reflexivity | rewrite IH; reflexivity].
Qed.

Lemma append_inv_tail (a b s : string) : (a ++ s = b ++ s)%string -> a = b.
Proof.
  intros H. apply (f_equal list_ascii_of_string) in H.
  rewrite !list_ascii_of_string_append in H. apply app_inv_tail in H.
  apply (f_equal string_of_list_ascii) in H.
  rewrite !string_of_list_ascii_of_string in H. exact H.
Qed.

Lemma column_label_injective (a b : string) (years : Z) :
  column_label a years = column_label b years -> a = b.
Proof.
  unfold column_label. simpl. intros H. injection H as H.
  eapply append_inv_tail, H.
Qed.

Lemma column_label_not_From column years :
  column_label column years <> "From"%string.
Proof. unfold column_label. simpl. discriminate. Qed.

Lemma column_label_not_To column years years' :
  column_label column years <> to_label years'.
Proof. unfold column_label, to_label. simpl. discriminate. Qed.

(** *** Column names *)

Lemma sort_columns_names order cols :
  map fst (sort_columns order cols) = map fst cols.
Proof. unfold sort_columns. rewrite map_map. reflexivity. Qed.

Lemma name_count_names name cols cols' :
  map fst cols = map fst cols' -> name_count name cols = name_count name cols'.
Proof.
  unfold name_count. revert cols'.
  induction cols as [|c cols IH]; intros [|c' cols'] H; simpl in *;
    try discriminate; [reflexivity |].
  injection H as Hc H. rewrite Hc.
  destruct (String.eqb (fst c') name); simpl; rewrite (IH _ H); reflexivity.
Qed.

Lemma name_count_absent name cols :
  ~ In name (map fst cols) -> name_count name cols = 0%nat.
Proof.
  unfold name_count. induction cols as [|c cols IH]; simpl; intros H;
    [reflexivity |].
  destruct (String.eqb_spec (fst c) name) as [E | E];
    [elim H; left; exact E |].
  apply IH. intros Hin. apply H. right. exact Hin.
Qed.

Lemma name_count_distinct cols c :
  NoDup (map fst cols) -> In c cols -> name_count (fst c) cols = 1%nat.
Proof.
  unfold name_count. induction cols as [|d cols IH]; simpl; intros Hnd Hin;
    [elim Hin |].
  inversion Hnd as [|? ? Hnot Hnd']; subst.
  destruct Hin as [-> | Hin].
  - rewrite String.eqb_refl. simpl. f_equal.
    apply (name_count_absent (fst c) cols Hnot).
  - destruct (String.eqb_spec (fst d) (fst c)) as [E | E].
    + elim Hnot. rewrite E. apply in_map, Hin.
    + apply IH; assumption.
Qed.

Lemma process_named_column_distinct to_numeric cols dates to_indices years c :
  NoDup (map fst cols) -> In c cols ->
  process_named_column to_numeric cols dates to_indices years c
  = process_column to_numeric dates to_indices years c.
Proof.
  intros Hnd Hin. unfold process_named_column.
  rewrite (name_count_distinct cols c Hnd Hin). reflexivity.
Qed.

(** *** The frame returned *)

Lemma period_result_shape to_numeric parsed cols years :
  period_result to_numeric parsed cols years =
  (span_warning (sorted_dates parsed) years
     ++ concat (map (fun c =>
                       snd (process_named_column to_numeric
                              (sort_columns (argsort parsed) cols)
                              (sorted_dates parsed)
                              (compute_to_indices (sorted_dates parsed) years)
                              years c))
                    (sort_columns (argsort parsed) cols))
     ++ (if forallb (fun b => b)
              (matched_mask (compute_to_indices (sorted_dates parsed) years))
         then []
         else [RemovedRows
                 (length parsed
                  - count_true
                      (matched_mask
                         (compute_to_indices (sorted_dates parsed) years)))
                 years]),
   ("From"%string,
    map strftime_mdY
        (select_rows
           (matched_mask (compute_to_indices (sorted_dates parsed) years))
           (sorted_dates parsed)))
   :: (to_label years,
       select_rows
         (matched_mask (compute_to_indices (sorted_dates parsed) years))
         (compute_to_dates (sorted_dates parsed)
            (compute_to_indices (sorted_dates parsed) years)))
   :: map (fun c =>
             (fst c,
              select_rows
                (matched_mask (compute_to_indices (sorted_dates parsed) years))
                (snd c)))
          (assign_all
             (map (fun c =>
                     (column_label (fst c) years,
                      fst (process_named_column to_numeric
                             (sort_columns (argsort parsed) cols)
                             (sorted_dates parsed)
                             (compute_to_indices (sorted_dates parsed) years)
                             years c)))
                  (sort_columns (argsort parsed) cols))
             [])).
Proof.
  unfold period_result. cbv zeta. fold (sorted_dates parsed).
  set (dates := sorted_dates parsed).
  set (ti := compute_to_indices dates years).
  set (scols := sort_columns (argsort parsed) cols).
  rewrite valid_rows_mask. set (mask := matched_mask ti).
  assert (Hd : length dates = length parsed) by apply length_sorted_dates.
  assert (Hti : length ti = length dates) by apply length_compute_to_indices.
  assert (Hm : length mask = length dates)
    by (unfold mask; rewrite length_matched_mask; exact Hti).
  rewrite !map_map. cbn [fst snd]. rewrite length_map, Hd.
  set (vs := map (fun c => (column_label (fst c) years,
                            fst (process_named_column to_numeric scols dates
                                   ti years c))) scols).
  assert (Hvs : forall v, In v vs -> length (snd v) = length mask).
  { intros v Hv. unfold vs in Hv. apply in_map_iff in Hv.
    destruct Hv as [c [<- _]]. cbn [snd].
    rewrite process_named_column_length by exact Hti. congruence. }
  rewrite assign_all_skip.
  2:{ intros v Hv. unfold vs in Hv. apply in_map_iff in Hv.
      destruct Hv as [c [<- _]]. cbn [fst]. apply column_label_not_From. }
  rewrite assign_all_skip.
  2:{ intros v Hv. unfold vs in Hv. apply in_map_iff in Hv.
      destruct Hv as [c [<- _]]. cbn [fst]. apply column_label_not_To. }
  destruct (forallb (fun b => b) mask) eqn:Eall.
  - f_equal; [rewrite app_nil_r; reflexivity |].
    rewrite (select_rows_all mask dates) by (try exact Eall; congruence).
    rewrite (select_rows_all mask (compute_to_dates dates ti))
      by (try exact Eall; rewrite length_compute_to_dates; congruence).
    f_equal. f_equal.
    rewrite <- (map_id (assign_all vs [])) at 1.
    apply map_ext_in. intros c Hc.
    rewrite select_rows_all; [destruct c; reflexivity | | exact Eall].
    apply assign_all_In in Hc. destruct Hc as [Hc | []]. apply Hvs, Hc.
  - f_equal.
    cbn [map fst snd]. rewrite select_rows_map. reflexivity.
Qed.

(** The frame returned when no two columns of the table bear one name. *)
Lemma period_result_distinct to_numeric parsed cols years :
  NoDup (map fst cols) ->
  period_result to_numeric parsed cols years =
  (span_warning (sorted_dates parsed) years
     ++ concat (map (fun c =>
                       snd (process_column to_numeric (sorted_dates parsed)
                              (compute_to_indices (sorted_dates parsed) years)
                              years c))
                    (sort_columns (argsort parsed) cols))
     ++ (if forallb (fun b => b)
              (matched_mask (compute_to_indices (sorted_dates parsed) years))
         then []
         else [RemovedRows
                 (length parsed
                  - count_true
                      (matched_mask
                         (compute_to_indices (sorted_dates parsed) years)))
                 years]),
   ("From"%string,
    map strftime_mdY
        (select_rows
           (matched_mask (compute_to_indices (sorted_dates parsed) years))
           (sorted_dates parsed)))
   :: (to_label years,
       select_rows
         (matched_mask (compute_to_indices (sorted_dates parsed) years))
         (compute_to_dates (sorted_dates parsed)
            (compute_to_indices (sorted_dates parsed) years)))
   :: map (fun c =>
             (column_label (fst c) years,
              select_rows
                (matched_mask (compute_to_indices (sorted_dates parsed) years))
                (fst (process_column to_numeric (sorted_dates parsed)
                        (compute_to_indices (sorted_dates parsed) years)
                        years c))))
          (sort_columns (argsort parsed) cols)).
Proof.
  intros Hnd. rewrite period_result_shape.
  set (scols := sort_columns (argsort parsed) cols).
  assert (Hnd' : NoDup (map fst scols))
    by (unfold scols; rewrite sort_columns_names; exact Hnd).
  assert (Hp : forall c, In c scols ->
                 process_named_column to_numeric scols (sorted_dates parsed)
                   (compute_to_indices (sorted_dates parsed) years) years c
                 = process_column to_numeric (sorted_dates parsed)
                     (compute_to_indices (sorted_dates parsed) years) years c)
    by (intros c Hc; apply process_named_column_distinct; assumption).
  f_equal.
  - f_equal. f_equal. f_equal. apply map_ext_in. intros c Hc.
    rewrite (Hp c Hc). reflexivity.
  - f_equal. f_equal.
    rewrite assign_all_distinct.
    + cbn [app]. rewrite map_map. cbn [fst snd].
      apply map_ext_in. intros c Hc. rewrite (Hp c Hc). reflexivity.
    + rewrite map_map. cbn [fst].
      rewrite <- (map_map fst (fun n => column_label n years)).
      apply Finite.Injective_map_NoDup_in; [| exact Hnd'].
      intros x y _ _. apply column_label_injective.
    + intros v _ [].
Qed.

Lemma to_datetime_length parse_datetime col parsed :
  to_datetime parse_datetime col = Some parsed -> length parsed = length col.
Proof.
  unfold to_datetime. intros E. apply mapM_nth_error in E. tauto.
Qed.

Lemma span_warning_messages dates years m :
  In m (span_warning dates years) -> m = WarnShortSpan years.
Proof.
  unfold span_warning.
  destruct (list_min dates), (list_max dates); simpl; try contradiction.
  match goal with |- context [Qle_bool ?a ?b] => destruct (Qle_bool a b) end;
    simpl; [contradiction | intros [<- | []]; reflexivity].
Qed.

Lemma column_error_messages to_numeric named dates to_indices years cols m :
  In m (concat (map (fun c =>
                       snd (process_named_column to_numeric named dates
                              to_indices years c))
                    cols)) ->
  exists name, m = ColumnError name years.
Proof.
  rewrite in_concat. intros [l [Hl Hm]].
  apply in_map_iff in Hl. destruct Hl as [c [<- _]].
  unfold process_named_column, process_column in Hm.
  destruct (Nat.ltb 1 (name_count (fst c) named)); simpl in Hm;
    [destruct Hm as [<- | []]; eauto |].
  destruct (try_returns dates to_indices years
              (coerce_series to_numeric (snd c))); simpl in Hm;
    [contradiction | destruct Hm as [<- | []]; eauto].
Qed.

Lemma assigned_length to_numeric named dates to_indices years cols c :
  length to_indices = length dates ->
  In c (assign_all
          (map (fun c =>
                  (column_label (fst c) years,
                   fst (process_named_column to_numeric named dates
                          to_indices years c)))
               cols)
          []) ->
  length (snd c) = length dates.
Proof.
  intros Hti Hc. apply assign_all_In in Hc. destruct Hc as [Hc | []].
  apply in_map_iff in Hc. destruct Hc as [c' [<- _]]. cbn [snd].
  apply process_named_column_length, Hti.
Qed.

(** C6 (row-drop consistency).  Whenever the [Date] column parses, the
    period result exists; its rows are the rows of the date-sorted input
    that have an end row, in the same order, hence by ascending date;
    every To-date cell kept is non-empty; every column has exactly the
    retained height; and the number of removed rows that is reported is
    the number of input rows minus the number of retained rows (nothing is
    reported when no row is removed). *)
Theorem row_drop_consistency
    (parse_datetime : string -> option Timestamp)
    (to_numeric : string -> option Q)
    (df : Frame date_cell) (years : Z) (parsed : list Timestamp) :
  to_datetime parse_datetime (Date df) = Some parsed ->
  exists messages result,
    calculate_returns_optimized parse_datetime to_numeric df years
    = Some (mkFrame (map DateStamp parsed) (columns df), messages, result) /\
    let mask := matched_mask (compute_to_indices (sorted_dates parsed) years) in
    let retained := select_rows mask (sorted_dates parsed) in
    let dropped := (length (Date df) - length retained)%nat in
    nth_error result 0 = Some ("From"%string, map strftime_mdY retained) /\
    Sorted Z.le retained /\
    (exists to_dates,
       nth_error result 1 = Some (to_label years, to_dates) /\
       Forall (fun s => s <> ""%string) to_dates) /\
    (forall c, In c result -> length (snd c) = length retained) /\
    length retained = count_true mask /\
    (length retained <= length (Date df))%nat /\
    ((0 < dropped)%nat -> In (RemovedRows dropped years) messages) /\
    (forall n y, In (RemovedRows n y) messages ->
                 n = dropped /\ y = years /\ (0 < dropped)%nat).
Proof.
  intros Hparse. unfold calculate_returns_optimized. rewrite Hparse.
  unfold bind. rewrite period_result_shape. cbn [fst snd].
  eexists. eexists. split; [reflexivity |].
  set (dates := sorted_dates parsed).
  set (ti := compute_to_indices dates years).
  set (mask := matched_mask ti).
  assert (Hd : length dates = length parsed) by apply length_sorted_dates.
  assert (Hp : length parsed = length (Date df))
    by (eapply to_datetime_length; exact Hparse).
  assert (Hti : length ti = length dates) by apply length_compute_to_indices.
  assert (Hm : length mask = length dates)
    by (unfold mask; rewrite length_matched_mask; exact Hti).
  assert (Hret : length (select_rows mask dates) = count_true mask)
    by (apply select_rows_length; congruence).
  cbv zeta. rewrite Hret, <- Hp.
  split; [reflexivity |].
  split; [apply select_rows_Sorted, sorted_dates_Sorted |].
  split.
  { eexists. split; [reflexivity |].
    unfold mask. rewrite <- (valid_rows_mask dates ti).
    eapply Forall_impl; [| apply select_rows_own_mask].
    intros s Hs E. subst s. discriminate Hs. }
  split.
  { intros c [<- | [<- | Hc]]; cbn [snd].
    - rewrite length_map. exact Hret.
    - apply select_rows_length. rewrite length_compute_to_dates. congruence.
    - apply in_map_iff in Hc. destruct Hc as [c' [<- Hc']]. cbn [snd].
      apply select_rows_length.
      rewrite (assigned_length _ _ _ _ _ _ _ Hti Hc'). congruence. }
  split; [reflexivity |].
  split; [pose proof (count_true_le mask); lia |].
  split.
  - intros Hpos.
    destruct (forallb (fun b => b) mask) eqn:Eall.
    + apply count_true_all in Eall. lia.
    + apply in_or_app. right. apply in_or_app. right. left. reflexivity.
  - intros n y Hin.
    apply in_app_or in Hin. destruct Hin as [Hin | Hin].
    { apply span_warning_messages in Hin. discriminate Hin. }
    apply in_app_or in Hin. destruct Hin as [Hin | Hin].
    { apply column_error_messages in Hin. destruct Hin as [name Hin].
      discriminate Hin. }
    destruct (forallb (fun b => b) mask) eqn:Eall; [contradiction |].
    destruct Hin as [Hin | []]. injection Hin as <- <-.
    apply count_true_lt in Eall. repeat split; lia.
Qed.

Lemma row_drop_consistency_witness :
  to_datetime no_text_dates (Date scenario_A) = Some scenario_A_dates /\
  exists messages result,
    calculate_returns_optimized no_text_dates decimal_literal scenario_A 1
    = Some (mkFrame (map DateStamp scenario_A_dates) (columns scenario_A),
            messages, result) /\
    let mask :=
      matched_mask (compute_to_indices (sorted_dates scenario_A_dates) 1) in
    let retained := select_rows mask (sorted_dates scenario_A_dates) in
    let dropped := (length (Date scenario_A) - length retained)%nat in
    nth_error result 0 = Some ("From"%string, map strftime_mdY retained) /\
    Sorted Z.le retained /\
    (exists to_dates,
       nth_error result 1 = Some (to_label 1, to_dates) /\
       Forall (fun s => s <> ""%string) to_dates) /\
    (forall c, In c result -> length (snd c) = length retained) /\
    length retained = count_true mask /\
    (length retained <= length (Date scenario_A))%nat /\
    ((0 < dropped)%nat -> In (RemovedRows dropped 1) messages) /\
    (forall n y, In (RemovedRows n y) messages ->
                 n = dropped /\ y = 1%Z /\ (0 < dropped)%nat).
Proof.
  assert (H : to_datetime no_text_dates (Date scenario_A)
              = Some scenario_A_dates) by reflexivity.
  split; [exact H |].
  exact (row_drop_consistency no_text_dates decimal_literal scenario_A 1
           scenario_A_dates H).
Defined.

(** ** Columns that do not parse *)

Lemma return_cell_all_missing dates series years i to_idx c :
  Forall (fun v => v = None) series ->
  return_cell dates series years i to_idx = Some c ->
  c = ""%string.
Proof.
  intros Hall E. unfold return_cell, iloc in E.
  destruct to_idx as [j|]; [| congruence].
  destruct (nth_error series i) as [sv|] eqn:Esi; simpl in E; [| discriminate].
  destruct (nth_error series j) as [ev|] eqn:Esj; simpl in E; [| discriminate].
  rewrite Forall_forall in Hall.
  rewrite (Hall sv (nth_error_In _ _ Esi)) in E. congruence.
Qed.

Lemma process_column_all_missing to_numeric dates to_indices years col :
  Forall (fun v => v = None) (coerce_series to_numeric (snd col)) ->
  Forall (fun s => s = ""%string)
         (fst (process_column to_numeric dates to_indices years col)).
Proof.
  intros Hall. unfold process_column.
  destruct (try_returns dates to_indices years
              (coerce_series to_numeric (snd col))) as [returns|] eqn:E; simpl.
  - apply try_returns_nth in E. destruct E as [Hlen Hnth].
    apply Forall_forall. intros s Hs.
    apply In_nth_error in Hs. destruct Hs as [i Hi].
    destruct (nth_error to_indices i) as [to_idx|] eqn:Eti.
    + destruct (Hnth i to_idx Eti) as [c [Hc Hr]].
      rewrite Hi in Hr. injection Hr as ->.
      eapply return_cell_all_missing; eassumption.
    + apply nth_error_None in Eti.
      assert (i < length returns)%nat by (apply nth_error_Some; congruence).
      lia.
  - apply Forall_forall. intros s Hs. apply repeat_spec in Hs. exact Hs.
Qed.

Lemma process_column_no_error to_numeric dates years col :
  length (snd col) = length dates ->
  snd (process_column to_numeric dates (compute_to_indices dates years)
         years col) = [].
Proof.
  intros Hlen. unfold process_column.
  destruct (try_returns_total dates years (coerce_series to_numeric (snd col)))
    as [returns E]; [rewrite length_coerce_series; exact Hlen |].
  rewrite E. reflexivity.
Qed.

Lemma select_rows_all_empty (mask : list bool) :
  forall col : list string,
    Forall (fun s => s = ""%string) col ->
    Forall (fun s => s = ""%string) (select_rows mask col).
Proof.
  intros col H. apply Forall_forall. intros s Hs.
  rewrite Forall_forall in H. apply H. eapply select_rows_In, Hs.
Qed.

Lemma sort_columns_app order pre post :
  sort_columns order (pre ++ post)
  = sort_columns order pre ++ sort_columns order post.
Proof. unfold sort_columns. apply map_app. Qed.

Lemma take_unparseable to_numeric order cells :
  (forall i, In i order -> (i < length cells)%nat) ->
  Forall (fun c => to_numeric (remove_commas c) = None) cells ->
  Forall (fun v => v = None)
         (coerce_series to_numeric (take ""%string order cells)).
Proof.
  intros Hrange Hall. unfold coerce_series, take. rewrite map_map.
  apply Forall_forall. intros v Hv. apply in_map_iff in Hv.
  destruct Hv as [i [<- Hi]].
  rewrite Forall_forall in Hall. apply Hall. apply nth_In. apply Hrange, Hi.
Qed.

(** C7 (columns that cannot be read as numbers).  In a table whose
    columns bear distinct names: when no cell of a column parses, the
    period result still exists and is the result for the table without
    that column, with one more column in the same place whose cells are
    all empty; the other columns and the messages are the same. *)
Theorem unparseable_column_is_empty
    (parse_datetime : string -> option Timestamp)
    (to_numeric : string -> option Q)
    (df : Frame date_cell) (years : Z)
    (pre post : list (string * list string))
    (name : string) (cells : list string) (parsed : list Timestamp) :
  NoDup (map fst (columns df)) ->
  columns df = pre ++ (name, cells) :: post ->
  length cells = length (Date df) ->
  Forall (fun c => to_numeric (remove_commas c) = None) cells ->
  to_datetime parse_datetime (Date df) = Some parsed ->
  exists messages base before after empties,
    calculate_returns_optimized parse_datetime to_numeric df years
    = Some (mkFrame (map DateStamp parsed) (columns df), messages,
            base ++ before ++ (column_label name years, empties) :: after) /\
    calculate_returns_optimized parse_datetime to_numeric
      (mkFrame (Date df) (pre ++ post)) years
    = Some (mkFrame (map DateStamp parsed) (pre ++ post), messages,
            base ++ before ++ after) /\
    length base = 2%nat /\
    length before = length pre /\
    length after = length post /\
    Forall (fun s => s = ""%string) empties.
Proof.
  intros Hnd Hcols Hlen Hall Hparse.
  assert (Hnd2 : NoDup (map fst (pre ++ post))).
  { rewrite Hcols, map_app in Hnd. cbn [map] in Hnd.
    apply NoDup_remove_1 in Hnd. rewrite map_app. exact Hnd. }
  unfold calculate_returns_optimized. cbn [Date columns].
  rewrite Hparse. unfold bind.
  rewrite (period_result_distinct _ _ _ _ Hnd).
  rewrite (period_result_distinct _ _ _ _ Hnd2). cbn [fst snd].
  rewrite Hcols, !sort_columns_app, !map_app, !concat_app.
  set (dates := sorted_dates parsed).
  set (ti := compute_to_indices dates years).
  set (mask := matched_mask ti).
  set (order := argsort parsed).
  change (sort_columns order ((name, cells) :: post))
    with ((name, take ""%string order cells) :: sort_columns order post).
  cbn [map concat fst snd].
  assert (Hp : length parsed = length (Date df))
    by (eapply to_datetime_length; exact Hparse).
  assert (Hd : length dates = length parsed) by apply length_sorted_dates.
  assert (Herr : snd (process_column to_numeric dates ti years
                        (name, take ""%string order cells)) = []).
  { apply process_column_no_error. cbn [snd].
    rewrite length_take. unfold order. rewrite argsort_length. congruence. }
  rewrite Herr. cbn [app].
  exists (span_warning dates years
          ++ (concat (map (fun c => snd (process_column to_numeric dates ti
                                           years c))
                          (sort_columns order pre))
              ++ concat (map (fun c => snd (process_column to_numeric dates ti
                                              years c))
                             (sort_columns order post)))
          ++ (if forallb (fun b => b) mask then []
              else [RemovedRows (length parsed - count_true mask) years])).
  exists [("From"%string, map strftime_mdY (select_rows mask dates));
          (to_label years, select_rows mask (compute_to_dates dates ti))].
  exists (map (fun c => (column_label (fst c) years,
                         select_rows mask
                           (fst (process_column to_numeric dates ti years c))))
              (sort_columns order pre)).
  exists (map (fun c => (column_label (fst c) years,
                         select_rows mask
                           (fst (process_column to_numeric dates ti years c))))
              (sort_columns order post)).
  exists (select_rows mask
            (fst (process_column to_numeric dates ti years
                    (name, take ""%string order cells)))).
  split; [reflexivity |]. split; [reflexivity |].
  split; [reflexivity |].
  split; [unfold sort_columns; rewrite !length_map; reflexivity |].
  split; [unfold sort_columns; rewrite !length_map; reflexivity |].
  apply select_rows_all_empty, process_column_all_missing. cbn [snd].
  apply take_unparseable; [| exact Hall].
  intros i Hi. unfold order in Hi. apply argsort_In in Hi. lia.
Qed.

Lemma unparseable_column_is_empty_witness :
  NoDup (map fst (columns scenario_A_with_notes)) /\
  columns scenario_A_with_notes
  = [scenario_A_column] ++ ("Note"%string, snd notes_column) :: [] /\
  length (snd notes_column) = length (Date scenario_A_with_notes) /\
  Forall (fun c => decimal_literal (remove_commas c) = None)
         (snd notes_column) /\
  to_datetime no_text_dates (Date scenario_A_with_notes)
  = Some scenario_A_dates /\
  exists messages base before after empties,
    calculate_returns_optimized no_text_dates decimal_literal
      scenario_A_with_notes 1
    = Some (mkFrame (map DateStamp scenario_A_dates)
              (columns scenario_A_with_notes), messages,
            base ++ before ++ (column_label "Note" 1, empties) :: after) /\
    calculate_returns_optimized no_text_dates decimal_literal
      (mkFrame (Date scenario_A_with_notes) ([scenario_A_column] ++ [])) 1
    = Some (mkFrame (map DateStamp scenario_A_dates)
              ([scenario_A_column] ++ []), messages,
            base ++ before ++ after) /\
    length base = 2%nat /\
    length before = length [scenario_A_column] /\
    length after = length (@nil (string * list string)) /\
    Forall (fun s => s = ""%string) empties.
Proof.
  assert (H0 : NoDup (map fst (columns scenario_A_with_notes))).
  { repeat constructor; simpl; intuition discriminate. }
  assert (H1 : columns scenario_A_with_notes
               = [scenario_A_column] ++ ("Note"%string, snd notes_column) :: [])
    by reflexivity.
  assert (H2 : length (snd notes_column)
               = length (Date scenario_A_with_notes)) by reflexivity.
  assert (H3 : Forall (fun c => decimal_literal (remove_commas c) = None)
                      (snd notes_column))
    by (repeat constructor).
  assert (H4 : to_datetime no_text_dates (Date scenario_A_with_notes)
               = Some scenario_A_dates) by reflexivity.
  split; [exact H0 |].
  split; [exact H1 |]. split; [exact H2 |]. split; [exact H3 |].
  split; [exact H4 |].
  exact (unparseable_column_is_empty no_text_dates decimal_literal
           scenario_A_with_notes 1 [scenario_A_column] []
           "Note"%string (snd notes_column) scenario_A_dates
           H0 H1 H2 H3 H4).
Defined.

(** ** Running a period twice *)

(** C9 (determinism).  The answer of the period computation is a function
    of the table and the period; the one thing a call changes for its
    caller is the [Date] column, which it leaves parsed.  So a second call
    on the table as the first call left it gives the same messages and the
    same result and changes nothing more, and the batch over all periods,
    which works on copies, hands the table on untouched and gives the same
    list of results when it is run again. *)
Theorem rerun_gives_same_result
    (parse_datetime : string -> option Timestamp)
    (to_numeric : string -> option Q)
    (df caller : Frame date_cell) (years : Z)
    (messages : list message) (result : ResultFrame) :
  calculate_returns_optimized parse_datetime to_numeric df years
  = Some (caller, messages, result) ->
  calculate_returns_optimized parse_datetime to_numeric caller years
  = Some (caller, messages, result) /\
  columns caller = columns df /\
  forall periods,
    run_periods parse_datetime to_numeric
      (fst (run_periods parse_datetime to_numeric df periods)) periods
    = run_periods parse_datetime to_numeric df periods.
Proof.
  unfold calculate_returns_optimized. intros E.
  destruct (to_datetime parse_datetime (Date df)) as [parsed|] eqn:Ep;
    [| discriminate].
  unfold bind in E. injection E as <- <- <-.
  cbn [Date columns]. rewrite to_datetime_stamps. unfold bind.
  repeat split.
Qed.

Lemma rerun_gives_same_result_witness :
  calculate_returns_optimized iso_new_year_2020 decimal_literal
    text_dates_only 1
  = Some (mkFrame (map DateStamp scenario_A_dates) [],
          [RemovedRows 1 1],
          [("From", ["01/01/2020"; "01/01/2021"]);
           ("To (1Yr)", ["01/01/2021"; "01/01/2022"])]%string) /\
  (calculate_returns_optimized iso_new_year_2020 decimal_literal
     (mkFrame (map DateStamp scenario_A_dates) []) 1
   = Some (mkFrame (map DateStamp scenario_A_dates) [],
           [RemovedRows 1 1],
           [("From", ["01/01/2020"; "01/01/2021"]);
            ("To (1Yr)", ["01/01/2021"; "01/01/2022"])]%string) /\
   columns (mkFrame (map DateStamp scenario_A_dates) [])
   = columns text_dates_only /\
   forall periods,
     run_periods iso_new_year_2020 decimal_literal
       (fst (run_periods iso_new_year_2020 decimal_literal
               text_dates_only periods)) periods
     = run_periods iso_new_year_2020 decimal_literal text_dates_only periods).
Proof.
  assert (H : calculate_returns_optimized iso_new_year_2020 decimal_literal
                text_dates_only 1
              = Some (mkFrame (map DateStamp scenario_A_dates) [],
                      [RemovedRows 1 1],
                      [("From", ["01/01/2020"; "01/01/2021"]);
                       ("To (1Yr)", ["01/01/2021"; "01/01/2022"])]%string))
    by (vm_compute; reflexivity).
  split; [exact H |].
  exact (rerun_gives_same_result iso_new_year_2020 decimal_literal
           text_dates_only (mkFrame (map DateStamp scenario_A_dates) []) 1
           [RemovedRows 1 1]
           [("From", ["01/01/2020"; "01/01/2021"]);
            ("To (1Yr)", ["01/01/2021"; "01/01/2022"])]%string H).
Defined.

Lemma locate_respects_lower_bound_witness :
  (forall r, find_closest_trading_day [1; 2; 2; 5]%Z 2%Z 1 = Some r ->
             (1 <= r < length [1; 2; 2; 5]%Z)%nat) /\
  (skipn 1 [1; 2; 2; 5]%Z = [] ->
   find_closest_trading_day [1; 2; 2; 5]%Z 2%Z 1 = None).
Proof.
  exact (locate_respects_lower_bound [1; 2; 2; 5]%Z 2%Z 1).
Defined.

(** ** Certificates for powers *)

Lemma fval_nonneg x : fwf x -> (0 <= fval x)%Z.
Proof.
  intros [Hm He]. unfold fval. apply Z.mul_nonneg_nonneg; [exact Hm |].
  apply Z.pow_nonneg. lia.
Qed.

Lemma round_down_sound x :
  fwf x -> fwf (round_down x) /\ (fval (round_down x) <= fval x)%Z.
Proof.
  intros [Hm He]. unfold round_down.
  destruct (Z.ltb_spec 0 (Z.log2 (fst x) - PREC)) as [Hs | Hs];
    [| split; [split; assumption | lia]].
  set (s := (Z.log2 (fst x) - PREC)%Z) in *.
  assert (0 < 2 ^ s)%Z as Hp by (apply Z.pow_pos_nonneg; lia).
  pose proof (Z.mul_div_le (fst x) (2 ^ s) Hp) as Hd.
  assert (0 <= fst x / 2 ^ s)%Z as Hq by (apply Z.div_pos; lia).
  split; [split; simpl; lia |].
  unfold fval. simpl. rewrite Z.pow_add_r by lia.
  assert (0 <= 2 ^ snd x)%Z by (apply Z.pow_nonneg; lia).
  nia.
Qed.

Lemma round_up_sound x :
  fwf x -> fwf (round_up x) /\ (fval x <= fval (round_up x))%Z.
Proof.
  intros [Hm He]. unfold round_up.
  destruct (Z.ltb_spec 0 (Z.log2 (fst x) - PREC)) as [Hs | Hs];
    [| split; [split; assumption | lia]].
  set (s := (Z.log2 (fst x) - PREC)%Z) in *.
  assert (0 < 2 ^ s)%Z as Hp by (apply Z.pow_pos_nonneg; lia).
  pose proof (Z.div_mod (fst x) (2 ^ s) ltac:(lia)) as Hd.
  pose proof (Z.mod_pos_bound (fst x) (2 ^ s) Hp) as Hr.
  assert (0 <= fst x / 2 ^ s)%Z as Hq by (apply Z.div_pos; lia).
  split; [split; simpl; lia |].
  unfold fval. simpl. rewrite Z.pow_add_r by lia.
  assert (0 <= 2 ^ snd x)%Z by (apply Z.pow_nonneg; lia).
  nia.
Qed.

Lemma fval_product x y :
  fwf x -> fwf y ->
  fwf (fst x * fst y, snd x + snd y)%Z /\
  fval (fst x * fst y, snd x + snd y)%Z = (fval x * fval y)%Z.
Proof.
  intros [Hmx Hex] [Hmy Hey]. split; [split; simpl; nia |].
  unfold fval. simpl. rewrite Z.pow_add_r by lia. ring.
Qed.

Lemma fmul_down_sound x y :
  fwf x -> fwf y ->
  fwf (fmul round_down x y) /\
  (fval (fmul round_down x y) <= fval x * fval y)%Z.
Proof.
  intros Hx Hy. destruct (fval_product x y Hx Hy) as [Hw Hv].
  unfold fmul. destruct (round_down_sound _ Hw) as [Hw' Hle].
  split; [exact Hw' | lia].
Qed.

Lemma fmul_up_sound x y :
  fwf x -> fwf y ->
  fwf (fmul round_up x y) /\
  (fval x * fval y <= fval (fmul round_up x y))%Z.
Proof.
  intros Hx Hy. destruct (fval_product x y Hx Hy) as [Hw Hv].
  unfold fmul. destruct (round_up_sound _ Hw) as [Hw' Hle].
  split; [exact Hw' | lia].
Qed.

Lemma pow_bound_down_sound x n :
  fwf x ->
  fwf (pow_bound round_down x n) /\
  (fval (pow_bound round_down x n) <= fval x ^ Zpos n)%Z.
Proof.
  intros Hx. pose proof (fval_nonneg x Hx) as Hx0.
  induction n as [n [IHw IH] | n [IHw IH] |]; simpl pow_bound.
  - pose proof (fval_nonneg _ IHw) as H0.
    destruct (fmul_down_sound _ _ IHw IHw) as [Hw2 H2].
    destruct (fmul_down_sound _ _ Hx Hw2) as [Hw3 H3].
    split; [exact Hw3 |].
    rewrite Pos2Z.inj_xI, Z.pow_add_r, Z.pow_1_r, Z.pow_twice_r by lia.
    pose proof (fval_nonneg _ Hw2) as H4.
    set (P := (fval x ^ Zpos n)%Z) in *.
    assert (fval (pow_bound round_down x n) * fval (pow_bound round_down x n)
            <= P * P)%Z as H5 by (apply Z.mul_le_mono_nonneg; lia).
    assert (fval x * fval (fmul round_down (pow_bound round_down x n)
                                           (pow_bound round_down x n))
            <= fval x * (P * P))%Z as H6
      by (apply Z.mul_le_mono_nonneg_l; lia).
    lia.
  - pose proof (fval_nonneg _ IHw) as H0.
    destruct (fmul_down_sound _ _ IHw IHw) as [Hw2 H2].
    split; [exact Hw2 |].
    rewrite Pos2Z.inj_xO, Z.pow_twice_r. nia.
  - split; [exact Hx | rewrite Z.pow_1_r; lia].
Qed.

Lemma pow_bound_up_sound x n :
  fwf x ->
  fwf (pow_bound round_up x n) /\
  (fval x ^ Zpos n <= fval (pow_bound round_up x n))%Z.
Proof.
  intros Hx. pose proof (fval_nonneg x Hx) as Hx0.
  induction n as [n [IHw IH] | n [IHw IH] |]; simpl pow_bound.
  - assert (0 <= fval x ^ Zpos n)%Z as H0 by (apply Z.pow_nonneg; exact Hx0).
    destruct (fmul_up_sound _ _ IHw IHw) as [Hw2 H2].
    destruct (fmul_up_sound _ _ Hx Hw2) as [Hw3 H3].
    split; [exact Hw3 |].
    rewrite Pos2Z.inj_xI, Z.pow_add_r, Z.pow_1_r, Z.pow_twice_r by lia.
    set (P := (fval x ^ Zpos n)%Z) in *.
    assert (P * P <= fval (pow_bound round_up x n)
                     * fval (pow_bound round_up x n))%Z as H5
      by (apply Z.mul_le_mono_nonneg; lia).
    assert (fval x * (P * P)
            <= fval x * fval (fmul round_up (pow_bound round_up x n)
                                            (pow_bound round_up x n)))%Z as H6
      by (apply Z.mul_le_mono_nonneg_l; lia).
    lia.
  - assert (0 <= fval x ^ Zpos n)%Z as H0 by (apply Z.pow_nonneg; exact Hx0).
    destruct (fmul_up_sound _ _ IHw IHw) as [Hw2 H2].
    split; [exact Hw2 |].
    rewrite Pos2Z.inj_xO, Z.pow_twice_r. nia.
  - split; [exact Hx | rewrite Z.pow_1_r; lia].
Qed.

Lemma fval_split x e :
  (0 <= e <= snd x)%Z -> fval x = (fst x * 2 ^ (snd x - e) * 2 ^ e)%Z.
Proof.
  intros He. unfold fval. rewrite <- Z.mul_assoc, <- Z.pow_add_r by lia.
  f_equal. f_equal. lia.
Qed.

Lemma fle_sound x y :
  fwf x -> fwf y -> fle x y = true -> (fval x <= fval y)%Z.
Proof.
  intros [_ Hex] [_ Hey]. unfold fle. intros H. apply Z.leb_le in H.
  set (e := Z.min (snd x) (snd y)) in *.
  rewrite (fval_split x e), (fval_split y e) by lia.
  apply Z.mul_le_mono_nonneg_r; [apply Z.pow_nonneg; lia | exact H].
Qed.

Lemma flt_sound x y :
  fwf x -> fwf y -> flt x y = true -> (fval x < fval y)%Z.
Proof.
  intros [_ Hex] [_ Hey]. unfold flt. intros H. apply Z.ltb_lt in H.
  set (e := Z.min (snd x) (snd y)) in *.
  rewrite (fval_split x e), (fval_split y e) by lia.
  apply Z.mul_lt_mono_pos_r; [apply Z.pow_pos_nonneg; lia | exact H].
Qed.

Lemma whole_fwf z : (0 <= z)%Z -> fwf (z, 0%Z) /\ fval (z, 0%Z) = z.
Proof.
  intros H. split; [split; simpl; lia | unfold fval; simpl; lia].
Qed.

Lemma power_product_bounds x n y k :
  (0 <= x)%Z -> (0 <= y)%Z ->
  fwf (fmul round_up (pow_bound round_up (x, 0%Z) n)
                     (pow_bound round_up (y, 0%Z) k)) /\
  fwf (fmul round_down (pow_bound round_down (x, 0%Z) n)
                       (pow_bound round_down (y, 0%Z) k)) /\
  (fval (fmul round_down (pow_bound round_down (x, 0%Z) n)
                         (pow_bound round_down (y, 0%Z) k))
   <= x ^ Zpos n * y ^ Zpos k
   <= fval (fmul round_up (pow_bound round_up (x, 0%Z) n)
                          (pow_bound round_up (y, 0%Z) k)))%Z.
Proof.
  intros Hx Hy.
  destruct (whole_fwf x Hx) as [Wx Vx]. destruct (whole_fwf y Hy) as [Wy Vy].
  destruct (pow_bound_up_sound _ n Wx) as [Wxu Hxu].
  destruct (pow_bound_up_sound _ k Wy) as [Wyu Hyu].
  destruct (pow_bound_down_sound _ n Wx) as [Wxd Hxd].
  destruct (pow_bound_down_sound _ k Wy) as [Wyd Hyd].
  destruct (fmul_up_sound _ _ Wxu Wyu) as [Wu Hu].
  destruct (fmul_down_sound _ _ Wxd Wyd) as [Wd Hd].
  rewrite Vx in Hxu, Hxd. rewrite Vy in Hyu, Hyd.
  pose proof (fval_nonneg _ Wxd). pose proof (fval_nonneg _ Wyd).
  assert (0 <= x ^ Zpos n)%Z by (apply Z.pow_nonneg; exact Hx).
  assert (0 <= y ^ Zpos k)%Z by (apply Z.pow_nonneg; exact Hy).
  split; [exact Wu |]. split; [exact Wd |]. nia.
Qed.

Lemma cert_le_sound x n y k u v :
  (0 <= x)%Z -> (0 <= y)%Z -> (0 <= u)%Z -> (0 <= v)%Z ->
  cert_le x n y k u v = true ->
  (x ^ Zpos n * y ^ Zpos k <= u ^ Zpos n * v ^ Zpos k)%Z.
Proof.
  intros Hx Hy Hu Hv H. unfold cert_le in H.
  destruct (power_product_bounds x n y k Hx Hy) as [W1 [_ [_ B1]]].
  destruct (power_product_bounds u n v k Hu Hv) as [_ [W2 [B2 _]]].
  apply fle_sound in H; [lia | exact W1 | exact W2].
Qed.

Lemma cert_lt_sound x n y k u v :
  (0 <= x)%Z -> (0 <= y)%Z -> (0 <= u)%Z -> (0 <= v)%Z ->
  cert_lt x n y k u v = true ->
  (x ^ Zpos n * y ^ Zpos k < u ^ Zpos n * v ^ Zpos k)%Z.
Proof.
  intros Hx Hy Hu Hv H. unfold cert_lt in H.
  destruct (power_product_bounds x n y k Hx Hy) as [W1 [_ [_ B1]]].
  destruct (power_product_bounds u n v k Hu Hv) as [_ [W2 [B2 _]]].
  apply flt_sound in H; [lia | exact W1 | exact W2].
Qed.

(** ** The root search *)

Lemma root_bits_spec (ok : Z -> bool) (m : Z) :
  (forall x y, (0 <= x <= y)%Z -> ok y = true -> ok x = true) ->
  ok m = true -> ok (m + 1)%Z = false ->
  forall n acc,
    (0 <= acc <= m)%Z -> (m < acc + 2 ^ Z.of_nat n)%Z ->
    root_bits ok n acc = m.
Proof.
  intros Hanti Hm Hm1. induction n as [|n IH]; intros acc Hacc Hlt.
  - simpl in *. lia.
  - rewrite Nat2Z.inj_succ, Z.pow_succ_r in Hlt by lia.
    assert (0 < 2 ^ Z.of_nat n)%Z as Hp by (apply Z.pow_pos_nonneg; lia).
    simpl root_bits.
    destruct (ok (acc + 2 ^ Z.of_nat n)%Z) eqn:E.
    + apply IH; [| lia]. split; [lia |].
      destruct (Z.le_gt_cases (acc + 2 ^ Z.of_nat n) m) as [Hle | Hgt];
        [exact Hle | exfalso].
      rewrite (Hanti (m + 1)%Z (acc + 2 ^ Z.of_nat n)%Z) in Hm1;
        [discriminate | lia | exact E].
    + apply IH; [exact Hacc |].
      destruct (Z.le_gt_cases (acc + 2 ^ Z.of_nat n) m) as [Hle | Hgt];
        [exfalso | lia].
      rewrite (Hanti (acc + 2 ^ Z.of_nat n)%Z m) in E;
        [discriminate | lia | exact Hm].
Qed.

Lemma scaled_pow_floor_certified scale base ex (a : positive) (m : Z) :
  Qnum ex = Zpos a ->
  (0 <= scale)%Z -> (0 <= Qnum base)%Z ->
  (0 <= m < 2 ^ (Z.log2 scale + 1
                 + (Z.log2 (Z.max 1 (Qnum base)) + 1)
                   * (Zpos a / Zpos (Qden ex) + 1)))%Z ->
  cert_le m (Qden ex) (Zpos (Qden base)) a scale (Qnum base) = true ->
  cert_lt scale (Qden ex) (Qnum base) a (m + 1) (Zpos (Qden base)) = true ->
  scaled_pow_floor scale base ex = m.
Proof.
  intros Ha Hs Hp Hm Hle Hlt. unfold scaled_pow_floor. rewrite Ha.
  apply cert_le_sound in Hle; try lia.
  apply cert_lt_sound in Hlt; try lia.
  assert (0 <= Z.pos (Qden base) ^ Z.pos a)%Z as Hq
    by (apply Z.pow_nonneg; lia).
  apply root_bits_spec.
  - intros x y Hxy Hy. apply Z.leb_le in Hy. apply Z.leb_le.
    assert (x ^ Z.pos (Qden ex) <= y ^ Z.pos (Qden ex))%Z
      by (apply Z.pow_le_mono_l; lia).
    nia.
  - apply Z.leb_le. exact Hle.
  - apply Z.leb_gt. exact Hlt.
  - lia.
  - rewrite Z2Nat.id; [lia |].
    pose proof (Z.log2_nonneg scale).
    pose proof (Z.log2_nonneg (Z.max 1 (Qnum base))).
    assert (0 <= Z.pos a / Z.pos (Qden ex))%Z by (apply Z.div_pos; lia).
    nia.
Qed.

Lemma format_pct_pow_certified base ex (a : positive) (m : Z) :
  Qle_bool 0 base = true ->
  Qnum (Qred ex) = Zpos a ->
  (0 <= Qnum (Qred base))%Z ->
  (0 <= m < 2 ^ (Z.log2 20000 + 1
                 + (Z.log2 (Z.max 1 (Qnum (Qred base))) + 1)
                   * (Zpos a / Zpos (Qden (Qred ex)) + 1)))%Z ->
  cert_le m (Qden (Qred ex)) (Zpos (Qden (Qred base))) a 20000
    (Qnum (Qred base)) = true ->
  cert_lt 20000 (Qden (Qred ex)) (Qnum (Qred base)) a (m + 1)
    (Zpos (Qden (Qred base))) = true ->
  format_pct_pow base ex
  = (format_2f (negb (Qle_bool 1 (Qred base))) ((m - 19999) / 2) ++ "%")%string.
Proof.
  intros Hb Ha Hp Hm Hle Hlt. unfold format_pct_pow. rewrite Hb.
  cbv zeta.
  rewrite (scaled_pow_floor_certified 20000 (Qred base) (Qred ex) a m);
    [reflexivity | exact Ha | lia | exact Hp | exact Hm | exact Hle | exact Hlt].
Qed.

(** The two cells of scenario A. *)
Lemma scenario_A_cell_366 :
  format_pct_pow (1 + (inject_Z 110 / inject_Z 100 - 1))
                 (1 / (inject_Z 366 / 365.25))
  = "9.98%"%string.
Proof.
  rewrite (format_pct_pow_certified _ _ 487%positive 21995%Z);
    try (vm_compute; reflexivity).
  - vm_compute. discriminate.
  - split; vm_compute; [discriminate | reflexivity].
Qed.

Lemma scenario_A_cell_365 :
  format_pct_pow (1 + (inject_Z 121 / inject_Z 110 - 1))
                 (1 / (inject_Z 365 / 365.25))
  = "10.01%"%string.
Proof.
  rewrite (format_pct_pow_certified _ _ 1461%positive 22001%Z);
    try (vm_compute; reflexivity).
  - vm_compute. discriminate.
  - split; vm_compute; [discriminate | reflexivity].
Qed.

(** ** Scenario A *)

Lemma scenario_A_returns :
  try_returns scenario_A_dates [Some 1%nat; Some 2%nat; None] 1
    [Some (inject_Z 100); Some (inject_Z 110); Some (inject_Z 121)]
  = Some ["9.98%"; "10.01%"; ""]%string.
Proof.
  assert (H01 : timedelta_days (ymd 2021 1 1) (ymd 2020 1 1) = 366%Z)
    by (vm_compute; reflexivity).
  assert (H12 : timedelta_days (ymd 2022 1 1) (ymd 2021 1 1) = 365%Z)
    by (vm_compute; reflexivity).
  assert (G366 : Qle_bool (inject_Z 1 * 0.5) (inject_Z 366 / 365.25) = true)
    by (vm_compute; reflexivity).
  assert (G365 : Qle_bool (inject_Z 1 * 0.5) (inject_Z 365 / 365.25) = true)
    by (vm_compute; reflexivity).
  assert (Z100 : Qeq_bool (inject_Z 100) 0 = false) by reflexivity.
  assert (Z110 : Qeq_bool (inject_Z 110) 0 = false) by reflexivity.
  unfold try_returns, enumerate, scenario_A_dates.
  cbn [length seq combine mapM fst snd].
  unfold return_cell, iloc. cbn [nth_error bind].
  rewrite H01, H12, Z100, Z110. cbn [negb].
  change (366 >? 0)%Z with true. change (365 >? 0)%Z with true.
  cbv beta iota. rewrite G366, G365.
  rewrite scenario_A_cell_366, scenario_A_cell_365.
  reflexivity.
Qed.

Lemma scenario_A_value :
  period_result decimal_literal scenario_A_dates [scenario_A_column] 1
  = ([RemovedRows 1 1],
     [("From", ["01/01/2020"; "01/01/2021"]);
      ("To (1Yr)", ["01/01/2021"; "01/01/2022"]);
      (" S (1Yr)", ["9.98%"; "10.01%"])]%string).
Proof.
  assert (E1 : sorted_dates scenario_A_dates = scenario_A_dates)
    by (vm_compute; reflexivity).
  assert (E2 : compute_to_indices scenario_A_dates 1
               = [Some 1%nat; Some 2%nat; None]) by (vm_compute; reflexivity).
  assert (E3 : span_warning scenario_A_dates 1 = [])
    by (vm_compute; reflexivity).
  assert (E4 : sort_columns (argsort scenario_A_dates) [scenario_A_column]
               = [scenario_A_column]) by (vm_compute; reflexivity).
  assert (E5 : process_column decimal_literal scenario_A_dates
                 [Some 1%nat; Some 2%nat; None] 1 scenario_A_column
               = (["9.98%"; "10.01%"; ""]%string, [])).
  { unfold process_column.
    change (coerce_series decimal_literal (snd scenario_A_column))
      with [Some (inject_Z 100); Some (inject_Z 110); Some (inject_Z 121)].
    rewrite scenario_A_returns. reflexivity. }
  assert (E0 : NoDup (map fst [scenario_A_column]))
    by (repeat constructor; simpl; tauto).
  rewrite (period_result_distinct _ _ _ _ E0), E1, E2, E3, E4.
  cbn [map concat fst snd app]. rewrite E5.
  vm_compute. reflexivity.
Qed.

(** C3 (scenario A), as amended.  Whatever the host parsers, provided the
    numeric one reads the three numerals: the period result for one year
    has exactly the two rows 01/01/2020 to 01/01/2021 and 01/01/2021 to
    01/01/2022, the row of 01/01/2022 is dropped and reported, and the
    return cells are 9.98% (366 days elapsed) and 10.01% (365 days
    elapsed). *)
Theorem scenario_A_period_result
    (parse_datetime : string -> option Timestamp)
    (to_numeric : string -> option Q) :
  to_numeric "100"%string = Some (inject_Z 100) ->
  to_numeric "110"%string = Some (inject_Z 110) ->
  to_numeric "121"%string = Some (inject_Z 121) ->
  calculate_returns_optimized parse_datetime to_numeric scenario_A 1
  = Some (scenario_A,
          [RemovedRows 1 1],
          [("From", ["01/01/2020"; "01/01/2021"]);
           ("To (1Yr)", ["01/01/2021"; "01/01/2022"]);
           (" S (1Yr)", ["9.98%"; "10.01%"])]%string).
Proof.
  intros H100 H110 H121.
  unfold calculate_returns_optimized, scenario_A. cbn [Date columns].
  rewrite to_datetime_stamps. unfold bind.
  rewrite (period_result_ext to_numeric decimal_literal).
  - rewrite scenario_A_value. reflexivity.
  - intros c Hc.
    assert (sort_columns (argsort scenario_A_dates) [scenario_A_column]
            = [scenario_A_column]) as E by (vm_compute; reflexivity).
    rewrite E in Hc. destruct Hc as [<- | []].
    unfold coerce_series, scenario_A_column.
    cbn [snd map remove_commas Ascii.eqb Bool.eqb].
    rewrite H100, H110, H121. reflexivity.
Qed.

Lemma scenario_A_period_result_witness :
  decimal_literal "100"%string = Some (inject_Z 100) /\
  decimal_literal "110"%string = Some (inject_Z 110) /\
  decimal_literal "121"%string = Some (inject_Z 121) /\
  calculate_returns_optimized no_text_dates decimal_literal scenario_A 1
  = Some (scenario_A,
          [RemovedRows 1 1],
          [("From", ["01/01/2020"; "01/01/2021"]);
           ("To (1Yr)", ["01/01/2021"; "01/01/2022"]);
           (" S (1Yr)", ["9.98%"; "10.01%"])]%string).
Proof.
  split; [reflexivity |]. split; [reflexivity |]. split; [reflexivity |].
  exact (scenario_A_period_result no_text_dates decimal_literal
           eq_refl eq_refl eq_refl).
Defined.

(** C3 as first stated fails: the return cells of scenario A are not
    10.00%, because the rate is annualised over the days that really
    elapsed (366 and 365) divided by 365.25. *)
Lemma scenario_A_not_as_specified :
  ~ exists caller messages,
      calculate_returns_optimized no_text_dates decimal_literal scenario_A 1
      = Some (caller, messages, scenario_A_as_specified).
Proof.
  intros [caller [messages H]].
  unfold calculate_returns_optimized, scenario_A in H. cbn [Date columns] in H.
  rewrite to_datetime_stamps in H. unfold bind in H.
  rewrite scenario_A_value in H. discriminate H.
Qed.

(** * Further properties of the code *)

(** ** The calendar

    [civil_from_days] and [days_from_civil] are inverse to each other on
    the dates of the calendar, and [days_from_civil] follows the calendar
    order; the year shift inherits what follows. *)

Section Calendar.

Local Open Scope Z_scope.

Ltac split_tests :=
  repeat match goal with
         | |- context [Z.ltb ?a ?b] => destruct (Z.ltb_spec a b)
         | |- context [Z.leb ?a ?b] => destruct (Z.leb_spec a b)
         | |- context [Z.eqb ?a ?b] => destruct (Z.eqb_spec a b)
         | |- context [Z.gtb ?a ?b] => rewrite (Z.gtb_ltb a b)
         | H : context [Z.ltb ?a ?b] |- _ => destruct (Z.ltb_spec a b)
         | H : context [Z.leb ?a ?b] |- _ => destruct (Z.leb_spec a b)
         | H : context [Z.eqb ?a ?b] |- _ => destruct (Z.eqb_spec a b)
         end; cbn [andb orb negb] in *.

Lemma days_in_month_bounds y m : 28 <= days_in_month y m <= 31.
Proof. unfold days_in_month. split_tests; destruct (is_leap y); lia. Qed.

Lemma days_from_civil_same_year Y m d m' d' :
  1 <= m <= 12 -> 1 <= m' <= 12 ->
  1 <= d <= days_in_month Y m -> 1 <= d' ->
  m < m' ->
  days_from_civil (mkCivil Y m d) < days_from_civil (mkCivil Y m' d').
Proof.
  intros Hm Hm' Hd Hd' Hlt.
  unfold days_from_civil, days_in_month, is_leap in *.
  cbn [c_year c_month c_day] in *.
  split_tests.
  all: try lia.
  all: Z.div_mod_to_equations; lia.
Qed.

Lemma days_from_civil_year_bounds Y m d :
  1 <= m <= 12 -> 1 <= d <= 31 ->
  days_from_civil (mkCivil Y 1 1) <= days_from_civil (mkCivil Y m d)
  < days_from_civil (mkCivil (Y + 1) 1 1).
Proof.
  intros Hm Hd. unfold days_from_civil. cbn [c_year c_month c_day].
  split_tests; try lia.
  all: Z.div_mod_to_equations; lia.
Qed.

Lemma year_start_monotone Y Y' :
  Y <= Y' ->
  days_from_civil (mkCivil Y 1 1) <= days_from_civil (mkCivil Y' 1 1).
Proof.
  intros H. unfold days_from_civil. cbn [c_year c_month c_day].
  split_tests; try lia.
  all: Z.div_mod_to_equations; lia.
Qed.

Lemma days_from_civil_lt c c' :
  valid_civil c -> valid_civil c' -> civil_lt c c' ->
  days_from_civil c < days_from_civil c'.
Proof.
  destruct c as [Y m d], c' as [Y' m' d'].
  unfold valid_civil, civil_lt. cbn [c_year c_month c_day].
  intros [Hm Hd] [Hm' Hd'] Hlt.
  pose proof (days_in_month_bounds Y m). pose proof (days_in_month_bounds Y' m').
  destruct Hlt as [Hy | [-> [Hmm | [-> Hdd]]]].
  - pose proof (days_from_civil_year_bounds Y m d Hm ltac:(lia)).
    pose proof (days_from_civil_year_bounds Y' m' d' Hm' ltac:(lia)).
    pose proof (year_start_monotone (Y + 1) Y' ltac:(lia)). lia.
  - apply days_from_civil_same_year; lia.
  - unfold days_from_civil. cbn [c_year c_month c_day]. lia.
Qed.

Lemma civil_from_days_valid z : valid_civil (civil_from_days z).
Proof.
  unfold valid_civil.
  unfold civil_from_days, days_in_month, is_leap. cbv zeta. cbn [c_year c_month c_day].
  set (doe := (z + 719468) mod 146097).
  set (era := (z + 719468) / 146097).
  assert (0 <= doe < 146097) by (apply Z.mod_pos_bound; lia).
  clearbody doe era.
  set (yoe := (doe - doe / 1460 + doe / 36524 - doe / 146096) / 365).
  set (doy := doe - (365 * yoe + yoe / 4 - yoe / 100)).
  set (mp := (5 * doy + 2) / 153).
  assert (0 <= yoe <= 399 /\ 0 <= doy <= 365) as [Hy Hd].
  { subst doy yoe. Z.div_mod_to_equations. lia. }
  split_tests.
  all: subst mp doy yoe; Z.div_mod_to_equations; lia.
Qed.

Lemma days_from_civil_from_days z : days_from_civil (civil_from_days z) = z.
Proof.
  unfold civil_from_days, days_from_civil. cbv zeta. cbn [c_year c_month c_day].
  set (doe := (z + 719468) mod 146097).
  set (era := (z + 719468) / 146097).
  assert (z = era * 146097 + doe - 719468)
    by (subst doe era; Z.div_mod_to_equations; lia).
  assert (0 <= doe < 146097) by (apply Z.mod_pos_bound; lia).
  clearbody doe era. subst z.
  set (yoe := (doe - doe / 1460 + doe / 36524 - doe / 146096) / 365).
  set (doy := doe - (365 * yoe + yoe / 4 - yoe / 100)).
  set (mp := (5 * doy + 2) / 153).
  assert (0 <= yoe <= 399 /\ 0 <= doy <= 365) as [Hy Hd].
  { subst doy yoe. Z.div_mod_to_equations. lia. }
  assert (0 <= mp <= 11) by (subst mp; Z.div_mod_to_equations; lia).
  split_tests; try (exfalso; lia).
  all: subst doy; clearbody mp yoe; Z.div_mod_to_equations; lia.
Qed.

Lemma shift_years_valid years c : valid_civil c -> valid_civil (shift_years years c).
Proof.
  destruct c as [Y m d]. unfold valid_civil, shift_years.
  cbn [c_year c_month c_day]. intros [Hm Hd].
  pose proof (days_in_month_bounds (Y + years) m). lia.
Qed.

Lemma civil_from_days_le z z' :
  z <= z' ->
  civil_from_days z = civil_from_days z' \/
  civil_lt (civil_from_days z) (civil_from_days z').
Proof.
  intros Hle.
  pose proof (civil_from_days_valid z) as Hv.
  pose proof (civil_from_days_valid z') as Hv'.
  pose proof (days_from_civil_from_days z) as Hr.
  pose proof (days_from_civil_from_days z') as Hr'.
  destruct (civil_from_days z) as [Y m d], (civil_from_days z') as [Y' m' d'].
  destruct (Z.lt_trichotomy Y Y') as [HY | [-> | HY]];
    [right; left; exact HY | |].
  - destruct (Z.lt_trichotomy m m') as [Hm | [-> | Hm]];
      [right; right; split; [reflexivity | left; exact Hm] | |].
    + destruct (Z.lt_trichotomy d d') as [Hd | [-> | Hd]];
        [right; right; split; [reflexivity |]; right; split;
           [reflexivity | exact Hd]
        | left; reflexivity |].
      exfalso.
      assert (days_from_civil (mkCivil Y' m' d') < days_from_civil (mkCivil Y' m' d))
        by (apply days_from_civil_lt; try assumption;
            right; split; [reflexivity |]; right; split;
            [reflexivity | exact Hd]).
      lia.
    + exfalso.
      assert (days_from_civil (mkCivil Y' m' d') < days_from_civil (mkCivil Y' m d))
        by (apply days_from_civil_lt; try assumption;
            right; split; [reflexivity |]; left; exact Hm).
      lia.
  - exfalso.
    assert (days_from_civil (mkCivil Y' m' d') < days_from_civil (mkCivil Y m d))
      by (apply days_from_civil_lt; try assumption; left; exact HY).
    lia.
Qed.

Lemma DateOffset_years_shift years t :
  DateOffset_years years t
  = days_from_civil (shift_years years (civil_from_days (date_part t)))
    * NS_PER_DAY + time_part t.
Proof. reflexivity. Qed.

Lemma shifted_day_monotone years z z' :
  z <= z' ->
  days_from_civil (shift_years years (civil_from_days z))
  <= days_from_civil (shift_years years (civil_from_days z')).
Proof.
  intros Hle.
  pose proof (civil_from_days_valid z) as Hv.
  pose proof (civil_from_days_valid z') as Hv'.
  destruct (civil_from_days_le z z' Hle) as [-> | Hlt]; [lia |].
  destruct (civil_from_days z) as [Y m d], (civil_from_days z') as [Y' m' d'].
  unfold civil_lt in Hlt. cbn [c_year c_month c_day] in Hlt.
  destruct Hlt as [Hy | [-> [Hm | [-> Hd]]]].
  - apply Z.lt_le_incl, days_from_civil_lt;
      [apply shift_years_valid, Hv | apply shift_years_valid, Hv' |].
    left. cbn. lia.
  - apply Z.lt_le_incl, days_from_civil_lt;
      [apply shift_years_valid, Hv | apply shift_years_valid, Hv' |].
    right. cbn. split; [reflexivity | left; exact Hm].
  - unfold shift_years, days_from_civil. cbn [c_year c_month c_day]. lia.
Qed.

Lemma time_part_bounds t : 0 <= time_part t < NS_PER_DAY.
Proof. unfold time_part, NS_PER_DAY. apply Z.mod_pos_bound. lia. Qed.

Lemma date_time_parts t : t = date_part t * NS_PER_DAY + time_part t.
Proof.
  unfold date_part, time_part, NS_PER_DAY.
  pose proof (Z.div_mod t (86400 * 1000000000)). lia.
Qed.

Lemma DateOffset_years_monotone years t t' :
  time_part t <= time_part t' -> t <= t' ->
  DateOffset_years years t <= DateOffset_years years t'.
Proof.
  intros Htp Hle. rewrite !DateOffset_years_shift.
  assert (date_part t <= date_part t') as Hd
    by (unfold date_part, NS_PER_DAY; apply Z.div_le_mono; lia).
  pose proof (shifted_day_monotone years _ _ Hd).
  unfold NS_PER_DAY in *. nia.
Qed.

Lemma DateOffset_years_increasing y y' t :
  y < y' -> DateOffset_years y t < DateOffset_years y' t.
Proof.
  intros Hlt. rewrite !DateOffset_years_shift.
  pose proof (civil_from_days_valid (date_part t)) as Hv.
  assert (days_from_civil (shift_years y (civil_from_days (date_part t)))
          < days_from_civil (shift_years y' (civil_from_days (date_part t)))).
  { apply days_from_civil_lt; try (apply shift_years_valid, Hv).
    left. cbn. lia. }
  unfold NS_PER_DAY. lia.
Qed.

Lemma DateOffset_years_zero t : DateOffset_years 0 t = t.
Proof.
  rewrite DateOffset_years_shift.
  pose proof (civil_from_days_valid (date_part t)) as Hv.
  pose proof (days_from_civil_from_days (date_part t)) as Hr.
  destruct (civil_from_days (date_part t)) as [Y m d].
  unfold valid_civil in Hv. cbn [c_year c_month c_day] in Hv.
  unfold shift_years. cbn [c_year c_month c_day].
  rewrite Z.add_0_r. rewrite Z.min_l by lia. rewrite Hr.
  symmetry. apply date_time_parts.
Qed.

Lemma DateOffset_years_later years t :
  1 <= years -> t < DateOffset_years years t.
Proof.
  intros H. rewrite <- (DateOffset_years_zero t) at 1.
  apply DateOffset_years_increasing. lia.
Qed.

Lemma same_date_years_on Y m d y :
  0 <= y ->
  days_from_civil (mkCivil Y m d) + 365 * y
  <= days_from_civil (mkCivil (Y + y) m d).
Proof.
  intros Hy. unfold days_from_civil. cbn [c_year c_month c_day].
  split_tests; try lia.
  all: Z.div_mod_to_equations; lia.
Qed.

Lemma leap_day_years_on Y y :
  is_leap Y = true -> 1 <= y ->
  days_from_civil (mkCivil Y 2 29) + 365 * y
  <= days_from_civil (mkCivil (Y + y) 2 28).
Proof.
  intros Hl Hy. unfold days_from_civil, is_leap in *.
  cbn [c_year c_month c_day] in *.
  split_tests; try lia; try discriminate.
  all: Z.div_mod_to_equations; lia.
Qed.

(** A shift by [y] years is a shift by [365 * y] days or more, the clamp
    of the leap day included. *)
Lemma shift_years_at_least y c :
  valid_civil c -> 0 <= y ->
  days_from_civil c + 365 * y <= days_from_civil (shift_years y c).
Proof.
  destruct c as [Y m d]. unfold valid_civil, shift_years.
  cbn [c_year c_month c_day]. intros [Hm Hd] Hy.
  destruct (Z.le_gt_cases d (days_in_month (Y + y) m)) as [Hle | Hgt].
  - rewrite Z.min_l by exact Hle. apply same_date_years_on, Hy.
  - rewrite Z.min_r by lia.
    assert (y <> 0) as Hy0 by (intros ->; rewrite Z.add_0_r in Hgt; lia).
    unfold days_in_month in *.
    destruct (Z.eqb_spec m 2) as [-> | Hm2].
    + destruct (is_leap Y) eqn:EY, (is_leap (Y + y)) eqn:EY'; try lia.
      replace d with 29 by lia. apply leap_day_years_on; [exact EY | lia].
    + destruct ((m =? 4) || (m =? 6) || (m =? 9) || (m =? 11))%bool; lia.
Qed.

Lemma DateOffset_years_at_least y t :
  0 <= y -> t + 365 * y * NS_PER_DAY <= DateOffset_years y t.
Proof.
  intros Hy. rewrite DateOffset_years_shift.
  pose proof (shift_years_at_least y (civil_from_days (date_part t))
                (civil_from_days_valid _) Hy) as H.
  rewrite days_from_civil_from_days in H.
  rewrite (date_time_parts t) at 1.
  unfold NS_PER_DAY in *. nia.
Qed.

End Calendar.

(** ** More on the aligner *)

(** X1.  On any column, sorted or not: the date at the index the aligner
    answers is never after the target, and it is the target itself exactly
    when the target occurs in the slice [dates[b:]]. *)
Theorem locate_never_after_target
    (dates : list Timestamp) (t : Timestamp) (b r : nat) :
  find_closest_trading_day dates t b = Some r ->
  exists d,
    nth_error dates r = Some d /\ (d <= t)%Z /\
    (d = t <-> In t (skipn b dates)).
Proof.
  intros E. pose proof (find_closest_trading_day_cases dates t b) as H.
  rewrite E in H.
  inversion H as [| | n _ Hn _ | n d _ Hnot Hn Hd _ |].
  - exists t. split; [exact Hn | split; [lia |]].
    split; [intros _ | reflexivity].
    rewrite <- nth_error_skipn in Hn. eapply nth_error_In, Hn.
  - exists d. split; [exact Hn | split; [lia |]].
    split; [lia | intros Hin; elim (Hnot Hin)].
Qed.

Lemma locate_never_after_target_witness :
  find_closest_trading_day [5; 1; 3]%Z 2%Z 0 = Some 1%nat /\
  exists d,
    nth_error [5; 1; 3]%Z 1 = Some d /\ (d <= 2)%Z /\
    (d = 2%Z <-> In 2%Z (skipn 0 [5; 1; 3]%Z)).
Proof.
  split; [reflexivity |].
  exact (locate_never_after_target [5; 1; 3]%Z 2%Z 0 1 eq_refl).
Defined.

Lemma find_closest_some_bounds dates t b r :
  find_closest_trading_day dates t b = Some r ->
  exists d, In d (skipn b dates) /\ (d <= t)%Z /\
            (t <= last (skipn b dates) 0)%Z.
Proof.
  intros E. pose proof (find_closest_trading_day_cases dates t b) as H.
  rewrite E in H.
  inversion H as [| | n Hle Hn _ | n d Hle _ Hn Hd _ |].
  - exists t. repeat split; [| lia | exact Hle].
    rewrite <- nth_error_skipn in Hn. eapply nth_error_In, Hn.
  - exists d. repeat split; [| lia | exact Hle].
    rewrite <- nth_error_skipn in Hn. eapply nth_error_In, Hn.
Qed.

Lemma find_closest_none_cases dates t b :
  find_closest_trading_day dates t b = None ->
  skipn b dates = [] \/
  (last (skipn b dates) 0 < t)%Z \/
  (forall x, In x (skipn b dates) -> (t < x)%Z).
Proof.
  intros E. pose proof (find_closest_trading_day_cases dates t b) as H.
  rewrite E in H.
  inversion H as [E0 | Hne Hb | | | Hne Hle Hnot Hnone]; [tauto | tauto |].
  right. right. intros x Hx.
  destruct (Z.lt_trichotomy t x) as [Hlt | [Heq | Hgt]];
    [exact Hlt | subst x; elim (Hnot Hx) | elim (Hnone x Hx Hgt)].
Qed.

(** X2.  On any column, the aligner answers unmatched exactly when the
    slice [dates[b:]] is empty, or its last date is before the target, or
    every date of the slice is after the target. *)
Theorem locate_unmatched_iff
    (dates : list Timestamp) (t : Timestamp) (b : nat) :
  find_closest_trading_day dates t b = None <->
  skipn b dates = [] \/
  (last (skipn b dates) 0 < t)%Z \/
  (forall x, In x (skipn b dates) -> (t < x)%Z).
Proof.
  split; [apply find_closest_none_cases |].
  intros Hcase.
  destruct (find_closest_trading_day dates t b) as [r|] eqn:E;
    [exfalso | reflexivity].
  destruct (find_closest_some_bounds dates t b r E) as [d [Hin [Hd Hle]]].
  destruct Hcase as [E0 | [Hb | Hall]].
  - rewrite E0 in Hin. exact Hin.
  - lia.
  - specialize (Hall d Hin). lia.
Qed.

(** X3.  On a sorted column the aligner is monotone: a later target
    together with a lower bound that is not smaller never gives an earlier
    index, nor an earlier date. *)
Theorem locate_monotone_in_target_and_bound
    (dates : list Timestamp) (t t' : Timestamp) (b b' j j' : nat) :
  Sorted Z.le dates ->
  (b <= b')%nat -> (t <= t')%Z ->
  find_closest_trading_day dates t b = Some j ->
  find_closest_trading_day dates t' b' = Some j' ->
  (j <= j')%nat /\
  exists d d',
    nth_error dates j = Some d /\ nth_error dates j' = Some d' /\
    (d <= d')%Z.
Proof.
  intros Hs Hb Ht E E'.
  pose proof (locate_monotone dates t t' b b' j j' Hs Hb Ht E E') as Hjj.
  split; [exact Hjj |].
  pose proof (find_closest_in_range _ _ _ _ E) as Hr.
  pose proof (find_closest_in_range _ _ _ _ E') as Hr'.
  destruct (nth_error dates j) as [d|] eqn:Ed;
    [| apply nth_error_None in Ed; lia].
  destruct (nth_error dates j') as [d'|] eqn:Ed';
    [| apply nth_error_None in Ed'; lia].
  exists d, d'. repeat split.
  eapply (sorted_nth dates Hs); eassumption.
Qed.

Lemma locate_monotone_in_target_and_bound_witness :
  Sorted Z.le [1; 3; 3; 8]%Z /\ (0 <= 1)%nat /\ (2 <= 5)%Z /\
  find_closest_trading_day [1; 3; 3; 8]%Z 2%Z 0 = Some 0%nat /\
  find_closest_trading_day [1; 3; 3; 8]%Z 5%Z 1 = Some 2%nat /\
  (0 <= 2)%nat /\
  exists d d',
    nth_error [1; 3; 3; 8]%Z 0 = Some d /\
    nth_error [1; 3; 3; 8]%Z 2 = Some d' /\
    (d <= d')%Z.
Proof.
  assert (Hs : Sorted Z.le [1; 3; 3; 8]%Z) by (repeat constructor; lia).
  assert (Hb : (0 <= 1)%nat) by lia.
  assert (Ht : (2 <= 5)%Z) by lia.
  split; [exact Hs |]. split; [exact Hb |]. split; [exact Ht |].
  split; [reflexivity |]. split; [reflexivity |].
  exact (locate_monotone_in_target_and_bound [1; 3; 3; 8]%Z 2%Z 5%Z 0 1 0 2
           Hs Hb Ht eq_refl eq_refl).
Defined.

(** X4.  In the period computation the dates are sorted first, so a
    matched row [i] has its end row [j] at or after it, the end date lies
    between the start date and the start date shifted by the period, and
    the elapsed whole days are never negative. *)
Theorem matched_row_window
    (parsed : list Timestamp) (years : Z) (i j : nat) (d : Timestamp) :
  nth_error (sorted_dates parsed) i = Some d ->
  nth_error (compute_to_indices (sorted_dates parsed) years) i
    = Some (Some j) ->
  (i <= j < length parsed)%nat /\
  exists e,
    nth_error (sorted_dates parsed) j = Some e /\
    (d <= e <= DateOffset_years years d)%Z /\
    (0 <= timedelta_days e d)%Z.
Proof.
  intros Hd Hj. rewrite nth_error_compute_to_indices, Hd in Hj.
  simpl in Hj. injection Hj as Hj.
  pose proof (find_closest_in_range _ _ _ _ Hj) as Hr.
  rewrite length_sorted_dates in Hr. split; [exact Hr |].
  pose proof (find_closest_trading_day_cases (sorted_dates parsed)
                (DateOffset_years years d) i) as H.
  rewrite Hj in H.
  assert (forall e, nth_error (sorted_dates parsed) j = Some e ->
                    (e <= DateOffset_years years d)%Z ->
                    (d <= e <= DateOffset_years years d)%Z /\
                    (0 <= timedelta_days e d)%Z) as Hk.
  { intros e He Hle.
    assert (d <= e)%Z as Hde.
    { eapply (sorted_nth (sorted_dates parsed) (sorted_dates_Sorted parsed));
        [| exact Hd | exact He]. lia. }
    split; [lia |]. unfold timedelta_days, NS_PER_DAY.
    apply Z.div_pos; lia. }
  inversion H as [| | n _ Hn _ Hjn | n e _ _ Hn He _ Hjn |]; subst j.
  - eexists. split; [exact Hn |]. apply Hk; [exact Hn | lia].
  - exists e. split; [exact Hn |]. apply Hk; [exact Hn | lia].
Qed.

Lemma matched_row_window_witness :
  nth_error (sorted_dates scenario_A_dates) 0 = Some (ymd 2020 1 1) /\
  nth_error (compute_to_indices (sorted_dates scenario_A_dates) 1) 0
    = Some (Some 1%nat) /\
  (0 <= 1 < length scenario_A_dates)%nat /\
  exists e,
    nth_error (sorted_dates scenario_A_dates) 1 = Some e /\
    (ymd 2020 1 1 <= e <= DateOffset_years 1 (ymd 2020 1 1))%Z /\
    (0 <= timedelta_days e (ymd 2020 1 1))%Z.
Proof.
  split; [reflexivity |]. split; [reflexivity |].
  exact (matched_row_window scenario_A_dates 1 0 1 (ymd 2020 1 1)
           eq_refl eq_refl).
Defined.

(** ** More on the cells of a column *)


(** The cell of a matched row that passes every guard of lines 99-106. *)
Lemma priced_cell to_numeric dates years col i j s e :
  length (snd col) = length dates ->
  nth_error (compute_to_indices dates years) i = Some (Some j) ->
  nth_error (coerce_series to_numeric (snd col)) i = Some (Some s) ->
  nth_error (coerce_series to_numeric (snd col)) j = Some (Some e) ->
  ~ s == 0 ->
  (0 < timedelta_days (nth j dates 0%Z) (nth i dates 0%Z))%Z ->
  inject_Z years * 0.5
  <= inject_Z (timedelta_days (nth j dates 0%Z) (nth i dates 0%Z)) / 365.25 ->
  nth_error
    (fst (process_column to_numeric dates (compute_to_indices dates years)
            years col)) i
  = Some (format_pct_pow (1 + (e / s - 1))
            (1 / (inject_Z (timedelta_days (nth j dates 0%Z) (nth i dates 0%Z))
                  / 365.25))).
Proof.
  intros Hlen Hi Hs He Hnz Hdays Hwin. unfold process_column.
  destruct (try_returns_total dates years (coerce_series to_numeric (snd col)))
    as [returns E]; [rewrite length_coerce_series; exact Hlen |].
  rewrite E. simpl.
  apply try_returns_nth in E. destruct E as [_ Hnth].
  destruct (Hnth i (Some j) Hi) as [c [Hc Hr]].
  rewrite Hr. f_equal.
  unfold return_cell, iloc in Hc. rewrite Hs, He in Hc. simpl in Hc.
  destruct (Qeq_bool s 0) eqn:Ez; [apply Qeq_bool_eq in Ez; elim (Hnz Ez) |].
  simpl in Hc.
  destruct (nth_error dates j) as [dj|] eqn:Edj; simpl in Hc; [| discriminate].
  destruct (nth_error dates i) as [di|] eqn:Edi; simpl in Hc; [| discriminate].
  rewrite (nth_error_nth _ _ 0%Z Edj), (nth_error_nth _ _ 0%Z Edi) in *.
  destruct (Z.gtb_spec (timedelta_days dj di) 0) as [_ | Hle]; [| lia].
  apply Qle_bool_iff in Hwin. rewrite Hwin in Hc.
  injection Hc as <-. reflexivity.
Qed.

Lemma annual_exponent_positive (days : Z) :
  (0 < days)%Z -> 0 < 1 / (inject_Z days / 365.25).
Proof.
  intros H. unfold Qdiv. rewrite Qmult_1_l.
  apply Qinv_lt_0_compat. apply Qmult_lt_0_compat; [| reflexivity].
  unfold Qlt. simpl. lia.
Qed.

Lemma Qred_positive_num (x : Q) : 0 < x -> (0 < Qnum (Qred x))%Z.
Proof.
  intros H. rewrite <- (Qred_correct x) in H.
  unfold Qlt in H. simpl in H. lia.
Qed.

(** The root search when the comparison is known at [m] and at [m + 1]. *)
Lemma scaled_pow_floor_exact scale base ex (m : Z) :
  (0 < Qnum ex)%Z -> (0 <= scale)%Z -> (0 <= Qnum base)%Z ->
  (0 <= m < 2 ^ (Z.log2 scale + 1))%Z ->
  (m ^ Zpos (Qden ex) * Zpos (Qden base) ^ Qnum ex
   <= scale ^ Zpos (Qden ex) * Qnum base ^ Qnum ex)%Z ->
  (scale ^ Zpos (Qden ex) * Qnum base ^ Qnum ex
   < (m + 1) ^ Zpos (Qden ex) * Zpos (Qden base) ^ Qnum ex)%Z ->
  scaled_pow_floor scale base ex = m.
Proof.
  intros Ha Hs Hp Hm Hle Hlt. unfold scaled_pow_floor.
  assert (0 <= Z.pos (Qden base) ^ Qnum ex)%Z as Hq
    by (apply Z.pow_nonneg; lia).
  apply root_bits_spec.
  - intros x y Hxy Hy. apply Z.leb_le in Hy. apply Z.leb_le.
    assert (x ^ Z.pos (Qden ex) <= y ^ Z.pos (Qden ex))%Z
      by (apply Z.pow_le_mono_l; lia).
    nia.
  - apply Z.leb_le. exact Hle.
  - apply Z.leb_gt. exact Hlt.
  - lia.
  - pose proof (Z.log2_nonneg scale).
    pose proof (Z.log2_nonneg (Z.max 1 (Qnum base))).
    assert (0 <= Qnum ex / Z.pos (Qden ex))%Z by (apply Z.div_pos; lia).
    rewrite Z2Nat.id by nia.
    assert (2 ^ (Z.log2 scale + 1)
            <= 2 ^ (Z.log2 scale + 1
                    + (Z.log2 (Z.max 1 (Qnum base)) + 1)
                      * (Qnum ex / Z.pos (Qden ex) + 1)))%Z
      by (apply Z.pow_le_mono_r; nia).
    lia.
Qed.

Lemma format_pct_pow_zero base ex :
  base == 0 -> 0 < ex -> format_pct_pow base ex = "-100.00%"%string.
Proof.
  intros Hb Hex. unfold format_pct_pow.
  assert (Qle_bool 0 base = true) as ->
    by (apply Qle_bool_iff; rewrite Hb; apply Qle_refl).
  rewrite (Qred_complete base 0 Hb). change (Qred 0) with 0. cbv zeta.
  pose proof (Qred_positive_num ex Hex) as Ha.
  rewrite (scaled_pow_floor_exact 20000 0 (Qred ex) 0); [reflexivity | ..].
  - exact Ha.
  - lia.
  - simpl; lia.
  - split; [lia | reflexivity].
  - change (Qnum 0) with 0%Z. rewrite !Z.pow_0_l by lia. lia.
  - change (Qnum 0) with 0%Z. change (Z.pos (Qden 0)) with 1%Z.
    rewrite Z.pow_0_l by lia. rewrite !Z.pow_1_l by lia. lia.
Qed.

Lemma format_pct_pow_one base ex :
  base == 1 -> 0 < ex -> format_pct_pow base ex = "0.00%"%string.
Proof.
  intros Hb Hex. unfold format_pct_pow.
  assert (Qle_bool 0 base = true) as ->
    by (apply Qle_bool_iff; rewrite Hb; discriminate).
  rewrite (Qred_complete base 1 Hb). change (Qred 1) with 1. cbv zeta.
  pose proof (Qred_positive_num ex Hex) as Ha.
  rewrite (scaled_pow_floor_exact 20000 1 (Qred ex) 20000); [reflexivity | ..].
  - exact Ha.
  - lia.
  - simpl; lia.
  - split; [lia | reflexivity].
  - change (Qnum 1) with 1%Z. change (Z.pos (Qden 1)) with 1%Z.
    apply Z.le_refl.
  - change (Qnum 1) with 1%Z. change (Z.pos (Qden 1)) with 1%Z.
    rewrite !Z.pow_1_l by lia. rewrite !Z.mul_1_r.
    apply Z.pow_lt_mono_l; lia.
Qed.

Lemma format_pct_pow_negative base ex :
  base < 0 -> format_pct_pow base ex = "nan%"%string.
Proof.
  intros Hb. unfold format_pct_pow.
  destruct (Qle_bool 0 base) eqn:E; [| reflexivity].
  apply Qle_bool_iff in E. elim (Qlt_not_le _ _ Hb E).
Qed.



(** X6.  A matched row that passes the guards and whose end value is 0
    (the start value is not) gets the cell -100.00%. *)
Theorem end_value_zero_is_minus_100
    (to_numeric : string -> option Q) (dates : list Timestamp) (years : Z)
    (col : string * list string) (i j : nat) (s e : Q) :
  length (snd col) = length dates ->
  nth_error (compute_to_indices dates years) i = Some (Some j) ->
  nth_error (coerce_series to_numeric (snd col)) i = Some (Some s) ->
  nth_error (coerce_series to_numeric (snd col)) j = Some (Some e) ->
  ~ s == 0 ->
  e == 0 ->
  (0 < timedelta_days (nth j dates 0%Z) (nth i dates 0%Z))%Z ->
  inject_Z years * 0.5
  <= inject_Z (timedelta_days (nth j dates 0%Z) (nth i dates 0%Z)) / 365.25 ->
  nth_error
    (fst (process_column to_numeric dates (compute_to_indices dates years)
            years col)) i
  = Some "-100.00%"%string.
Proof.
  intros Hlen Hi Hs He Hnz Hz Hdays Hwin.
  rewrite (priced_cell to_numeric dates years col i j s e)
    by assumption.
  f_equal. apply format_pct_pow_zero.
  - rewrite Hz. field. exact Hnz.
  - apply annual_exponent_positive, Hdays.
Qed.

Lemma end_value_zero_is_minus_100_witness :
  length (snd wiped_out_column) = length scenario_A_dates /\
  nth_error (compute_to_indices scenario_A_dates 1) 0 = Some (Some 1%nat) /\
  nth_error (coerce_series decimal_literal (snd wiped_out_column)) 0
    = Some (Some (inject_Z 100)) /\
  nth_error (coerce_series decimal_literal (snd wiped_out_column)) 1
    = Some (Some (inject_Z 0)) /\
  ~ inject_Z 100 == 0 /\
  inject_Z 0 == 0 /\
  (0 < timedelta_days (nth 1 scenario_A_dates 0%Z)
                      (nth 0 scenario_A_dates 0%Z))%Z /\
  inject_Z 1 * 0.5
  <= inject_Z (timedelta_days (nth 1 scenario_A_dates 0%Z)
                              (nth 0 scenario_A_dates 0%Z)) / 365.25 /\
  nth_error
    (fst (process_column decimal_literal scenario_A_dates
            (compute_to_indices scenario_A_dates 1) 1 wiped_out_column)) 0
  = Some "-100.00%"%string.
Proof.
  assert (Hnz : ~ inject_Z 100 == 0) by (intros H; discriminate H).
  assert (Hz : inject_Z 0 == 0) by reflexivity.
  assert (Hd : (0 < timedelta_days (nth 1 scenario_A_dates 0%Z)
                                   (nth 0 scenario_A_dates 0%Z))%Z)
    by (vm_compute; reflexivity).
  assert (Hw : inject_Z 1 * 0.5
               <= inject_Z (timedelta_days (nth 1 scenario_A_dates 0%Z)
                                           (nth 0 scenario_A_dates 0%Z))
                  / 365.25)
    by (vm_compute; discriminate).
  split; [reflexivity |]. split; [reflexivity |]. split; [reflexivity |].
  split; [reflexivity |]. split; [exact Hnz |]. split; [exact Hz |].
  split; [exact Hd |]. split; [exact Hw |].
  exact (end_value_zero_is_minus_100 decimal_literal scenario_A_dates 1
           wiped_out_column 0 1 (inject_Z 100) (inject_Z 0)
           eq_refl eq_refl eq_refl eq_refl Hnz Hz Hd Hw).
Defined.

(** X7.  A matched row that passes the guards and whose end value equals
    its start value gets the cell 0.00%. *)
Theorem unchanged_value_is_zero_percent
    (to_numeric : string -> option Q) (dates : list Timestamp) (years : Z)
    (col : string * list string) (i j : nat) (s e : Q) :
  length (snd col) = length dates ->
  nth_error (compute_to_indices dates years) i = Some (Some j) ->
  nth_error (coerce_series to_numeric (snd col)) i = Some (Some s) ->
  nth_error (coerce_series to_numeric (snd col)) j = Some (Some e) ->
  ~ s == 0 ->
  e == s ->
  (0 < timedelta_days (nth j dates 0%Z) (nth i dates 0%Z))%Z ->
  inject_Z years * 0.5
  <= inject_Z (timedelta_days (nth j dates 0%Z) (nth i dates 0%Z)) / 365.25 ->
  nth_error
    (fst (process_column to_numeric dates (compute_to_indices dates years)
            years col)) i
  = Some "0.00%"%string.
Proof.
  intros Hlen Hi Hs He Hnz Heq Hdays Hwin.
  rewrite (priced_cell to_numeric dates years col i j s e)
    by assumption.
  f_equal. apply format_pct_pow_one.
  - rewrite Heq. field. exact Hnz.
  - apply annual_exponent_positive, Hdays.
Qed.

Lemma unchanged_value_is_zero_percent_witness :
  length (snd flat_column) = length scenario_A_dates /\
  nth_error (compute_to_indices scenario_A_dates 1) 0 = Some (Some 1%nat) /\
  nth_error (coerce_series decimal_literal (snd flat_column)) 0
    = Some (Some (inject_Z 100)) /\
  nth_error (coerce_series decimal_literal (snd flat_column)) 1
    = Some (Some (inject_Z 100)) /\
  ~ inject_Z 100 == 0 /\
  inject_Z 100 == inject_Z 100 /\
  (0 < timedelta_days (nth 1 scenario_A_dates 0%Z)
                      (nth 0 scenario_A_dates 0%Z))%Z /\
  inject_Z 1 * 0.5
  <= inject_Z (timedelta_days (nth 1 scenario_A_dates 0%Z)
                              (nth 0 scenario_A_dates 0%Z)) / 365.25 /\
  nth_error
    (fst (process_column decimal_literal scenario_A_dates
            (compute_to_indices scenario_A_dates 1) 1 flat_column)) 0
  = Some "0.00%"%string.
Proof.
  assert (Hnz : ~ inject_Z 100 == 0) by (intros H; discriminate H).
  assert (Heq : inject_Z 100 == inject_Z 100) by reflexivity.
  assert (Hd : (0 < timedelta_days (nth 1 scenario_A_dates 0%Z)
                                   (nth 0 scenario_A_dates 0%Z))%Z)
    by (vm_compute; reflexivity).
  assert (Hw : inject_Z 1 * 0.5
               <= inject_Z (timedelta_days (nth 1 scenario_A_dates 0%Z)
                                           (nth 0 scenario_A_dates 0%Z))
                  / 365.25)
    by (vm_compute; discriminate).
  split; [reflexivity |]. split; [reflexivity |]. split; [reflexivity |].
  split; [reflexivity |]. split; [exact Hnz |]. split; [exact Heq |].
  split; [exact Hd |]. split; [exact Hw |].
  exact (unchanged_value_is_zero_percent decimal_literal scenario_A_dates 1
           flat_column 0 1 (inject_Z 100) (inject_Z 100)
           eq_refl eq_refl eq_refl eq_refl Hnz Heq Hd Hw).
Defined.

(** X8.  A matched row that passes the guards and whose end value has
    the other sign than its start value, their quotient lying between
    -10^15 and -10^-15, gets the cell nan%: the base of the power is
    negative. *)
Theorem sign_change_is_nan
    (to_numeric : string -> option Q) (dates : list Timestamp) (years : Z)
    (col : string * list string) (i j : nat) (s e : Q) :
  length (snd col) = length dates ->
  nth_error (compute_to_indices dates years) i = Some (Some j) ->
  nth_error (coerce_series to_numeric (snd col)) i = Some (Some s) ->
  nth_error (coerce_series to_numeric (snd col)) j = Some (Some e) ->
  ~ s == 0 ->
  plainly_negative (e / s) ->
  (0 < timedelta_days (nth j dates 0%Z) (nth i dates 0%Z))%Z ->
  inject_Z years * 0.5
  <= inject_Z (timedelta_days (nth j dates 0%Z) (nth i dates 0%Z)) / 365.25 ->
  nth_error
    (fst (process_column to_numeric dates (compute_to_indices dates years)
            years col)) i
  = Some "nan%"%string.
Proof.
  intros Hlen Hi Hs He Hnz [_ Hneg] Hdays Hwin.
  rewrite (priced_cell to_numeric dates years col i j s e)
    by assumption.
  f_equal. apply format_pct_pow_negative.
  assert (1 + (e / s - 1) == e / s) as -> by ring.
  eapply Qle_lt_trans; [exact Hneg | reflexivity].
Qed.

Lemma sign_change_is_nan_witness :
  length (snd sign_change_column) = length scenario_A_dates /\
  nth_error (compute_to_indices scenario_A_dates 1) 0 = Some (Some 1%nat) /\
  nth_error (coerce_series signed_literal (snd sign_change_column)) 0
    = Some (Some (inject_Z 100)) /\
  nth_error (coerce_series signed_literal (snd sign_change_column)) 1
    = Some (Some (- inject_Z 50)) /\
  ~ inject_Z 100 == 0 /\
  plainly_negative (- inject_Z 50 / inject_Z 100) /\
  (0 < timedelta_days (nth 1 scenario_A_dates 0%Z)
                      (nth 0 scenario_A_dates 0%Z))%Z /\
  inject_Z 1 * 0.5
  <= inject_Z (timedelta_days (nth 1 scenario_A_dates 0%Z)
                              (nth 0 scenario_A_dates 0%Z)) / 365.25 /\
  nth_error
    (fst (process_column signed_literal scenario_A_dates
            (compute_to_indices scenario_A_dates 1) 1 sign_change_column)) 0
  = Some "nan%"%string.
Proof.
  assert (Hnz : ~ inject_Z 100 == 0) by (intros H; discriminate H).
  assert (Hneg : plainly_negative (- inject_Z 50 / inject_Z 100))
    by (split; vm_compute; discriminate).
  assert (Hd : (0 < timedelta_days (nth 1 scenario_A_dates 0%Z)
                                   (nth 0 scenario_A_dates 0%Z))%Z)
    by (vm_compute; reflexivity).
  assert (Hw : inject_Z 1 * 0.5
               <= inject_Z (timedelta_days (nth 1 scenario_A_dates 0%Z)
                                           (nth 0 scenario_A_dates 0%Z))
                  / 365.25)
    by (vm_compute; discriminate).
  split; [reflexivity |]. split; [reflexivity |]. split; [reflexivity |].
  split; [reflexivity |]. split; [exact Hnz |]. split; [exact Hneg |].
  split; [exact Hd |]. split; [exact Hw |].
  exact (sign_change_is_nan signed_literal scenario_A_dates 1
           sign_change_column 0 1 (inject_Z 100) (- inject_Z 50)
           eq_refl eq_refl eq_refl eq_refl Hnz Hneg Hd Hw).
Defined.

(** ** Cleaning, sorting and naming *)

Lemma remove_commas_insert (a b : string) :
  remove_commas (a ++ "," ++ b) = remove_commas (a ++ b).
Proof.
  induction a as [|c a IH]; simpl in *; [reflexivity |].
  rewrite IH. reflexivity.
Qed.

(** X9.  A comma anywhere in a cell is ignored: the column is processed
    as if the comma were not there. *)
Theorem comma_in_a_cell_is_ignored
    (to_numeric : string -> option Q) (dates : list Timestamp)
    (to_indices : list (option nat)) (years : Z) (name : string)
    (pre post : list string) (a b : string) :
  process_column to_numeric dates to_indices years
    (name, pre ++ (a ++ "," ++ b)%string :: post)
  = process_column to_numeric dates to_indices years
      (name, pre ++ (a ++ b)%string :: post).
Proof.
  unfold process_column, coerce_series. cbn [fst snd].
  rewrite !map_app. cbn [map]. rewrite remove_commas_insert. reflexivity.
Qed.

Lemma insert_sorted_Permutation key i l :
  Permutation (insert_sorted key i l) (i :: l).
Proof.
  induction l as [|j l IH]; simpl; [apply Permutation_refl |].
  destruct (key i <=? key j)%Z; [apply Permutation_refl |].
  eapply perm_trans; [apply perm_skip, IH | apply perm_swap].
Qed.

Lemma fold_insert_sorted_Permutation key l :
  Permutation (fold_right (insert_sorted key) [] l) l.
Proof.
  induction l as [|i l IH]; simpl; [constructor |].
  eapply perm_trans; [apply insert_sorted_Permutation | apply perm_skip, IH].
Qed.

Lemma argsort_Permutation ds : Permutation (argsort ds) (seq 0 (length ds)).
Proof. unfold argsort. apply fold_insert_sorted_Permutation. Qed.

Lemma map_nth_seq_from {A : Type} (d : A) (l : list A) :
  forall pre, map (fun i => nth i (pre ++ l) d) (seq (length pre) (length l)) = l.
Proof.
  induction l as [|x l IH]; intros pre; simpl; [reflexivity |].
  f_equal.
  - rewrite app_nth2 by lia. rewrite Nat.sub_diag. reflexivity.
  - specialize (IH (pre ++ [x])). rewrite <- app_assoc in IH. simpl in IH.
    rewrite length_app in IH. simpl in IH.
    rewrite Nat.add_1_r in IH. exact IH.
Qed.

Lemma take_seq {A : Type} (d : A) (l : list A) :
  take d (seq 0 (length l)) l = l.
Proof. unfold take. apply (map_nth_seq_from d l []). Qed.

Lemma sorted_dates_Permutation parsed : Permutation (sorted_dates parsed) parsed.
Proof.
  unfold sorted_dates.
  pose proof (Permutation_map (fun i => nth i parsed 0%Z)
                (argsort_Permutation parsed)) as H.
  change (Permutation (take 0%Z (argsort parsed) parsed)
                      (take 0%Z (seq 0 (length parsed)) parsed)) in H.
  rewrite take_seq in H. exact H.
Qed.

(** X10.  Sorting by date loses and invents no row: the order applied to
    every column is a rearrangement of the row numbers, and the sorted
    dates are the parsed dates rearranged in ascending order. *)
Theorem sort_keeps_every_row (parsed : list Timestamp) :
  Permutation (argsort parsed) (seq 0 (length parsed)) /\
  Permutation (sorted_dates parsed) parsed /\
  Sorted Z.le (sorted_dates parsed).
Proof.
  split; [apply argsort_Permutation |].
  split; [apply sorted_dates_Permutation | apply sorted_dates_Sorted].
Qed.

Lemma fold_insert_sorted_seq (key : nat -> Z) (n : nat) :
  forall k,
    (forall i, (k <= i)%nat -> (S i < k + n)%nat -> (key i <= key (S i))%Z) ->
    fold_right (insert_sorted key) [] (seq k n) = seq k n.
Proof.
  induction n as [|n IH]; intros k H; [reflexivity |].
  simpl. rewrite IH by (intros i Hi Hlt; apply H; lia).
  destruct n as [|n]; [reflexivity |]. simpl.
  destruct (Z.leb_spec (key k) (key (S k))) as [_ | Hgt]; [reflexivity |].
  specialize (H k). lia.
Qed.

Lemma sorted_lt_consecutive (l : list Z) :
  Sorted Z.lt l ->
  forall i, (S i < length l)%nat -> (nth i l 0 < nth (S i) l 0)%Z.
Proof.
  induction 1 as [|x l Hs IH Hhd]; intros i Hi; simpl in Hi; [lia |].
  destruct i as [|i].
  - destruct Hhd as [|y l' Hxy]; simpl in *; [lia | exact Hxy].
  - change (nth (S i) (x :: l) 0%Z) with (nth i l 0%Z).
    change (nth (S (S i)) (x :: l) 0%Z) with (nth (S i) l 0%Z).
    apply IH. lia.
Qed.

Lemma argsort_ascending (parsed : list Timestamp) :
  Sorted Z.lt parsed -> argsort parsed = seq 0 (length parsed).
Proof.
  intros Hs. unfold argsort. apply fold_insert_sorted_seq.
  intros i _ Hi. apply Z.lt_le_incl, sorted_lt_consecutive; [exact Hs | lia].
Qed.

(** X11.  A table whose dates are already in strictly ascending order
    goes through the sort unchanged, dates and columns alike. *)
Theorem ascending_table_is_left_as_is
    (parsed : list Timestamp) (cols : list (string * list string)) :
  Sorted Z.lt parsed ->
  Forall (fun c => length (snd c) = length parsed) cols ->
  sorted_dates parsed = parsed /\
  sort_columns (argsort parsed) cols = cols.
Proof.
  intros Hs Hwf. unfold sorted_dates, sort_columns.
  rewrite (argsort_ascending parsed Hs).
  split; [apply take_seq |].
  rewrite <- (map_id cols) at 2. apply map_ext_in.
  intros [name cells] Hin. rewrite Forall_forall in Hwf.
  specialize (Hwf _ Hin). cbn [fst snd] in *.
  rewrite <- Hwf. rewrite take_seq. reflexivity.
Qed.

Lemma ascending_table_is_left_as_is_witness :
  Sorted Z.lt scenario_A_dates /\
  Forall (fun c => length (snd c) = length scenario_A_dates)
         [scenario_A_column] /\
  sorted_dates scenario_A_dates = scenario_A_dates /\
  sort_columns (argsort scenario_A_dates) [scenario_A_column]
  = [scenario_A_column].
Proof.
  assert (Hs : Sorted Z.lt scenario_A_dates)
    by (repeat constructor; vm_compute; reflexivity).
  assert (Hwf : Forall (fun c => length (snd c) = length scenario_A_dates)
                       [scenario_A_column])
    by (repeat constructor).
  split; [exact Hs |]. split; [exact Hwf |].
  exact (ascending_table_is_left_as_is scenario_A_dates [scenario_A_column]
           Hs Hwf).
Defined.

Lemma existsb_eqb_In (n : string) (seen : list string) :
  existsb (String.eqb n) seen = true <-> In n seen.
Proof.
  rewrite existsb_exists. split.
  - intros [x [Hx E]]. apply String.eqb_eq in E. subst x. exact Hx.
  - intros H. exists n. split; [exact H | apply String.eqb_refl].
Qed.

Lemma existsb_eqb_ext (n : string) (seen seen' : list string) :
  (forall x, In x seen <-> In x seen') ->
  existsb (String.eqb n) seen = existsb (String.eqb n) seen'.
Proof.
  intros H. apply eq_true_iff_eq. rewrite !existsb_eqb_In. apply H.
Qed.

Lemma distinct_names_ext (names : list string) :
  forall seen seen',
    (forall x, In x seen <-> In x seen') ->
    distinct_names seen names = distinct_names seen' names.
Proof.
  induction names as [|n names IH]; intros seen seen' H; simpl;
    [reflexivity |].
  rewrite (existsb_eqb_ext n seen seen' H).
  destruct (existsb (String.eqb n) seen'); [apply IH, H |].
  f_equal. apply IH. intros x. simpl. rewrite (H x). tauto.
Qed.

Lemma distinct_names_spec (names : list string) :
  forall seen,
    NoDup (distinct_names seen names) /\
    forall x, In x (distinct_names seen names) <->
              In x names /\ ~ In x seen.
Proof.
  induction names as [|n names IH]; intros seen; simpl.
  - split; [constructor | intros x; tauto].
  - destruct (existsb (String.eqb n) seen) eqn:E.
    + apply existsb_eqb_In in E. destruct (IH seen) as [Hnd Hin].
      split; [exact Hnd |]. intros x. rewrite (Hin x).
      split; [tauto |]. intros [[<- | Hx] Hs]; [elim (Hs E) | tauto].
    + assert (~ In n seen) as Hn
        by (intros Hs; apply existsb_eqb_In in Hs; congruence).
      destruct (IH (n :: seen)) as [Hnd Hin]. split.
      * constructor; [| exact Hnd].
        intros Hc. apply Hin in Hc. destruct Hc as [_ Hc].
        apply Hc. left. reflexivity.
      * intros x. simpl. rewrite (Hin x). simpl.
        destruct (string_dec n x) as [<- | Hne]; tauto.
Qed.

Lemma distinct_names_map (f : string -> string) (names : list string) :
  (forall a b, f a = f b -> a = b) ->
  forall seen,
    distinct_names (map f seen) (map f names)
    = map f (distinct_names seen names).
Proof.
  intros Hf. induction names as [|n names IH]; intros seen; simpl;
    [reflexivity |].
  assert (existsb (String.eqb (f n)) (map f seen)
          = existsb (String.eqb n) seen) as ->.
  { apply eq_true_iff_eq. rewrite !existsb_eqb_In, in_map_iff. split.
    - intros [x [E Hx]]. apply Hf in E. subst x. exact Hx.
    - intros Hx. exists n. split; [reflexivity | exact Hx]. }
  destruct (existsb (String.eqb n) seen); [apply IH |].
  simpl. f_equal. apply (IH (n :: seen)).
Qed.

Lemma assign_names label cells df :
  map fst (assign label cells df)
  = if existsb (String.eqb label) (map fst df) then map fst df
    else map fst df ++ [label].
Proof.
  induction df as [|d df IH]; simpl; [reflexivity |].
  rewrite (String.eqb_sym label (fst d)).
  destruct (String.eqb_spec (fst d) label) as [E | E]; simpl.
  - rewrite E. reflexivity.
  - rewrite IH. destruct (existsb (String.eqb label) (map fst df));
      reflexivity.
Qed.

(** Assigning columns one after another keeps the columns already there
    in their places and adds each new name once, where it first comes. *)
Lemma assign_all_names vs :
  forall df,
    map fst (assign_all vs df)
    = map fst df ++ distinct_names (map fst df) (map fst vs).
Proof.
  unfold assign_all.
  induction vs as [|v vs IH]; intros df; simpl;
    [rewrite app_nil_r; reflexivity |].
  rewrite IH, assign_names.
  destruct (existsb (String.eqb (fst v)) (map fst df)); [reflexivity |].
  rewrite <- app_assoc. simpl. f_equal. f_equal.
  apply distinct_names_ext. intros x. rewrite in_app_iff. simpl. tauto.
Qed.

Lemma period_result_column_names to_numeric parsed cols years :
  map fst (snd (period_result to_numeric parsed cols years))
  = "From"%string :: to_label years
    :: map (fun n => column_label n years) (distinct_names [] (map fst cols)).
Proof.
  rewrite period_result_shape. cbn [snd map fst].
  rewrite map_map. cbn [fst]. rewrite assign_all_names. cbn [map app].
  rewrite map_map. cbn [fst].
  rewrite <- (map_map fst (fun n => column_label n years)).
  rewrite sort_columns_names.
  rewrite <- (distinct_names_map (fun n => column_label n years));
    [reflexivity |].
  intros a b. apply column_label_injective.
Qed.

Lemma labelled_names_NoDup (names : list string) (years : Z) :
  NoDup names ->
  NoDup ("From"%string :: to_label years
         :: map (fun n => column_label n years) names).
Proof.
  intros Hnd. constructor; [| constructor].
  - intros [H | H]; [unfold to_label in H; discriminate H |].
    apply in_map_iff in H. destruct H as [n [H _]].
    exact (column_label_not_From _ _ H).
  - intros H. apply in_map_iff in H. destruct H as [n [H _]].
    exact (column_label_not_To _ _ _ H).
  - apply Finite.Injective_map_NoDup_in; [| exact Hnd].
    intros a b _ _. apply column_label_injective.
Qed.

(** X12.  The columns of a period result are From, To (nYr), and then one
    column for every name borne by another column of the table, in the
    order in which the names first appear in the table, named after it
    with the period: a name borne by several columns gives one column.  No
    two columns of the result have the same name. *)
Theorem result_columns_follow_the_table
    (to_numeric : string -> option Q) (parsed : list Timestamp)
    (cols : list (string * list string)) (years : Z) :
  map fst (snd (period_result to_numeric parsed cols years))
  = "From"%string :: to_label years
    :: map (fun n => column_label n years) (distinct_names [] (map fst cols))
  /\ NoDup (map fst (snd (period_result to_numeric parsed cols years))).
Proof.
  pose proof (period_result_column_names to_numeric parsed cols years) as E.
  split; [exact E |]. rewrite E.
  destruct (distinct_names_spec (map fst cols) []) as [Hnd _].
  apply labelled_names_NoDup, Hnd.
Qed.

(** ** Which rows have an end row *)

Lemma last_skipn {A : Type} (d : A) (l : list A) :
  forall i, (i < length l)%nat -> last (skipn i l) d = last l d.
Proof.
  induction l as [|x l IH]; intros i Hi; simpl in Hi; [lia |].
  destruct i as [|i]; [reflexivity |].
  simpl skipn. rewrite IH by lia.
  destruct l as [|y l]; [simpl in Hi; lia | reflexivity].
Qed.

Lemma row_unmatched_iff dates years i d :
  (1 <= years)%Z -> nth_error dates i = Some d ->
  (find_closest_trading_day dates (DateOffset_years years d) i = None
   <-> (last dates 0 < DateOffset_years years d)%Z).
Proof.
  intros Hy Hd.
  assert (i < length dates)%nat as Hi by (apply nth_error_Some; congruence).
  assert (In d (skipn i dates)) as Hin.
  { apply (nth_error_In _ 0). rewrite nth_error_skipn, Nat.add_0_r. exact Hd. }
  pose proof (DateOffset_years_later years d Hy) as Hlater.
  rewrite <- (last_skipn 0%Z dates i Hi).
  split.
  - intros E. apply find_closest_none_cases in E.
    destruct E as [E | [Hb | Hall]];
      [rewrite E in Hin; elim Hin | exact Hb |].
    specialize (Hall d Hin). lia.
  - intros Hb.
    destruct (find_closest_trading_day dates (DateOffset_years years d) i)
      as [r|] eqn:E; [exfalso | reflexivity].
    destruct (find_closest_some_bounds _ _ _ _ E) as [x [_ [_ Hle]]]. lia.
Qed.

Lemma nth_error_matched_mask to_indices i :
  nth_error (matched_mask to_indices) i
  = option_map (fun idx => match idx with Some _ => true | None => false end)
               (nth_error to_indices i).
Proof. unfold matched_mask. apply nth_error_map. Qed.

Lemma row_mask dates years i d :
  (1 <= years)%Z -> nth_error dates i = Some d ->
  nth_error (matched_mask (compute_to_indices dates years)) i
  = Some (DateOffset_years years d <=? last dates 0)%Z.
Proof.
  intros Hy Hd.
  rewrite nth_error_matched_mask, nth_error_compute_to_indices, Hd. simpl.
  f_equal. pose proof (row_unmatched_iff dates years i d Hy Hd) as H.
  destruct (find_closest_trading_day dates (DateOffset_years years d) i)
    as [j|];
    destruct (Z.leb_spec (DateOffset_years years d) (last dates 0%Z))
      as [Hle | Hgt]; try reflexivity.
  - apply H in Hgt. discriminate.
  - assert (last dates 0 < DateOffset_years years d)%Z
      by (apply H; reflexivity).
    lia.
Qed.

(** X13.  For a period of at least one year, a row has an end row exactly
    when its date shifted by the period is not after the last date of the
    column. *)
Theorem row_is_matched_iff_target_within_data
    (dates : list Timestamp) (years : Z) (i : nat) (d : Timestamp) :
  (1 <= years)%Z ->
  nth_error dates i = Some d ->
  ((exists j, nth_error (compute_to_indices dates years) i = Some (Some j))
   <-> (DateOffset_years years d <= last dates 0)%Z).
Proof.
  intros Hy Hd. rewrite nth_error_compute_to_indices, Hd. simpl.
  pose proof (row_unmatched_iff dates years i d Hy Hd) as H.
  destruct (find_closest_trading_day dates (DateOffset_years years d) i)
    as [j|].
  - split; [intros _ | intros _; eauto].
    destruct (Z.le_gt_cases (DateOffset_years years d) (last dates 0%Z))
      as [Hle | Hgt]; [exact Hle |].
    apply H in Hgt. discriminate.
  - split; [intros [j Hj]; discriminate |].
    intros Hle.
    assert (last dates 0 < DateOffset_years years d)%Z
      by (apply H; reflexivity).
    lia.
Qed.

Lemma row_is_matched_iff_target_within_data_witness :
  (1 <= 1)%Z /\
  nth_error scenario_A_dates 0 = Some (ymd 2020 1 1) /\
  ((exists j,
      nth_error (compute_to_indices scenario_A_dates 1) 0 = Some (Some j))
   <-> (DateOffset_years 1 (ymd 2020 1 1) <= last scenario_A_dates 0)%Z).
Proof.
  assert (Hy : (1 <= 1)%Z) by lia.
  split; [exact Hy |]. split; [reflexivity |].
  exact (row_is_matched_iff_target_within_data scenario_A_dates 1 0
           (ymd 2020 1 1) Hy eq_refl).
Defined.

Lemma forallb_false_at (mask : list bool) (i : nat) :
  nth_error mask i = Some false -> forallb (fun b => b) mask = false.
Proof.
  intros H. destruct (forallb (fun b => b) mask) eqn:E; [| reflexivity].
  rewrite forallb_forall in E. apply nth_error_In in H.
  specialize (E false H). discriminate.
Qed.

Lemma latest_row_unmatched parsed years :
  parsed <> [] -> (1 <= years)%Z ->
  forallb (fun b => b)
          (matched_mask (compute_to_indices (sorted_dates parsed) years))
  = false.
Proof.
  intros Hne Hy.
  assert (sorted_dates parsed <> []) as Hne'.
  { intros E. apply Hne. apply length_zero_iff_nil.
    rewrite <- length_sorted_dates, E. reflexivity. }
  pose proof (last_nth_error (sorted_dates parsed) 0%Z Hne') as Hl.
  apply (forallb_false_at _ (length (sorted_dates parsed) - 1)).
  rewrite (row_mask _ years _ _ Hy Hl). f_equal.
  apply Z.leb_gt. apply DateOffset_years_later, Hy.
Qed.

Lemma latest_row parsed years :
  parsed <> [] -> (1 <= years)%Z ->
  exists latest,
    nth_error (sorted_dates parsed) (length parsed - 1) = Some latest /\
    (forall d, In d parsed -> (d <= latest)%Z) /\
    nth_error (compute_to_indices (sorted_dates parsed) years)
              (length parsed - 1) = Some None /\
    nth_error (matched_mask (compute_to_indices (sorted_dates parsed) years))
              (length parsed - 1) = Some false.
Proof.
  intros Hne Hy.
  assert (sorted_dates parsed <> []) as Hne'.
  { intros E. apply Hne. apply length_zero_iff_nil.
    rewrite <- length_sorted_dates, E. reflexivity. }
  pose proof (last_nth_error (sorted_dates parsed) 0%Z Hne') as Hl.
  rewrite length_sorted_dates in Hl.
  pose proof (DateOffset_years_later years (last (sorted_dates parsed) 0%Z) Hy)
    as Hlater.
  exists (last (sorted_dates parsed) 0%Z).
  split; [exact Hl |]. split; [| split].
  - intros d Hd.
    apply (Permutation_in _ (Permutation_sym (sorted_dates_Permutation parsed)))
      in Hd.
    apply In_nth_error in Hd. destruct Hd as [i Hi].
    assert (i < length (sorted_dates parsed))%nat as Hlt
      by (apply nth_error_Some; congruence).
    rewrite length_sorted_dates in Hlt.
    apply (sorted_nth _ (sorted_dates_Sorted parsed) i (length parsed - 1));
      [lia | exact Hi | exact Hl].
  - rewrite nth_error_compute_to_indices, Hl. simpl. f_equal.
    apply (row_unmatched_iff _ years _ _ Hy Hl). exact Hlater.
  - rewrite (row_mask _ years _ _ Hy Hl). f_equal.
    apply Z.leb_gt. exact Hlater.
Qed.

(** X14.  For a period of at least one year and a table that is not
    empty, the row with the latest date, which is the last row once the
    table is sorted, never has an end row: its entry of the mask is false.
    So at least one row is dropped and reported, and every column of the
    period result has exactly the rows that are left. *)
Theorem latest_row_is_always_dropped
    (to_numeric : string -> option Q) (parsed : list Timestamp)
    (cols : list (string * list string)) (years : Z) :
  parsed <> [] ->
  (1 <= years)%Z ->
  (exists latest,
     nth_error (sorted_dates parsed) (length parsed - 1) = Some latest /\
     (forall d, In d parsed -> (d <= latest)%Z) /\
     nth_error (compute_to_indices (sorted_dates parsed) years)
               (length parsed - 1) = Some None /\
     nth_error (matched_mask (compute_to_indices (sorted_dates parsed) years))
               (length parsed - 1) = Some false) /\
  exists dropped,
    (0 < dropped <= length parsed)%nat /\
    In (RemovedRows dropped years)
       (fst (period_result to_numeric parsed cols years)) /\
    Forall (fun c => length (snd c) = (length parsed - dropped)%nat)
           (snd (period_result to_numeric parsed cols years)).
Proof.
  intros Hne Hy. split; [exact (latest_row parsed years Hne Hy) |].
  rewrite period_result_shape. cbn [fst snd].
  pose proof (latest_row_unmatched parsed years Hne Hy) as Eall.
  set (dates := sorted_dates parsed) in *.
  set (ti := compute_to_indices dates years) in *.
  set (mask := matched_mask ti) in *.
  assert (Hd : length dates = length parsed) by apply length_sorted_dates.
  assert (Hti : length ti = length dates) by apply length_compute_to_indices.
  assert (Hm : length mask = length dates)
    by (unfold mask; rewrite length_matched_mask; exact Hti).
  rewrite Eall.
  pose proof (count_true_lt mask Eall) as Hlt.
  exists (length parsed - count_true mask)%nat.
  split; [lia |]. split.
  - apply in_or_app. right. apply in_or_app. right. left. reflexivity.
  - replace (length parsed - (length parsed - count_true mask))%nat
      with (count_true mask) by lia.
    constructor; [| constructor].
    + cbn [snd]. rewrite length_map. apply select_rows_length. congruence.
    + cbn [snd]. apply select_rows_length.
      rewrite length_compute_to_dates. congruence.
    + apply Forall_forall. intros c Hc. apply in_map_iff in Hc.
      destruct Hc as [c' [<- Hc']]. cbn [snd].
      apply select_rows_length.
      rewrite (assigned_length _ _ _ _ _ _ _ Hti Hc'). congruence.
Qed.

Lemma latest_row_is_always_dropped_witness :
  scenario_A_dates <> [] /\ (1 <= 1)%Z /\
  (exists latest,
     nth_error (sorted_dates scenario_A_dates)
               (length scenario_A_dates - 1) = Some latest /\
     (forall d, In d scenario_A_dates -> (d <= latest)%Z) /\
     nth_error (compute_to_indices (sorted_dates scenario_A_dates) 1)
               (length scenario_A_dates - 1) = Some None /\
     nth_error (matched_mask
                  (compute_to_indices (sorted_dates scenario_A_dates) 1))
               (length scenario_A_dates - 1) = Some false) /\
  exists dropped,
    (0 < dropped <= length scenario_A_dates)%nat /\
    In (RemovedRows dropped 1)
       (fst (period_result decimal_literal scenario_A_dates
               [scenario_A_column] 1)) /\
    Forall (fun c => length (snd c) = (length scenario_A_dates - dropped)%nat)
           (snd (period_result decimal_literal scenario_A_dates
                   [scenario_A_column] 1)).
Proof.
  assert (Hne : scenario_A_dates <> []) by discriminate.
  assert (Hy : (1 <= 1)%Z) by lia.
  split; [exact Hne |]. split; [exact Hy |].
  exact (latest_row_is_always_dropped decimal_literal scenario_A_dates
           [scenario_A_column] 1 Hne Hy).
Defined.

Lemma mask_prefix (m : list bool) :
  (forall i i', (i <= i')%nat ->
                nth_error m i' = Some true -> nth_error m i = Some true) ->
  exists k,
    (k <= length m)%nat /\ m = repeat true k ++ repeat false (length m - k).
Proof.
  induction m as [|b m IH]; intros H.
  - exists 0%nat. split; [lia | reflexivity].
  - destruct IH as [k [Hk E]].
    { intros i i' Hii Hi'. apply (H (S i) (S i')); [lia | exact Hi']. }
    destruct b.
    + exists (S k). split; [simpl; lia |]. simpl. f_equal. exact E.
    + exists 0%nat. split; [lia |]. simpl. f_equal.
      destruct k as [|k]; [simpl in E; rewrite Nat.sub_0_r in E; exact E |].
      exfalso.
      assert (nth_error m 0 = Some true) as H0 by (rewrite E; reflexivity).
      specialize (H 0%nat 1%nat ltac:(lia) H0). discriminate H.
Qed.

Lemma select_rows_none {A : Type} (r : nat) :
  forall col : list A, select_rows (repeat false r) col = [].
Proof.
  induction r as [|r IH]; intros [|x col]; simpl; try reflexivity. apply IH.
Qed.

Lemma select_rows_prefix {A : Type} (k r : nat) :
  forall col : list A,
    select_rows (repeat true k ++ repeat false r) col = firstn k col.
Proof.
  induction k as [|k IH]; intros col; simpl.
  - apply select_rows_none.
  - destruct col as [|x col]; simpl; [reflexivity |]. f_equal. apply IH.
Qed.

Lemma sorted_dates_midnight parsed :
  Forall (fun t => time_part t = 0%Z) parsed ->
  Forall (fun t => time_part t = 0%Z) (sorted_dates parsed).
Proof.
  intros H. eapply Permutation_Forall; [| exact H].
  apply Permutation_sym, sorted_dates_Permutation.
Qed.

Lemma midnight_mask_prefix parsed years :
  Forall (fun t => time_part t = 0%Z) parsed ->
  (1 <= years)%Z ->
  exists k,
    (k <= length parsed)%nat /\
    matched_mask (compute_to_indices (sorted_dates parsed) years)
    = repeat true k ++ repeat false (length parsed - k).
Proof.
  intros Hmid Hy.
  pose proof (sorted_dates_midnight parsed Hmid) as Hmid'.
  pose proof (sorted_dates_Sorted parsed) as Hs.
  set (dates := sorted_dates parsed) in *.
  assert (length (matched_mask (compute_to_indices dates years))
          = length parsed) as Hlen.
  { rewrite length_matched_mask, length_compute_to_indices.
    apply length_sorted_dates. }
  rewrite <- Hlen. apply mask_prefix.
  intros i i' Hii Hi'.
  assert (i' < length dates)%nat as Hlt.
  { rewrite <- (length_compute_to_indices dates years),
      <- length_matched_mask.
    apply nth_error_Some. congruence. }
  destruct (nth_error dates i') as [d'|] eqn:Ed';
    [| apply nth_error_None in Ed'; lia].
  destruct (nth_error dates i) as [d|] eqn:Ed;
    [| apply nth_error_None in Ed; lia].
  rewrite (row_mask dates years i' d' Hy Ed') in Hi'.
  rewrite (row_mask dates years i d Hy Ed). f_equal.
  injection Hi' as Hi'. apply Z.leb_le in Hi'. apply Z.leb_le.
  assert (d <= d')%Z as Hdd
    by (eapply (sorted_nth dates Hs); [exact Hii | exact Ed | exact Ed']).
  rewrite Forall_forall in Hmid'.
  pose proof (Hmid' d (nth_error_In _ _ Ed)) as Hz.
  pose proof (Hmid' d' (nth_error_In _ _ Ed')) as Hz'.
  pose proof (DateOffset_years_monotone years d d') as Hmono.
  lia.
Qed.

(** X15.  When no date of the table has a time of day, the rows kept for
    a period of at least one year are the earliest rows of the sorted
    table: the first [k] have an end row, the others have none, and the
    From column is that of the first [k] sorted rows. *)
Theorem midnight_rows_kept_are_the_earliest
    (to_numeric : string -> option Q) (parsed : list Timestamp)
    (cols : list (string * list string)) (years : Z) :
  Forall (fun t => time_part t = 0%Z) parsed ->
  (1 <= years)%Z ->
  exists k,
    (k <= length parsed)%nat /\
    matched_mask (compute_to_indices (sorted_dates parsed) years)
    = repeat true k ++ repeat false (length parsed - k) /\
    nth_error (snd (period_result to_numeric parsed cols years)) 0
    = Some ("From"%string,
            map strftime_mdY (firstn k (sorted_dates parsed))).
Proof.
  intros Hmid Hy.
  destruct (midnight_mask_prefix parsed years Hmid Hy) as [k [Hk E]].
  exists k. split; [exact Hk |]. split; [exact E |].
  rewrite period_result_shape. cbn [snd nth_error].
  rewrite E, select_rows_prefix. reflexivity.
Qed.

Lemma midnight_rows_kept_are_the_earliest_witness :
  Forall (fun t => time_part t = 0%Z) four_new_years /\
  (1 <= 3)%Z /\
  exists k,
    (k <= length four_new_years)%nat /\
    matched_mask (compute_to_indices (sorted_dates four_new_years) 3)
    = repeat true k ++ repeat false (length four_new_years - k) /\
    nth_error (snd (period_result decimal_literal four_new_years [] 3)) 0
    = Some ("From"%string,
            map strftime_mdY (firstn k (sorted_dates four_new_years))).
Proof.
  assert (Hmid : Forall (fun t => time_part t = 0%Z) four_new_years)
    by (repeat constructor).
  assert (Hy : (1 <= 3)%Z) by lia.
  split; [exact Hmid |]. split; [exact Hy |].
  exact (midnight_rows_kept_are_the_earliest decimal_literal four_new_years
           [] 3 Hmid Hy).
Defined.

Lemma DateOffset_years_le y y' t :
  (y <= y')%Z -> (DateOffset_years y t <= DateOffset_years y' t)%Z.
Proof.
  intros H. destruct (Z.eq_dec y y') as [-> | Hne]; [lia |].
  apply Z.lt_le_incl, DateOffset_years_increasing. lia.
Qed.

(** X16.  When no date of the table has a time of day, the rows kept for
    a longer period are the first of the rows kept for a shorter one, so
    the From column of the longer period is the beginning of the From
    column of the shorter period.  This is what lets [main] put the period
    results side by side under one From column. *)
Theorem longer_period_rows_are_a_prefix
    (to_numeric : string -> option Q) (parsed : list Timestamp)
    (cols : list (string * list string)) (y y' : Z)
    (from from' : list string) :
  Forall (fun t => time_part t = 0%Z) parsed ->
  (1 <= y <= y')%Z ->
  nth_error (snd (period_result to_numeric parsed cols y)) 0
    = Some ("From"%string, from) ->
  nth_error (snd (period_result to_numeric parsed cols y')) 0
    = Some ("From"%string, from') ->
  from' = firstn (length from') from.
Proof.
  intros Hmid Hy Hf Hf'.
  destruct (midnight_mask_prefix parsed y Hmid ltac:(lia)) as [k [Hk E]].
  destruct (midnight_mask_prefix parsed y' Hmid ltac:(lia)) as [k' [Hk' E']].
  rewrite period_result_shape in Hf, Hf'. cbn [snd nth_error] in Hf, Hf'.
  rewrite E, select_rows_prefix in Hf. rewrite E', select_rows_prefix in Hf'.
  injection Hf as <-. injection Hf' as <-.
  set (dates := sorted_dates parsed) in *.
  assert (Hd : length dates = length parsed) by apply length_sorted_dates.
  assert (k' <= k)%nat as Hkk.
  { destruct (Nat.le_gt_cases k' k) as [Hle | Hgt]; [exact Hle | exfalso].
    destruct (nth_error dates k) as [d|] eqn:Ed;
      [| apply nth_error_None in Ed; lia].
    pose proof (row_mask dates y k d ltac:(lia) Ed) as Hm.
    pose proof (row_mask dates y' k d ltac:(lia) Ed) as Hm'.
    rewrite E in Hm. rewrite E' in Hm'.
    rewrite nth_error_app2 in Hm by (rewrite repeat_length; lia).
    rewrite repeat_length, Nat.sub_diag in Hm.
    rewrite nth_error_app1 in Hm' by (rewrite repeat_length; lia).
    rewrite nth_error_repeat in Hm' by lia.
    destruct (length parsed - k)%nat as [|r] eqn:Er; [lia |].
    simpl in Hm. injection Hm as Hm. injection Hm' as Hm'.
    symmetry in Hm, Hm'. apply Z.leb_gt in Hm. apply Z.leb_le in Hm'.
    pose proof (DateOffset_years_le y y' d ltac:(lia)). lia. }
  rewrite length_map, length_firstn, Nat.min_l by lia.
  rewrite firstn_map, firstn_firstn, Nat.min_l by lia. reflexivity.
Qed.

Lemma longer_period_rows_are_a_prefix_witness :
  Forall (fun t => time_part t = 0%Z) four_new_years /\
  (1 <= 1 <= 3)%Z /\
  nth_error (snd (period_result decimal_literal four_new_years [] 1)) 0
    = Some ("From", ["01/01/2020"; "01/01/2021"; "01/01/2022"])%string /\
  nth_error (snd (period_result decimal_literal four_new_years [] 3)) 0
    = Some ("From", ["01/01/2020"])%string /\
  ["01/01/2020"]%string
  = firstn (length ["01/01/2020"]%string)
           ["01/01/2020"; "01/01/2021"; "01/01/2022"]%string.
Proof.
  assert (Hmid : Forall (fun t => time_part t = 0%Z) four_new_years)
    by (repeat constructor).
  assert (Hy : (1 <= 1 <= 3)%Z) by lia.
  assert (H1 : nth_error
                 (snd (period_result decimal_literal four_new_years [] 1)) 0
               = Some ("From", ["01/01/2020"; "01/01/2021"; "01/01/2022"])%string)
    by (vm_compute; reflexivity).
  assert (H3 : nth_error
                 (snd (period_result decimal_literal four_new_years [] 3)) 0
               = Some ("From", ["01/01/2020"])%string)
    by (vm_compute; reflexivity).
  split; [exact Hmid |]. split; [exact Hy |]. split; [exact H1 |].
  split; [exact H3 |].
  exact (longer_period_rows_are_a_prefix decimal_literal four_new_years [] 1 3
           _ _ Hmid Hy H1 H3).
Defined.

(** X17.  With times of day the rows kept for a longer period need not be
    the first rows kept for a shorter one: around a leap day the year
    shift can reverse two observations, and a row is then kept for three
    years whose predecessor is not, although both are kept for one year. *)
Theorem time_of_day_can_misalign_periods :
  exists (parsed : list Timestamp) (y y' : Z) (from from' : list string),
    (1 <= y <= y')%Z /\
    nth_error (snd (period_result decimal_literal parsed [] y)) 0
      = Some ("From"%string, from) /\
    nth_error (snd (period_result decimal_literal parsed [] y')) 0
      = Some ("From"%string, from') /\
    from' <> firstn (length from') from.
Proof.
  exists leap_day_and_three_years_on, 1%Z, 3%Z.
  exists ["02/28/2020"; "02/29/2020"]%string, ["02/29/2020"]%string.
  split; [lia |].
  split; [vm_compute; reflexivity |].
  split; [vm_compute; reflexivity |].
  discriminate.
Qed.

(** ** Short tables *)

Lemma fold_left_min_le (l : list Z) :
  forall a,
    (fold_left Z.min l a <= a)%Z /\
    forall x, In x l -> (fold_left Z.min l a <= x)%Z.
Proof.
  induction l as [|y l IH]; intros a; simpl.
  - split; [lia | intros x []].
  - destruct (IH (Z.min a y)) as [Ha Hx]. split; [lia |].
    intros x [<- | Hin]; [lia | apply Hx, Hin].
Qed.

Lemma fold_left_max_ge (l : list Z) :
  forall a,
    (a <= fold_left Z.max l a)%Z /\
    forall x, In x l -> (x <= fold_left Z.max l a)%Z.
Proof.
  induction l as [|y l IH]; intros a; simpl.
  - split; [lia | intros x []].
  - destruct (IH (Z.max a y)) as [Ha Hx]. split; [lia |].
    intros x [<- | Hin]; [lia | apply Hx, Hin].
Qed.

Lemma list_min_le l lo x : list_min l = Some lo -> In x l -> (lo <= x)%Z.
Proof.
  destruct l as [|a l]; [discriminate |]. simpl. intros [= <-].
  destruct (fold_left_min_le l a) as [Ha Hx].
  intros [<- | Hin]; [exact Ha | apply Hx, Hin].
Qed.

Lemma list_max_ge l hi x : list_max l = Some hi -> In x l -> (x <= hi)%Z.
Proof.
  destruct l as [|a l]; [discriminate |]. simpl. intros [= <-].
  destruct (fold_left_max_ge l a) as [Ha Hx].
  intros [<- | Hin]; [exact Ha | apply Hx, Hin].
Qed.

Lemma all_false_repeat (mask : list bool) :
  Forall (fun b => b = false) mask -> mask = repeat false (length mask).
Proof.
  induction 1 as [|b mask Hb _ IH]; simpl; [reflexivity |].
  rewrite Hb, <- IH. reflexivity.
Qed.

Lemma count_true_repeat_false (n : nat) : count_true (repeat false n) = 0%nat.
Proof. unfold count_true. induction n as [|n IH]; simpl; [reflexivity | exact IH]. Qed.

(** In a table that spans fewer days than the period has, counting 365
    to the year, no row has an end row. *)
Lemma short_table_mask parsed years lo hi :
  (1 <= years)%Z ->
  list_min parsed = Some lo ->
  list_max parsed = Some hi ->
  (timedelta_days hi lo < 365 * years)%Z ->
  matched_mask (compute_to_indices (sorted_dates parsed) years)
  = repeat false (length parsed).
Proof.
  intros Hy Hlo Hhi Hshort.
  set (dates := sorted_dates parsed).
  assert (Hlen : length (matched_mask (compute_to_indices dates years))
                 = length parsed)
    by (unfold dates; rewrite length_matched_mask, length_compute_to_indices;
        apply length_sorted_dates).
  rewrite <- Hlen. apply all_false_repeat. apply Forall_forall.
  intros b Hb. apply In_nth_error in Hb. destruct Hb as [i Hi].
  assert (i < length dates)%nat as Hlt.
  { assert (i < length (matched_mask (compute_to_indices dates years)))%nat
      by (apply nth_error_Some; congruence).
    unfold dates. rewrite length_sorted_dates. lia. }
  destruct (nth_error dates i) as [d|] eqn:Ed;
    [| apply nth_error_None in Ed; lia].
  rewrite (row_mask dates years i d Hy Ed) in Hi. injection Hi as <-.
  apply Z.leb_gt.
  assert (forall x, In x dates -> (lo <= x <= hi)%Z) as Hrange.
  { intros x Hx.
    assert (In x parsed) as Hin
      by (eapply Permutation_in; [apply sorted_dates_Permutation | exact Hx]).
    split; [eapply list_min_le | eapply list_max_ge]; eassumption. }
  assert (dates <> []) as Hne by (intros E; rewrite E in Ed; destruct i; discriminate).
  pose proof (Hrange _ (nth_error_In _ _ (last_nth_error dates 0%Z Hne)))
    as Hlast.
  pose proof (Hrange _ (nth_error_In _ _ Ed)) as Hd.
  pose proof (DateOffset_years_at_least years d ltac:(lia)) as Hoff.
  assert (hi - lo < 365 * years * NS_PER_DAY)%Z as Hspan.
  { unfold timedelta_days, NS_PER_DAY in *.
    revert Hshort. generalize (hi - lo)%Z. intros z Hz.
    Z.div_mod_to_equations. lia. }
  lia.
Qed.

(** X18.  When the table spans fewer days than the period has, counting
    365 to the year, no row has an end row: the period result has no row
    left in any column, and all rows are reported as removed. *)
Theorem short_table_gives_no_rows
    (to_numeric : string -> option Q) (parsed : list Timestamp)
    (cols : list (string * list string)) (years : Z) (lo hi : Timestamp) :
  (1 <= years)%Z ->
  list_min parsed = Some lo ->
  list_max parsed = Some hi ->
  (timedelta_days hi lo < 365 * years)%Z ->
  Forall (fun c => snd c = []) (snd (period_result to_numeric parsed cols years))
  /\ In (RemovedRows (length parsed) years)
        (fst (period_result to_numeric parsed cols years)).
Proof.
  intros Hy Hlo Hhi Hshort.
  rewrite period_result_shape. cbn [fst snd].
  rewrite (short_table_mask parsed years lo hi Hy Hlo Hhi Hshort).
  rewrite count_true_repeat_false, Nat.sub_0_r.
  assert (forallb (fun b => b) (repeat false (length parsed)) = false) as ->
    by (destruct parsed; [discriminate Hlo | reflexivity]).
  split.
  - constructor; [| constructor].
    + cbn [snd]. rewrite select_rows_none. reflexivity.
    + cbn [snd]. apply select_rows_none.
    + apply Forall_forall. intros c Hc. apply in_map_iff in Hc.
      destruct Hc as [c' [<- _]]. cbn [snd]. apply select_rows_none.
  - apply in_or_app. right. apply in_or_app. right. left. reflexivity.
Qed.

Lemma short_table_gives_no_rows_witness :
  (1 <= 5)%Z /\
  list_min scenario_A_dates = Some (ymd 2020 1 1) /\
  list_max scenario_A_dates = Some (ymd 2022 1 1) /\
  (timedelta_days (ymd 2022 1 1) (ymd 2020 1 1) < 365 * 5)%Z /\
  Forall (fun c => snd c = [])
         (snd (period_result decimal_literal scenario_A_dates
                 [scenario_A_column] 5))
  /\ In (RemovedRows (length scenario_A_dates) 5)
        (fst (period_result decimal_literal scenario_A_dates
                [scenario_A_column] 5)).
Proof.
  assert (Hy : (1 <= 5)%Z) by lia.
  assert (Hlo : list_min scenario_A_dates = Some (ymd 2020 1 1))
    by (vm_compute; reflexivity).
  assert (Hhi : list_max scenario_A_dates = Some (ymd 2022 1 1))
    by (vm_compute; reflexivity).
  assert (Hshort : (timedelta_days (ymd 2022 1 1) (ymd 2020 1 1) < 365 * 5)%Z)
    by (vm_compute; reflexivity).
  split; [exact Hy |]. split; [exact Hlo |]. split; [exact Hhi |].
  split; [exact Hshort |].
  exact (short_table_gives_no_rows decimal_literal scenario_A_dates
           [scenario_A_column] 5 (ymd 2020 1 1) (ymd 2022 1 1)
           Hy Hlo Hhi Hshort).
Defined.

(** ** The order of the rows in the table *)

Lemma sorted_permutation_unique (key : nat -> Z) (l1 : list nat) :
  forall l2,
    (forall a b, In a l1 -> In b l1 -> key a = key b -> a = b) ->
    Sorted (fun a b => (key a <= key b)%Z) l1 ->
    Sorted (fun a b => (key a <= key b)%Z) l2 ->
    Permutation l1 l2 ->
    l1 = l2.
Proof.
  assert (Htrans : Relations_1.Transitive (fun a b => (key a <= key b)%Z))
    by (intros x y z; apply Z.le_trans).
  induction l1 as [|a t1 IH]; intros l2 Hinj Hs1 Hs2 Hp.
  - apply Permutation_nil in Hp. congruence.
  - destruct l2 as [|b t2];
      [apply Permutation_sym, Permutation_nil in Hp; discriminate |].
    apply Sorted_StronglySorted in Hs1, Hs2; try exact Htrans.
    inversion Hs1 as [|? ? Hs1' Hall1]; subst.
    inversion Hs2 as [|? ? Hs2' Hall2]; subst.
    rewrite Forall_forall in Hall1, Hall2.
    assert (In b (a :: t1)) as Hb
      by (eapply Permutation_in; [apply Permutation_sym, Hp | left; reflexivity]).
    assert (In a (b :: t2)) as Ha
      by (eapply Permutation_in; [exact Hp | left; reflexivity]).
    assert (key a <= key b)%Z as Hab
      by (destruct Hb as [<- | Hb]; [lia | apply Hall1, Hb]).
    assert (key b <= key a)%Z as Hba
      by (destruct Ha as [<- | Ha]; [lia | apply Hall2, Ha]).
    assert (a = b) as <-
      by (apply Hinj; [left; reflexivity | exact Hb | lia]).
    f_equal. apply IH.
    + intros x y Hx Hy. apply Hinj; right; assumption.
    + apply StronglySorted_Sorted, Hs1'.
    + apply StronglySorted_Sorted, Hs2'.
    + eapply Permutation_cons_inv, Hp.
Qed.

Lemma nth_take {A : Type} (d : A) (order : list nat) (col : list A) (k : nat) :
  (k < length order)%nat ->
  nth k (take d order col) d = nth (nth k order 0%nat) col d.
Proof.
  intros Hk. unfold take.
  rewrite (nth_indep _ d (nth 0 col d)) by (rewrite length_map; exact Hk).
  apply (map_nth (fun i => nth i col d)).
Qed.

Lemma take_take {A : Type} (d : A) (order sigma : list nat) (col : list A) :
  (forall k, In k order -> (k < length sigma)%nat) ->
  take d order (take d sigma col)
  = take d (map (fun k => nth k sigma 0%nat) order) col.
Proof.
  intros H. unfold take at 1 3. rewrite map_map.
  apply map_ext_in. intros k Hk. apply nth_take, H, Hk.
Qed.

Lemma Sorted_map_rel {A B : Type} (R : A -> A -> Prop) (R' : B -> B -> Prop)
    (f : A -> B) (l : list A) :
  (forall a b, In a l -> In b l -> R a b -> R' (f a) (f b)) ->
  Sorted R l -> Sorted R' (map f l).
Proof.
  intros H Hs. induction Hs as [|a l Hs IH Hhd]; simpl; constructor.
  - apply IH. intros x y Hx Hy. apply H; right; assumption.
  - destruct Hhd as [|b l' Hab]; simpl; constructor.
    apply H; [left; reflexivity | right; left; reflexivity | exact Hab].
Qed.

Lemma argsort_of_rearranged parsed sigma :
  NoDup parsed ->
  Permutation sigma (seq 0 (length parsed)) ->
  map (fun k => nth k sigma 0%nat) (argsort (take 0%Z sigma parsed))
  = argsort parsed.
Proof.
  intros Hnd Hp.
  assert (Hlen : length sigma = length parsed)
    by (rewrite (Permutation_length Hp); apply length_seq).
  set (parsed' := take 0%Z sigma parsed).
  assert (Hlen' : length parsed' = length sigma) by apply length_take.
  assert (Hin' : forall k, In k (argsort parsed') -> (k < length sigma)%nat)
    by (intros k Hk; apply argsort_In in Hk; lia).
  apply (sorted_permutation_unique (fun i => nth i parsed 0%Z)).
  - intros a b Ha Hb Hkey.
    assert (forall x, In x (map (fun k => nth k sigma 0%nat) (argsort parsed'))
                      -> (x < length parsed)%nat) as Hrange.
    { intros x Hx. apply in_map_iff in Hx. destruct Hx as [k [<- Hk]].
      assert (In (nth k sigma 0%nat) (seq 0 (length parsed))) as Hs
        by (eapply Permutation_in; [exact Hp | apply nth_In, Hin', Hk]).
      apply in_seq in Hs. lia. }
    apply (proj1 (NoDup_nth parsed 0%Z) Hnd);
      [apply Hrange, Ha | apply Hrange, Hb | exact Hkey].
  - apply (Sorted_map_rel (fun a b => (nth a parsed' 0 <= nth b parsed' 0)%Z)).
    + intros a b Ha Hb Hab. unfold parsed' in Hab.
      rewrite !nth_take in Hab by (apply Hin'; assumption). exact Hab.
    + unfold argsort. apply fold_insert_sorted_Sorted.
  - unfold argsort. apply fold_insert_sorted_Sorted.
  - eapply perm_trans;
      [apply Permutation_map, argsort_Permutation |].
    rewrite Hlen'.
    change (map (fun k => nth k sigma 0%nat) (seq 0 (length sigma)))
      with (take 0%nat (seq 0 (length sigma)) sigma).
    rewrite take_seq.
    eapply perm_trans; [exact Hp |].
    apply Permutation_sym, argsort_Permutation.
Qed.

(** X19.  When all dates are distinct, the order of the rows in the table
    does not matter: the table with its rows rearranged gives the same
    messages and the same period result. *)
Theorem row_order_is_irrelevant
    (to_numeric : string -> option Q) (parsed : list Timestamp)
    (cols : list (string * list string)) (years : Z) (sigma : list nat) :
  NoDup parsed ->
  Permutation sigma (seq 0 (length parsed)) ->
  period_result to_numeric (take 0%Z sigma parsed) (sort_columns sigma cols)
    years
  = period_result to_numeric parsed cols years.
Proof.
  intros Hnd Hp.
  assert (Hlen : length sigma = length parsed)
    by (rewrite (Permutation_length Hp); apply length_seq).
  pose proof (argsort_of_rearranged parsed sigma Hnd Hp) as Ho.
  assert (Hin' : forall k, In k (argsort (take 0%Z sigma parsed)) ->
                           (k < length sigma)%nat).
  { intros k Hk. apply argsort_In in Hk. rewrite length_take in Hk. exact Hk. }
  assert (Hd : sorted_dates (take 0%Z sigma parsed) = sorted_dates parsed).
  { unfold sorted_dates. rewrite take_take by exact Hin'.
    rewrite Ho. reflexivity. }
  assert (Hc : sort_columns (argsort (take 0%Z sigma parsed))
                 (sort_columns sigma cols)
               = sort_columns (argsort parsed) cols).
  { unfold sort_columns. rewrite map_map. apply map_ext. intros c.
    cbn [fst snd]. rewrite take_take by exact Hin'. rewrite Ho. reflexivity. }
  rewrite !period_result_shape, Hd, Hc, length_take, Hlen. reflexivity.
Qed.

Lemma row_order_is_irrelevant_witness :
  NoDup scenario_A_dates /\
  Permutation [2; 0; 1]%nat (seq 0 (length scenario_A_dates)) /\
  period_result decimal_literal (take 0%Z [2; 0; 1]%nat scenario_A_dates)
    (sort_columns [2; 0; 1]%nat [scenario_A_column]) 1
  = period_result decimal_literal scenario_A_dates [scenario_A_column] 1.
Proof.
  assert (Hnd : NoDup scenario_A_dates).
  { repeat constructor; vm_compute; intuition discriminate. }
  assert (Hp : Permutation [2; 0; 1]%nat (seq 0 (length scenario_A_dates)))
    by (apply (Permutation_cons_app [0; 1]%nat [] 2%nat), Permutation_refl).
  split; [exact Hnd |]. split; [exact Hp |].
  exact (row_order_is_irrelevant decimal_literal scenario_A_dates
           [scenario_A_column] 1 [2; 0; 1]%nat Hnd Hp).
Defined.

(** ** The batch runner *)

Lemma drop_duplicated_spec {A : Type} (cols : list (string * A)) :
  forall seen,
    NoDup (map fst (drop_duplicated seen cols)) /\
    forall c, In c (drop_duplicated seen cols) ->
              In c cols /\ ~ In (fst c) seen.
Proof.
  induction cols as [|c rest IH]; intros seen; simpl.
  - split; [constructor | intros c []].
  - destruct (existsb (String.eqb (fst c)) seen) eqn:E.
    + destruct (IH seen) as [Hnd Hin]. split; [exact Hnd |].
      intros c' Hc'. destruct (Hin c' Hc') as [H1 H2]. tauto.
    + destruct (IH (fst c :: seen)) as [Hnd Hin]. split.
      * simpl. constructor; [| exact Hnd].
        intros Hc. apply in_map_iff in Hc. destruct Hc as [c' [Heq Hc']].
        destruct (Hin c' Hc') as [_ Hnot]. apply Hnot. left. congruence.
      * intros c' [<- | Hc'].
        -- split; [left; reflexivity |].
           intros Hs.
           assert (existsb (String.eqb (fst c)) seen = true) as Ht
             by (apply existsb_exists; exists (fst c); split;
                 [exact Hs | apply String.eqb_refl]).
           congruence.
        -- destruct (Hin c' Hc') as [H1 H2]. split; [right; exact H1 |].
           intros Hs. apply H2. right. exact Hs.
Qed.

Lemma height_ge (cols : list (string * list string)) c :
  In c cols -> (length (snd c) <= height cols)%nat.
Proof.
  unfold height. induction cols as [|c' cols IH]; intros Hin; [elim Hin |].
  simpl. destruct Hin as [<- | Hin]; [lia |]. specialize (IH Hin). lia.
Qed.

Lemma concat_axis1_heights (frames : list ResultFrame) c :
  In c (concat_axis1 frames) -> length (snd c) = height (concat frames).
Proof.
  unfold concat_axis1. intros Hc. apply in_map_iff in Hc.
  destruct Hc as [c' [<- Hc']]. cbn [snd].
  rewrite length_app, length_map, repeat_length.
  pose proof (height_ge _ _ Hc'). lia.
Qed.

Lemma combine_repeat_map {A B : Type} (x : string) (f : string * A -> B)
    (l : list A) :
  map f (combine (repeat x (length l)) l) = map (fun c => f (x, c)) l.
Proof. induction l as [|a l IH]; simpl; [reflexivity | rewrite IH; reflexivity]. Qed.

Lemma with_header_cons (c0 : string * list (option string)) rest :
  with_header (c0 :: rest)
  = Some ((fst c0, Some "Annualized Return"%string :: snd c0)
          :: map (fun c => (fst c, Some ""%string :: snd c)) rest).
Proof.
  unfold with_header, header_row.
  replace (length (c0 :: rest) - 1)%nat with (length rest) by (simpl; lia).
  cbn [length]. rewrite repeat_length, Nat.eqb_refl.
  cbn [combine map fst snd]. f_equal. f_equal.
  apply (combine_repeat_map ""%string
           (fun hc : string * (string * list (option string)) =>
              (fst (snd hc), Some (fst hc) :: snd (snd hc)))).
Qed.

Lemma mapM_some {A B : Type} (f : A -> option B) (g : A -> B) (l : list A) :
  (forall x, f x = Some (g x)) -> mapM f l = Some (map g l).
Proof.
  intros H. induction l as [|x l IH]; simpl; [reflexivity |].
  rewrite H, IH. reflexivity.
Qed.

Lemma run_periods_parsed parse_datetime to_numeric df ps parsed :
  to_datetime parse_datetime (Date df) = Some parsed ->
  snd (run_periods parse_datetime to_numeric df ps)
  = Some (map (fun years =>
                 snd (period_result to_numeric parsed (columns df) years))
              ps).
Proof.
  intros Hp. unfold run_periods. cbn [snd]. apply mapM_some.
  intros years. unfold calculate_returns_optimized. rewrite Hp. reflexivity.
Qed.

Lemma run_periods_unparsed parse_datetime to_numeric df y ps :
  to_datetime parse_datetime (Date df) = None ->
  snd (run_periods parse_datetime to_numeric df (y :: ps)) = None.
Proof.
  intros Hp. unfold run_periods, calculate_returns_optimized. cbn [snd mapM].
  rewrite Hp. reflexivity.
Qed.

Lemma period_result_head to_numeric parsed cols years :
  exists from rest,
    snd (period_result to_numeric parsed cols years)
    = ("From"%string, from) :: rest.
Proof. rewrite period_result_shape. cbn [snd]. eauto. Qed.

(** What [main] hands to the writer once the dates have parsed. *)
Lemma main_parsed parse_datetime to_numeric df parsed :
  Date df <> [] ->
  to_datetime parse_datetime (Date df) = Some parsed ->
  exists from rest,
    drop_duplicated []
      (concat_axis1
         (map (fun years =>
                 snd (period_result to_numeric parsed (columns df) years))
              periods))
    = ("From"%string, from) :: rest /\
    main parse_datetime to_numeric df
    = Saved (("From"%string, Some "Annualized Return"%string :: from)
             :: map (fun c => (fst c, Some ""%string :: snd c)) rest).
Proof.
  intros Hne Hp. unfold main.
  destruct (Nat.eqb_spec (length (Date df)) 0) as [E | _];
    [apply length_zero_iff_nil in E; elim (Hne E) |].
  rewrite (run_periods_parsed _ _ _ _ parsed Hp).
  unfold periods. cbn [map].
  destruct (period_result_head to_numeric parsed (columns df) 1)
    as [from [rest E1]].
  rewrite E1. unfold concat_axis1. cbn [concat app map fst snd].
  cbn [drop_duplicated existsb fst].
  eexists. eexists. split; [reflexivity |].
  rewrite with_header_cons. reflexivity.
Qed.

(** X20.  Whenever [main] has a report to save: no two columns of the
    report have the same name, all columns have the same height, the
    first column is From with Annualized Return on top, and every other
    column has an empty text on top. *)
Theorem saved_report_shape
    (parse_datetime : string -> option Timestamp)
    (to_numeric : string -> option Q)
    (df : Frame date_cell) (report : ReportFrame) :
  main parse_datetime to_numeric df = Saved report ->
  NoDup (map fst report) /\
  (exists h, Forall (fun c => length (snd c) = S h) report) /\
  exists cells rest,
    report = ("From"%string, Some "Annualized Return"%string :: cells) :: rest /\
    Forall (fun c => exists cells', snd c = Some ""%string :: cells') rest.
Proof.
  intros Hmain.
  assert (Date df <> []) as Hne.
  { intros E. unfold main in Hmain. rewrite E in Hmain. discriminate Hmain. }
  destruct (to_datetime parse_datetime (Date df)) as [parsed|] eqn:Hp.
  - destruct (main_parsed parse_datetime to_numeric df parsed Hne Hp)
      as [from [rest [Ed Em]]].
    rewrite Em in Hmain. injection Hmain as <-.
    set (frames := map (fun years =>
                          snd (period_result to_numeric parsed (columns df)
                                 years)) periods) in *.
    destruct (drop_duplicated_spec (concat_axis1 frames) []) as [Hnd Hin].
    rewrite Ed in Hnd, Hin.
    split; [| split].
    + cbn [map fst] in *. rewrite map_map. cbn [fst]. exact Hnd.
    + exists (height (concat frames)).
      assert (forall c, In c (("From"%string, from) :: rest) ->
                        length (snd c) = height (concat frames)) as Hh
        by (intros c Hc; apply concat_axis1_heights, Hin, Hc).
      constructor.
      * cbn [snd length]. f_equal.
        apply (Hh ("From"%string, from)). left. reflexivity.
      * apply Forall_forall. intros c Hc. apply in_map_iff in Hc.
        destruct Hc as [c' [<- Hc']]. cbn [snd length]. f_equal.
        apply Hh. right. exact Hc'.
    + exists from. eexists. split; [reflexivity |].
      apply Forall_forall. intros c Hc. apply in_map_iff in Hc.
      destruct Hc as [c' [<- _]]. cbn [snd]. eauto.
  - exfalso. unfold main in Hmain.
    destruct (Nat.eqb (length (Date df)) 0); [discriminate |].
    unfold periods in Hmain.
    rewrite (run_periods_unparsed _ _ _ _ _ Hp) in Hmain. discriminate.
Qed.

Lemma saved_report_shape_witness :
  main no_text_dates decimal_literal dates_only_table
  = Saved dates_only_report /\
  NoDup (map fst dates_only_report) /\
  (exists h, Forall (fun c => length (snd c) = S h) dates_only_report) /\
  exists cells rest,
    dates_only_report
    = ("From"%string, Some "Annualized Return"%string :: cells) :: rest /\
    Forall (fun c => exists cells', snd c = Some ""%string :: cells') rest.
Proof.
  assert (H : main no_text_dates decimal_literal dates_only_table
              = Saved dates_only_report)
    by (vm_compute; reflexivity).
  split; [exact H |].
  exact (saved_report_shape no_text_dates decimal_literal dates_only_table
           dates_only_report H).
Defined.


(** ** What is printed *)

Lemma fold_left_min_in (l : list Z) :
  forall a, fold_left Z.min l a = a \/ In (fold_left Z.min l a) l.
Proof.
  induction l as [|y l IH]; intros a; simpl; [left; reflexivity |].
  destruct (IH (Z.min a y)) as [E | Hin]; [| right; right; exact Hin].
  rewrite E. destruct (Z.min_spec a y) as [[_ ->] | [_ ->]];
    [left; reflexivity | right; left; reflexivity].
Qed.

Lemma fold_left_max_in (l : list Z) :
  forall a, fold_left Z.max l a = a \/ In (fold_left Z.max l a) l.
Proof.
  induction l as [|y l IH]; intros a; simpl; [left; reflexivity |].
  destruct (IH (Z.max a y)) as [E | Hin]; [| right; right; exact Hin].
  rewrite E. destruct (Z.max_spec a y) as [[_ ->] | [_ ->]];
    [right; left; reflexivity | left; reflexivity].
Qed.

Lemma list_min_spec l m :
  list_min l = Some m <-> In m l /\ forall x, In x l -> (m <= x)%Z.
Proof.
  split.
  - intros E. split; [| intros x Hx; eapply list_min_le; eassumption].
    destruct l as [|a l]; [discriminate |]. simpl in E. injection E as <-.
    destruct (fold_left_min_in l a) as [-> | Hin];
      [left; reflexivity | right; exact Hin].
  - intros [Hin Hle]. destruct l as [|a l]; [elim Hin |].
    simpl. f_equal.
    destruct (fold_left_min_le l a) as [Ha Hx].
    assert (In (fold_left Z.min l a) (a :: l)) as Hm
      by (destruct (fold_left_min_in l a) as [-> | H];
          [left; reflexivity | right; exact H]).
    assert (fold_left Z.min l a <= m)%Z
      by (destruct Hin as [<- | Hin]; [exact Ha | apply Hx, Hin]).
    specialize (Hle _ Hm). lia.
Qed.

Lemma list_max_spec l m :
  list_max l = Some m <-> In m l /\ forall x, In x l -> (x <= m)%Z.
Proof.
  split.
  - intros E. split; [| intros x Hx; eapply list_max_ge; eassumption].
    destruct l as [|a l]; [discriminate |]. simpl in E. injection E as <-.
    destruct (fold_left_max_in l a) as [-> | Hin];
      [left; reflexivity | right; exact Hin].
  - intros [Hin Hle]. destruct l as [|a l]; [elim Hin |].
    simpl. f_equal.
    destruct (fold_left_max_ge l a) as [Ha Hx].
    assert (In (fold_left Z.max l a) (a :: l)) as Hm
      by (destruct (fold_left_max_in l a) as [-> | H];
          [left; reflexivity | right; exact H]).
    assert (m <= fold_left Z.max l a)%Z
      by (destruct Hin as [<- | Hin]; [exact Ha | apply Hx, Hin]).
    specialize (Hle _ Hm). lia.
Qed.

Lemma list_min_Permutation l l' :
  Permutation l l' -> list_min l = list_min l'.
Proof.
  intros Hp. destruct (list_min l) as [m|] eqn:E.
  - symmetry. apply list_min_spec. apply list_min_spec in E.
    destruct E as [Hin Hle]. split.
    + eapply Permutation_in; eassumption.
    + intros x Hx. apply Hle.
      eapply Permutation_in; [apply Permutation_sym, Hp | exact Hx].
  - destruct l as [|a l]; [| discriminate].
    apply Permutation_nil in Hp. subst l'. reflexivity.
Qed.

Lemma list_max_Permutation l l' :
  Permutation l l' -> list_max l = list_max l'.
Proof.
  intros Hp. destruct (list_max l) as [m|] eqn:E.
  - symmetry. apply list_max_spec. apply list_max_spec in E.
    destruct E as [Hin Hle]. split.
    + eapply Permutation_in; eassumption.
    + intros x Hx. apply Hle.
      eapply Permutation_in; [apply Permutation_sym, Hp | exact Hx].
  - destruct l as [|a l]; [| discriminate].
    apply Permutation_nil in Hp. subst l'. reflexivity.
Qed.

Lemma sorted_column_height parsed cols c :
  In c (sort_columns (argsort parsed) cols) ->
  length (snd c) = length (sorted_dates parsed).
Proof.
  unfold sort_columns. intros Hc. apply in_map_iff in Hc.
  destruct Hc as [c' [<- _]]. cbn [snd].
  rewrite length_take, length_sorted_dates. apply argsort_length.
Qed.

Lemma name_count_positive name (cols : list (string * list string)) :
  (0 < name_count name cols)%nat -> exists c, In c cols /\ fst c = name.
Proof.
  unfold name_count. intros H.
  destruct (filter (fun c => String.eqb (fst c) name) cols) as [|c l] eqn:E;
    [simpl in H; lia |].
  assert (In c (filter (fun c => String.eqb (fst c) name) cols)) as Hc
    by (rewrite E; left; reflexivity).
  apply filter_In in Hc. destruct Hc as [Hc Hn].
  exists c. split; [exact Hc | apply String.eqb_eq, Hn].
Qed.

(** The column errors of a period: one for each column whose name is
    borne by another column too, and none for a column with a name of its
    own, whose lookups never leave the series. *)
Lemma column_errors to_numeric parsed cols years m :
  In m (concat (map (fun c =>
                       snd (process_named_column to_numeric
                              (sort_columns (argsort parsed) cols)
                              (sorted_dates parsed)
                              (compute_to_indices (sorted_dates parsed) years)
                              years c))
                    (sort_columns (argsort parsed) cols)))
  <-> exists name,
        m = ColumnError name years /\ (1 < name_count name cols)%nat.
Proof.
  set (scols := sort_columns (argsort parsed) cols).
  assert (Hn : forall name, name_count name scols = name_count name cols)
    by (intros name; apply name_count_names, sort_columns_names).
  rewrite in_concat. split.
  - intros [l [Hl Hm]]. apply in_map_iff in Hl. destruct Hl as [c [<- Hc]].
    unfold process_named_column in Hm.
    destruct (Nat.ltb_spec 1 (name_count (fst c) scols)) as [Hlt | _].
    + destruct Hm as [<- | []]. exists (fst c).
      split; [reflexivity | rewrite <- Hn; exact Hlt].
    + rewrite process_column_no_error in Hm
        by (apply (sorted_column_height parsed cols), Hc).
      elim Hm.
  - intros [name [-> Hlt]].
    destruct (name_count_positive name scols) as [c [Hc <-]];
      [rewrite Hn; lia |].
    exists [ColumnError (fst c) years]. split; [| left; reflexivity].
    apply in_map_iff. exists c. split; [| exact Hc].
    unfold process_named_column.
    destruct (Nat.ltb_spec 1 (name_count (fst c) scols)) as [_ | Hge];
      [reflexivity | rewrite Hn in Hge; lia].
Qed.

Lemma removed_rows_messages (all : bool) (n : nat) (years : Z) (m : message) :
  In m (if all then [] else [RemovedRows n years]) -> m = RemovedRows n years.
Proof. destruct all; [intros [] | intros [<- | []]; reflexivity]. Qed.

(** X22.  The warning about a short span is printed exactly when the
    table has a row and the whole days from its earliest to its latest
    date, divided by 365.25, are fewer than the years of the period. *)
Theorem span_warning_iff
    (to_numeric : string -> option Q) (parsed : list Timestamp)
    (cols : list (string * list string)) (years : Z) :
  In (WarnShortSpan years)
     (fst (period_result to_numeric parsed cols years)) <->
  exists lo hi,
    list_min parsed = Some lo /\ list_max parsed = Some hi /\
    inject_Z (timedelta_days hi lo) / 365.25 < inject_Z years.
Proof.
  rewrite period_result_shape. cbn [fst].
  rewrite !in_app_iff.
  assert (In (WarnShortSpan years) (span_warning (sorted_dates parsed) years)
          <-> exists lo hi,
                list_min parsed = Some lo /\ list_max parsed = Some hi /\
                inject_Z (timedelta_days hi lo) / 365.25 < inject_Z years)
    as Hspan.
  { unfold span_warning.
    rewrite (list_min_Permutation _ _ (sorted_dates_Permutation parsed)).
    rewrite (list_max_Permutation _ _ (sorted_dates_Permutation parsed)).
    destruct (list_min parsed) as [lo|], (list_max parsed) as [hi|].
    - destruct (Qle_bool (inject_Z years)
                  (inject_Z (timedelta_days hi lo) / 365.25)) eqn:E.
      + apply Qle_bool_iff in E. split; [intros [] |].
        intros [lo' [hi' [[= <-] [[= <-] Hlt]]]].
        elim (Qlt_not_le _ _ Hlt E).
      + split; [intros _ | intros _; left; reflexivity].
        exists lo, hi. repeat split.
        apply Qnot_le_lt. intros Hle. apply Qle_bool_iff in Hle. congruence.
    - split; [intros [] | intros [lo' [hi' [_ [H _]]]]; discriminate H].
    - split; [intros [] | intros [lo' [hi' [H _]]]; discriminate H].
    - split; [intros [] | intros [lo' [hi' [H _]]]; discriminate H]. }
  rewrite <- Hspan. split; [| intros H; left; exact H].
  intros [H | [H | H]]; [exact H | exfalso | exfalso].
  - apply column_error_messages in H. destruct H as [name H]. discriminate H.
  - apply removed_rows_messages in H. discriminate H.
Qed.

(** X23.  A period reports a column error for a column exactly when the
    name of the column is borne by more than one column of the table.  A
    column with a name of its own is never reported, whatever its cells
    hold: the lookups of the [try] block never leave the series. *)
Theorem column_error_iff_repeated_name
    (to_numeric : string -> option Q) (parsed : list Timestamp)
    (cols : list (string * list string)) (years : Z)
    (name : string) (y : Z) :
  In (ColumnError name y)
     (fst (period_result to_numeric parsed cols years))
  <-> y = years /\ (1 < name_count name cols)%nat.
Proof.
  rewrite period_result_shape. cbn [fst].
  rewrite !in_app_iff, column_errors. split.
  - intros [H | [[name' [[= -> ->] Hlt]] | H]].
    + apply span_warning_messages in H. discriminate H.
    + split; [reflexivity | exact Hlt].
    + apply removed_rows_messages in H. discriminate H.
  - intros [-> Hlt]. right. left. exists name.
    split; [reflexivity | exact Hlt].
Qed.

(** ** The columns of the report *)












(** ** Columns that share a name *)

(** X25.  Columns of the table that bear one and the same name have no
    results of their own: the period result has exactly one column with
    their label, and every cell of that column is empty. *)
Theorem repeated_name_gives_one_empty_column
    (to_numeric : string -> option Q) (parsed : list Timestamp)
    (cols : list (string * list string)) (years : Z) (name : string) :
  (1 < name_count name cols)%nat ->
  name_count (column_label name years)
             (snd (period_result to_numeric parsed cols years)) = 1%nat /\
  exists cells,
    In (column_label name years, cells)
       (snd (period_result to_numeric parsed cols years)) /\
    Forall (fun s => s = ""%string) cells.
Proof.
  intros Hrep.
  pose proof (period_result_column_names to_numeric parsed cols years) as E.
  assert (In (column_label name years)
             (map fst (snd (period_result to_numeric parsed cols years))))
    as Hin.
  { rewrite E. right. right.
    apply (in_map (fun n => column_label n years)).
    apply (distinct_names_spec (map fst cols) []). split; [| intros []].
    destruct (name_count_positive name cols) as [c [Hc <-]]; [lia |].
    apply in_map, Hc. }
  apply in_map_iff in Hin. destruct Hin as [[label cells] [Hl Hc]].
  cbn [fst] in Hl. subst label. split.
  - apply (name_count_distinct _ (column_label name years, cells));
      [| exact Hc].
    rewrite E. destruct (distinct_names_spec (map fst cols) []) as [Hnd _].
    apply labelled_names_NoDup, Hnd.
  - exists cells. split; [exact Hc |].
    rewrite period_result_shape in Hc. cbn [snd] in Hc.
    destruct Hc as [Hc | [Hc | Hc]].
    + apply (f_equal fst) in Hc. cbn [fst] in Hc. symmetry in Hc.
      elim (column_label_not_From _ _ Hc).
    + apply (f_equal fst) in Hc. cbn [fst] in Hc. symmetry in Hc.
      elim (column_label_not_To _ _ _ Hc).
    + apply in_map_iff in Hc. destruct Hc as [v [Hv Hc]].
      pose proof (f_equal fst Hv) as Hname.
      apply (f_equal snd) in Hv. cbn [fst snd] in Hname, Hv. subst cells.
      apply select_rows_all_empty.
      apply assign_all_In in Hc. destruct Hc as [Hc | []].
      apply in_map_iff in Hc. destruct Hc as [c [<- Hc]].
      cbn [fst snd] in *. apply column_label_injective in Hname.
      unfold process_named_column.
      rewrite (name_count_names (fst c) _ cols (sort_columns_names _ _)),
        Hname.
      destruct (Nat.ltb_spec 1 (name_count name cols)) as [_ | Hge];
        [| lia].
      apply Forall_forall. intros s Hs. apply repeat_spec in Hs. exact Hs.
Qed.

Lemma repeated_name_gives_one_empty_column_witness :
  (1 < name_count "S" [scenario_A_column; scenario_A_column])%nat /\
  name_count (column_label "S" 1)
             (snd (period_result decimal_literal scenario_A_dates
                     [scenario_A_column; scenario_A_column] 1)) = 1%nat /\
  exists cells,
    In (column_label "S" 1, cells)
       (snd (period_result decimal_literal scenario_A_dates
               [scenario_A_column; scenario_A_column] 1)) /\
    Forall (fun s => s = ""%string) cells.
Proof.
  assert (H : (1 < name_count "S" [scenario_A_column; scenario_A_column])%nat)
    by (vm_compute; lia).
  split; [exact H |].
  exact (repeated_name_gives_one_empty_column decimal_literal scenario_A_dates
           [scenario_A_column; scenario_A_column] 1 "S" H).
Defined.
